(** * Jellyfish topology generator: a shallow embedding of [jellyfish.py]

    The development follows the source file top-down:

    - the Python built-ins the code leans on ([int] on a string, ["%d" % n],
      [list.remove], [random.choice], [range]);
    - [JellyfishNodeID], the node identity with its three constructors
      (by indices, by composite id, by name) and [name_str];
    - the emulator's [Topo] container, reduced to the calls the generator
      makes on it ([addHost], [addSwitch], [addLink], [switches]);
    - [JellyfishTopo.addHosts] and [JellyfishTopo.create_topology] with its
      two loops (randomized pairing, degree repair);
    - the address strings [ip_str] and [mac_str] of an identity, and the
      accessors [layer], [layer_nodes] and [isPortUp] of [StructuredTopo].

    The source is Python 2 ([range] is applied to [nodes / hosts_per_switch]).
    Python integers are unbounded, so they are [Z]; [/] and [%] on them are
    floor division and the modulo that takes the sign of the divisor, which
    is what [Z.div] and [Z.modulo] compute.  Exceptions are values of [exn];
    a loop that the source does not bound is run with fuel, and the random
    generator is a parameter of the construction. *)

From Stdlib Require Import ZArith List String Ascii Bool Lia.
From Stdlib Require Import DecimalString DecimalZ.
From Stdlib Require HexadecimalString.
Import ListNotations.

Open Scope Z_scope.

(** ** Computations that may raise or run out of fuel *)

Inductive exn : Type :=
| IndexError
| ValueError
| AttributeError
| ZeroDivisionError.

Inductive comp (A : Type) : Type :=
| Ret (a : A)
| Raise (e : exn)
| OutOfFuel.

Arguments Ret {A} a.
Arguments Raise {A} e.
Arguments OutOfFuel {A}.

(** Sequencing: an exception or an exhausted fuel ends the computation. *)
Definition bind {A B : Type} (c : comp A) (k : A -> comp B) : comp B :=
  match c with
  | Ret a => k a
  | Raise e => Raise e
  | OutOfFuel => OutOfFuel
  end.

Notation "x <- c ;; k" := (bind c (fun x => k))
  (at level 61, c at next level, right associativity).
Notation "' pat <- c ;; k" := (bind c (fun x => match x with pat => k end))
  (at level 61, pat pattern, c at next level, right associativity).

(** ** Python built-ins *)

Section PyStrings.

Open Scope string_scope.

(** [str.isspace] on one ASCII character: space, and [\t \n \v \f \r]. *)
Definition is_space (c : ascii) : bool :=
  let n := nat_of_ascii c in
  Nat.eqb n 32 || (Nat.leb 9 n && Nat.leb n 13).

(** Leading, then trailing white space dropped, as [int] does before it
    reads its argument. *)
Fixpoint lstrip (s : string) : string :=
  match s with
  | EmptyString => EmptyString
  | String c r => if is_space c then lstrip r else s
  end.

Fixpoint rstrip (s : string) : string :=
  match s with
  | EmptyString => EmptyString
  | String c r =>
      match rstrip r with
      | EmptyString => if is_space c then EmptyString else String c EmptyString
      | r' => String c r'
      end
  end.

(** One or more ASCII digits, read in base ten. *)
Definition digits_value (s : string) : comp Z :=
  match NilZero.uint_of_string s with
  | Some u => Ret (Z.of_uint u)
  | None => Raise ValueError
  end.

(** [int(s)] for a string, as Python 2 reads it: surrounding white space
    is dropped, one sign is allowed and white space may follow it, then at
    least one digit and nothing else; anything else is a [ValueError]. *)
Definition py_int (s : string) : comp Z :=
  match rstrip (lstrip s) with
  | String "-" d => n <- digits_value (lstrip d) ;; Ret (- n)
  | String "+" d => digits_value (lstrip d)
  | t => digits_value t
  end.

(** ["%d" % n]. *)
Definition pct_d (n : Z) : string := NilZero.string_of_int (Z.to_int n).

End PyStrings.

(** [range(a, b)] as the list it denotes in Python 2. *)
Definition py_range (a b : Z) : list Z :=
  map (fun i => a + Z.of_nat i) (seq 0 (Z.to_nat (b - a))).

(** ** JellyfishNodeID *)

Record JellyfishNodeID : Type := mkNodeID {
  switch_id : Z;
  host_id : Z;
  dpid : Z
}.

(** [JellyfishNodeID(switch_id, host_id)]. *)
Definition id_of_indices (sw h : Z) : JellyfishNodeID :=
  {| switch_id := sw; host_id := h; dpid := Z.shiftl sw 8 + h |}.

(** [JellyfishNodeID(dpid=d)]. *)
Definition id_of_dpid (d : Z) : JellyfishNodeID :=
  {| switch_id := Z.shiftr (Z.land d 0xff00) 8;
     host_id := Z.land d 0xff;
     dpid := d |}.

(** [JellyfishNodeID(name=n)].  [name[0]] on the empty string is an
    [IndexError]; a first letter that is neither ['h'] nor ['s'] leaves
    [switch_id] unset, and the read of it on the next line is an
    [AttributeError]. *)
Definition id_of_name (name : string) : comp JellyfishNodeID :=
  match name with
  | EmptyString => Raise IndexError
  | String c rest =>
      if Ascii.eqb c "h" then
        sw <- py_int rest ;;
        h <- py_int rest ;;
        Ret {| switch_id := sw; host_id := h; dpid := Z.shiftl sw 8 + h |}
      else if Ascii.eqb c "s" then
        sw <- py_int rest ;;
        Ret {| switch_id := sw; host_id := 255; dpid := Z.shiftl sw 8 + 255 |}
      else Raise AttributeError
  end.

(** [__str__] and [name_str]. *)
Definition name_str (i : JellyfishNodeID) : string :=
  if host_id i =? 255
  then String "s" (pct_d (switch_id i))
  else String "h" (pct_d (host_id i)).

(** The two bytes of [dpid] that [ip_str] and [mac_str] print. *)
Definition addr_bytes (i : JellyfishNodeID) : Z * Z :=
  (Z.shiftr (Z.land (dpid i) 0xff00) 8, Z.land (dpid i) 0xff).

(** [a % b] and [a / b] on integers: [ZeroDivisionError] on a zero divisor. *)
Definition py_mod (a b : Z) : comp Z :=
  if b =? 0 then Raise ZeroDivisionError else Ret (a mod b).

Definition py_div (a b : Z) : comp Z :=
  if b =? 0 then Raise ZeroDivisionError else Ret (a / b).

(** A [for] loop whose body may raise. *)
Fixpoint for_each {S A : Type} (body : S -> A -> comp S) (xs : list A) (s : S)
  : comp S :=
  match xs with
  | [] => Ret s
  | x :: rest => s' <- body s x ;; for_each body rest s'
  end.

(** [l.remove(x)]: drops the first element equal to [x], [ValueError] when
    there is none. *)
Fixpoint list_remove {A : Type} (eqb : A -> A -> bool) (x : A) (l : list A)
  : comp (list A) :=
  match l with
  | [] => Raise ValueError
  | y :: rest =>
      if eqb y x then Ret rest
      else rest' <- list_remove eqb x rest ;; Ret (y :: rest')
  end.

(** ** The random module

    [random.seed(n)] replaces the state of the module-wide generator and
    [random.choice(seq)] is [seq[int(random() * len(seq))]].  The generator
    itself is left open: a state, the state a seed produces, and the index
    drawn for a sequence of a given length together with the next state.
    The index lies below the length whenever the sequence is not empty. *)

Record RandomSource : Type := mkRandomSource {
  rng : Type;
  rng_seed : Z -> rng;
  rng_index : rng -> nat -> nat * rng;
  rng_index_lt : forall g n, (0 < n)%nat -> (fst (rng_index g n) < n)%nat
}.

(** [random.seed(seed)]: the earlier state plays no part. *)
Definition random_seed (R : RandomSource) (seed : Z) (_ : rng R) : rng R :=
  rng_seed R seed.

(** [random.choice(seq)]: [IndexError] on an empty sequence. *)
Definition choice {R : RandomSource} {A : Type} (g : rng R) (seq : list A)
  : comp (A * rng R) :=
  let (i, g') := rng_index R g (List.length seq) in
  match nth_error seq i with
  | Some x => Ret (x, g')
  | None => Raise IndexError
  end.

(** A linear congruential generator, used to run the construction on
    concrete inputs. *)
Definition lcg_next (g : Z) : Z := (1103515245 * g + 12345) mod 2147483648.

Definition lcg_index (g : Z) (n : nat) : nat * Z :=
  (Z.to_nat ((g / 65536) mod Z.of_nat n), lcg_next g).

Definition lcg_index_lt (g : Z) (n : nat) (H : (0 < n)%nat)
  : (fst (lcg_index g n) < n)%nat.
Proof.
  unfold lcg_index; simpl.
  pose proof (Z.mod_pos_bound (g / 65536) (Z.of_nat n) ltac:(lia)). lia.
Qed.

Definition lcg : RandomSource :=
  {| rng := Z;
     rng_seed := fun seed => seed mod 2147483648;
     rng_index := lcg_index;
     rng_index_lt := lcg_index_lt |}.

(** ** The emulator's Topo, as the generator uses it

    [Topo] belongs to the emulator.  What is kept of it is the sequence of
    [addHost]/[addSwitch] calls and the sequence of [addLink] calls, in call
    order, and the read access [switches()].  The emulator keys its nodes by
    name: a later call for a name replaces the options of an earlier one.
    [switches()] lists every switch name once, sorted by the emulator; the
    names are given here in order of first insertion, which is their order
    by number for the names s1, s2, ... that [addHosts] produces from a
    positive hosts_per_switch and fewer than 255 hosts.  Elsewhere the two
    orders can differ, and the properties that follow are stated on the
    members of the list, not on their order. *)

Record NodeOpts : Type := mkNodeOpts {
  opt_layer : Z;
  opt_addr : option (Z * Z);
  opt_dpid : option Z
}.

Record NodeRecord : Type := mkNodeRecord {
  node_name : string;
  node_isSwitch : bool;
  node_opts : NodeOpts
}.

Definition EdgeRecord : Type := (string * string * Z)%type.

Record Topo : Type := mkTopo {
  topo_nodes : list NodeRecord;
  topo_links : list EdgeRecord
}.

Definition empty_topo : Topo := {| topo_nodes := []; topo_links := [] |}.

(** [addHost], [addSwitch] (which sets the [isSwitch] option) and
    [addLink]. *)
Definition addHost (name : string) (opts : NodeOpts) (t : Topo) : Topo :=
  {| topo_nodes := topo_nodes t ++ [mkNodeRecord name false opts];
     topo_links := topo_links t |}.

Definition addSwitch (name : string) (opts : NodeOpts) (t : Topo) : Topo :=
  {| topo_nodes := topo_nodes t ++ [mkNodeRecord name true opts];
     topo_links := topo_links t |}.

Definition addLink (node1 node2 : string) (bw : Z) (t : Topo) : Topo :=
  {| topo_nodes := topo_nodes t;
     topo_links := topo_links t ++ [(node1, node2, bw)] |}.

(** [x in l] for a list of names. *)
Definition mem_string (x : string) (l : list string) : bool :=
  existsb (String.eqb x) l.

(** Names in order of first insertion, each once. *)
Fixpoint distinct_names (seen : list string) (l : list NodeRecord)
  : list string :=
  match l with
  | [] => []
  | r :: rest =>
      if mem_string (node_name r) seen then distinct_names seen rest
      else node_name r :: distinct_names (node_name r :: seen) rest
  end.

(** [isSwitch(n)]: the flag of the latest call for [n]. *)
Definition isSwitch (t : Topo) (n : string) : bool :=
  match find (fun r => String.eqb (node_name r) n) (rev (topo_nodes t)) with
  | Some r => node_isSwitch r
  | None => false
  end.

(** [switches()]. *)
Definition switches (t : Topo) : list string :=
  filter (isSwitch t) (distinct_names [] (topo_nodes t)).

(** The names handed to [addSwitch], with repetitions. *)
Definition addSwitch_calls (t : Topo) : list string :=
  map node_name (filter node_isSwitch (topo_nodes t)).

(** The names handed to [addHost], with repetitions. *)
Definition addHost_calls (t : Topo) : list string :=
  map node_name (filter (fun r => negb (node_isSwitch r)) (topo_nodes t)).

(** How many link records have [n] as an endpoint. *)
Definition link_count (t : Topo) (n : string) : nat :=
  List.length
    (filter (fun e => String.eqb (fst (fst e)) n || String.eqb (snd (fst e)) n)
            (topo_links t)).

(** ** JellyfishTopo *)

(** The class constants. *)
Definition LAYER_EDGE : Z := 2.
Definition LAYER_HOST : Z := 3.

(** [def_nopts(layer, name)]. The formatted strings for ip, mac and dpid are
    kept as the numbers they print. *)
Definition def_nopts (layer : Z) (name : string) : comp NodeOpts :=
  match name with
  | EmptyString => Ret (mkNodeOpts layer None None)
  | _ =>
      i <- id_of_name name ;;
      Ret (mkNodeOpts layer
             (if layer =? LAYER_HOST then Some (addr_bytes i) else None)
             (Some (dpid i)))
  end.

(** *** addHosts *)

Record AttachState : Type := mkAttachState {
  switch_num : Z;
  host_list : list string;
  att_topo : Topo
}.

(** Body of the first loop of [addHosts], for host number [num]. *)
Definition attach_host (bw hosts_per_switch : Z) (st : AttachState) (num : Z)
  : comp AttachState :=
  let host_id := name_str (id_of_indices (num + 1) (num + 1)) in
  host_opts <- def_nopts LAYER_HOST host_id ;;
  let t := addHost host_id host_opts (att_topo st) in
  let hl := host_list st ++ [host_id] in
  r <- py_mod num hosts_per_switch ;;
  if r =? 0 then
    let switch_name := name_str (id_of_indices (switch_num st) 255) in
    switch_opts <- def_nopts LAYER_EDGE switch_name ;;
    let t := addSwitch switch_name switch_opts t in
    let t := fold_left (fun t host => addLink host switch_name bw t) hl t in
    Ret (mkAttachState (switch_num st + 1) [] t)
  else
    Ret (mkAttachState (switch_num st) hl t).

(** First loop: [for num in range(0, nodes)]. *)
Definition addHosts_clusters (bw nodes hosts_per_switch : Z) (t : Topo)
  : comp Topo :=
  st <- for_each (attach_host bw hosts_per_switch) (py_range 0 nodes)
          (mkAttachState 1 [] t) ;;
  Ret (att_topo st).

(** Body of the second loop of [addHosts]. *)
Definition add_filler (t : Topo) (num : Z) : comp Topo :=
  let switch_name := name_str (id_of_indices (num + 1) 255) in
  switch_opts <- def_nopts LAYER_EDGE switch_name ;;
  Ret (addSwitch switch_name switch_opts t).

(** Second loop: [for num in range(nodes / hosts_per_switch, switches)]. *)
Definition addHosts_fillers (nswitches nodes hosts_per_switch : Z) (t : Topo)
  : comp Topo :=
  start <- py_div nodes hosts_per_switch ;;
  for_each add_filler (py_range start nswitches) t.

(** [addHosts(switches, nodes, ports_per_switch, hosts_per_switch)]; [bw]
    is [self.bw]. *)
Definition addHosts (bw nswitches nodes ports_per_switch hosts_per_switch : Z)
  (t : Topo) : comp Topo :=
  t1 <- addHosts_clusters bw nodes hosts_per_switch t ;;
  addHosts_fillers nswitches nodes hosts_per_switch t1.

(** *** The working edge list of create_topology *)

(** A link of [added_links]: a pair of switch names, in the order drawn. *)
Definition link : Type := (string * string)%type.

(** Equality of pairs, component by component. *)
Definition link_eqb (a b : link) : bool :=
  String.eqb (fst a) (fst b) && String.eqb (snd a) (snd b).

(** [l in links]. *)
Definition link_in (l : link) (links : list link) : bool :=
  existsb (link_eqb l) links.

(** [switch in link] for a pair. *)
Definition touches (switch : string) (l : link) : bool :=
  String.eqb switch (fst l) || String.eqb switch (snd l).

(** Some pair of the list, taken in list order, is linked in neither
    orientation. *)
Fixpoint not_fully_connected (switch_list : list string) (link_list : list link)
  : bool :=
  match switch_list with
  | [] => false
  | switch :: rest =>
      existsb (fun switch2 =>
                 negb (link_in (switch, switch2) link_list)
                 && negb (link_in (switch2, switch) link_list)) rest
      || not_fully_connected rest link_list
  end.

(** The number of links that have [switch] as an end. *)
Fixpoint count_links_with_switch (switch : string) (link_list : list link) : Z :=
  match link_list with
  | [] => 0
  | l :: rest =>
      (if touches switch l then 1 else 0) + count_links_with_switch switch rest
  end.

(** The loop returns [False] at the first other switch [s] for which
    [(switch, s) not in links or (s, switch) not in links]. *)
Definition switch_is_fully_connected (switch : string) (links : list link)
  (switch_list : list string) : bool :=
  forallb (fun s =>
             String.eqb s switch
             || negb (negb (link_in (switch, s) links)
                      || negb (link_in (s, switch) links)))
          switch_list.

(** *** Phase 1: the pairing loop *)

Record Builder (R : RandomSource) : Type := mkBuilder {
  gen : rng R;
  switch_list : list string;
  added_links : list link
}.

Arguments mkBuilder {R} gen switch_list added_links.
Arguments gen {R} b.
Arguments switch_list {R} b.
Arguments added_links {R} b.

(** The guard of the first [while]. *)
Definition pairing_guard (sl : list string) (links : list link) : bool :=
  Nat.ltb 1 (List.length sl) && not_fully_connected sl links.

(** The test made on each endpoint after a link is appended, and the
    [switch_list.remove] it guards. *)
Definition retire (ports_per_switch : Z) (switch : string)
  (links : list link) (sl : list string) : comp (list string) :=
  if (count_links_with_switch switch links =? ports_per_switch)
     || switch_is_fully_connected switch links sl
  then list_remove String.eqb switch sl
  else Ret sl.

(** What one iteration does once the two switches are drawn. *)
Definition pair_up (ports_per_switch : Z) (switch switch2 : string)
  (sl : list string) (links : list link) : comp (list string * list link) :=
  if String.eqb switch switch2 then Ret (sl, links)
  else
    let l := (switch, switch2) in
    if link_in l links || link_in (switch2, switch) links then Ret (sl, links)
    else
      let links' := links ++ [l] in
      sl1 <- retire ports_per_switch switch links' sl ;;
      sl2 <- retire ports_per_switch switch2 links' sl1 ;;
      Ret (sl2, links').

(** One iteration of the first [while]. *)
Definition pairing_step {R : RandomSource} (ports_per_switch : Z)
  (b : Builder R) : comp (Builder R) :=
  '(switch, g1) <- choice (gen b) (switch_list b) ;;
  '(switch2, g2) <- choice g1 (switch_list b) ;;
  '(sl, links) <- pair_up ports_per_switch switch switch2
                    (switch_list b) (added_links b) ;;
  Ret (mkBuilder g2 sl links).

Fixpoint pairing {R : RandomSource} (fuel : nat) (ports_per_switch : Z)
  (b : Builder R) : comp (Builder R) :=
  match fuel with
  | O => OutOfFuel
  | S fuel' =>
      if pairing_guard (switch_list b) (added_links b) then
        b' <- pairing_step ports_per_switch b ;;
        pairing fuel' ports_per_switch b'
      else Ret b
  end.

(** *** Phase 2: the repair loop *)

Record Pass (R : RandomSource) : Type := mkPass {
  pass_gen : rng R;
  pass_links : list link;
  completed : bool
}.

Arguments mkPass {R} pass_gen pass_links completed.
Arguments pass_gen {R} p.
Arguments pass_links {R} p.
Arguments completed {R} p.

(** Body of [for switch in switch_list] inside the second [while]. *)
Definition repair_switch {R : RandomSource} (ports_per_switch : Z)
  (sl : list string) (p : Pass R) (switch : string) : comp (Pass R) :=
  if switch_is_fully_connected switch (pass_links p) sl then Ret p
  else if count_links_with_switch switch (pass_links p) <? ports_per_switch - 1
  then
    '(l, g') <- choice (pass_gen p) (pass_links p) ;;
    if String.eqb switch (fst l) || String.eqb switch (snd l)
    then Ret (mkPass g' (pass_links p) false)
    else
      links1 <- list_remove link_eqb l (pass_links p) ;;
      Ret (mkPass g' (links1 ++ [(switch, fst l)] ++ [(switch, snd l)]) false)
  else Ret p.

Definition repair_pass {R : RandomSource} (ports_per_switch : Z)
  (sl : list string) (g : rng R) (links : list link) : comp (Pass R) :=
  for_each (repair_switch ports_per_switch sl) sl (mkPass g links true).

Fixpoint repair {R : RandomSource} (fuel : nat) (ports_per_switch : Z)
  (sl : list string) (g : rng R) (links : list link)
  : comp (rng R * list link) :=
  match fuel with
  | O => OutOfFuel
  | S fuel' =>
      p <- repair_pass ports_per_switch sl g links ;;
      if completed p then Ret (pass_gen p, pass_links p)
      else repair fuel' ports_per_switch sl (pass_gen p) (pass_links p)
  end.

(** *** create_topology and the constructor *)

(** The working edge list the two loops leave behind. *)
Definition build_links {R : RandomSource} (fuel : nat) (ports_per_switch : Z)
  (sl : list string) (g : rng R) : comp (rng R * list link) :=
  b <- pairing fuel ports_per_switch (mkBuilder g sl []) ;;
  repair fuel ports_per_switch (switch_list b) (gen b) (added_links b).

(** The last loop: [for link in added_links: addLink(link[0], link[1])]. *)
Definition materialize (bw : Z) (links : list link) (t : Topo) : Topo :=
  fold_left (fun t l => addLink (fst l) (snd l) bw t) links t.

Definition create_topology {R : RandomSource} (fuel : nat) (bw : Z)
  (nswitches nodes ports_per_switch hosts_per_switch : Z)
  (g : rng R) (t : Topo) : comp (Topo * rng R) :=
  t1 <- addHosts bw nswitches nodes ports_per_switch hosts_per_switch t ;;
  '(g', links) <- build_links fuel ports_per_switch (switches t1) g ;;
  Ret (materialize bw links t1, g').

(** [JellyfishTopo(seed, switches, nodes, ports_per_switch,
    hosts_per_switch, bw)], from the state [g0] the module-wide generator
    happens to be in. *)
Definition JellyfishTopo {R : RandomSource} (fuel : nat) (g0 : rng R)
  (seed nswitches nodes ports_per_switch hosts_per_switch bw : Z)
  : comp (Topo * rng R) :=
  let g := random_seed R seed g0 in
  create_topology fuel bw nswitches nodes ports_per_switch hosts_per_switch
    g empty_topo.

(** *** Quantities the properties are stated with *)

(** Hosts wired to a switch: link records from a host name to it. *)
Definition hosts_attached (t : Topo) (switch : string) : Z :=
  Z.of_nat (List.length
    (filter (fun e => negb (isSwitch t (fst (fst e)))
                      && String.eqb (snd (fst e)) switch)
            (topo_links t))).

(** Links from a switch to another switch. *)
Definition inter_switch_degree (t : Topo) (switch : string) : Z :=
  Z.of_nat (List.length
    (filter (fun e => isSwitch t (fst (fst e)) && isSwitch t (snd (fst e))
                      && (String.eqb (fst (fst e)) switch
                          || String.eqb (snd (fst e)) switch))
            (topo_links t))).

Definition port_budget (ports_per_switch : Z) (t : Topo) (switch : string) : Z :=
  ports_per_switch - hosts_attached t switch - inter_switch_degree t switch.

(** Same unordered pair. *)
Definition same_pair (a b : link) : bool :=
  link_eqb a b || link_eqb a (snd b, fst b).

Fixpoint has_duplicate_pair (links : list link) : bool :=
  match links with
  | [] => false
  | l :: rest => existsb (same_pair l) rest || has_duplicate_pair rest
  end.

Definition has_self_loop (links : list link) : bool :=
  existsb (fun l => String.eqb (fst l) (snd l)) links.

Definition adjacent (links : list link) (a b : string) : bool :=
  link_in (a, b) links || link_in (b, a) links.

(** *** Every way the pairing loop can go

    The generator only decides which two members of the candidate list are
    drawn.  A draw of twice the same switch, or of a pair already linked,
    changes nothing but the generator; any other draw appends a link.
    [pairing_all P depth] follows every draw that appends a link, at most
    [depth] of them in a row, and checks [P] on each candidate list and edge
    list with which the loop can stop. *)

Definition accepted (switch switch2 : string) (links : list link) : bool :=
  negb (String.eqb switch switch2)
  && negb (link_in (switch, switch2) links || link_in (switch2, switch) links).

Fixpoint pairing_all (P : list string -> list link -> bool) (depth : nat)
  (ports_per_switch : Z) (sl : list string) (links : list link) : bool :=
  if pairing_guard sl links then
    match depth with
    | O => false
    | S d =>
        forallb (fun ab : string * string =>
                   if accepted (fst ab) (snd ab) links then
                     match pair_up ports_per_switch (fst ab) (snd ab) sl links with
                     | Ret (sl', links') =>
                         pairing_all P d ports_per_switch sl' links'
                     | _ => false
                     end
                   else true)
                (list_prod sl sl)
    end
  else P sl links.

(** *** Notions used in the statements and in the proofs *)

(** No character of [s] is white space. *)
Fixpoint no_space (s : string) : bool :=
  match s with
  | EmptyString => true
  | String c r => negb (is_space c) && no_space r
  end.

(** Every character of [s] is white space. *)
Fixpoint all_space (s : string) : bool :=
  match s with
  | EmptyString => true
  | String c r => is_space c && all_space r
  end.

(** The strings that are integer literals for [int], with the number they
    denote: white space, then either digits alone or a sign, white space
    and digits, then white space; the digits are one or more decimal
    digits. *)
Definition int_literal (s : string) (n : Z) : Prop :=
  exists a sg b d e u,
    s = (a ++ sg ++ b ++ d ++ e)%string
    /\ all_space a = true /\ all_space b = true /\ all_space e = true
    /\ NilZero.uint_of_string d = Some u
    /\ (sg = EmptyString /\ b = EmptyString /\ n = Z.of_uint u
        \/ sg = String "+" EmptyString /\ n = Z.of_uint u
        \/ sg = String "-" EmptyString /\ n = - Z.of_uint u).

(** A node record made from an identity the generator built by indices. *)
Definition made_from (r : NodeRecord) (i : JellyfishNodeID) : Prop :=
  (exists n, i = id_of_indices n n \/ i = id_of_indices n 255)
  /\ node_name r = name_str i
  /\ opt_dpid (node_opts r) = Some (dpid i).

(** The names [addHosts] gives to host number [n] and to switch number
    [n], and the options [def_nopts] computes for them. *)
Definition host_name (n : Z) : string := name_str (id_of_indices n n).
Definition switch_name (n : Z) : string := name_str (id_of_indices n 255).

Definition host_opts (n : Z) : NodeOpts :=
  mkNodeOpts LAYER_HOST (Some (addr_bytes (id_of_indices n n)))
    (Some (dpid (id_of_indices n n))).

Definition edge_opts (n : Z) : NodeOpts :=
  mkNodeOpts LAYER_EDGE None (Some (dpid (id_of_indices n 255))).

(** Host links after the first [k] hosts: from one of these hosts to a
    switch allocated by the loop. *)
Definition host_links_upto (k : Z) (st : AttachState) : Prop :=
  0 <= k
  /\ (forall h, In h (host_list st) -> exists m, 1 <= m <= k /\ h = host_name m)
  /\ (forall e, In e (topo_links (att_topo st)) ->
        (exists m, 1 <= m <= k /\ fst (fst e) = host_name m)
        /\ exists j, snd (fst e) = switch_name j).

(** Both ends of every link of the working edge list are switches. *)
Definition between_switches (t : Topo) (links : list link) : Prop :=
  forall l, In l links -> isSwitch t (fst l) = true /\ isSwitch t (snd l) = true.

(** Every link joins two different members of [vs]. *)
Definition links_within (vs : list string) (links : list link) : Prop :=
  forall l, In l links -> In (fst l) vs /\ In (snd l) vs /\ fst l <> snd l.

(** The end of [l] that is not [s]. *)
Definition other_end (s : string) (l : link) : string :=
  if String.eqb s (fst l) then snd l else fst l.

(** The edge list is not empty, unless the candidate list has no two
    different members. *)
Definition can_draw (sl : list string) (links : list link) : Prop :=
  links <> [] \/ (forall a b, In a sl -> In b sl -> a = b).

(** What one visit of the repair loop to [switch] can do to the pass. *)
Definition repair_effect {R : RandomSource} (ports : Z) (sl : list string)
  (switch : string) (p p' : Pass R) : Prop :=
  (p' = p
   /\ (switch_is_fully_connected switch (pass_links p) sl = true
       \/ ports - 1 <= count_links_with_switch switch (pass_links p)))
  \/ (completed p' = false /\ pass_links p' = pass_links p)
  \/ (completed p' = false
      /\ exists l links1,
          In l (pass_links p) /\ switch <> fst l /\ switch <> snd l
          /\ count_links_with_switch switch (pass_links p) < ports - 1
          /\ list_remove link_eqb l (pass_links p) = Ret links1
          /\ pass_links p' = links1 ++ [(switch, fst l)] ++ [(switch, snd l)]).

(** Two lists are equal, element by element, for the test [eqb]. *)
Fixpoint list_eqb {A : Type} (eqb : A -> A -> bool) (l1 l2 : list A) : bool :=
  match l1, l2 with
  | [], [] => true
  | x :: r1, y :: r2 => eqb x y && list_eqb eqb r1 r2
  | _, _ => false
  end.

(** The pairing loop stopped with candidate list [sl0] and one of the edge
    lists [allowed]. *)
Definition stops_with (sl0 : list string) (allowed : list (list link))
  (sl : list string) (links : list link) : bool :=
  list_eqb String.eqb sl sl0 && existsb (list_eqb link_eqb links) allowed.

(** The pairing loop left no candidate, every link joins two of the
    switches [vs], and each of them is on [degree] links. *)
Definition all_switches_have (vs : list string) (degree : Z)
  (sl : list string) (links : list link) : bool :=
  match sl with
  | [] =>
      forallb (fun l => mem_string (fst l) vs && mem_string (snd l) vs) links
      && forallb (fun s => count_links_with_switch s links =? degree) vs
  | _ => false
  end.

(** Every switch has at most [ports] links, and a candidate has fewer. *)
Definition under_cap (ports : Z) (vs sl : list string) (links : list link)
  : Prop :=
  NoDup sl /\ incl sl vs /\ links_within vs links
  /\ forall s, count_links_with_switch s links <= ports
               /\ (In s sl -> count_links_with_switch s links < ports).

(** *** Address strings *)

(** ["%x" % n]: lower-case hexadecimal, a minus sign for a negative number. *)
Definition pct_x (n : Z) : string :=
  HexadecimalString.NilZero.string_of_int (Z.to_hex_int n).

(** ["%02x" % n]: padded with a zero to two characters. *)
Definition pct_02x (n : Z) : string :=
  let s := pct_x n in
  if Nat.ltb (String.length s) 2 then String "0" s else s.

(** [ip_str]. *)
Definition ip_str (i : JellyfishNodeID) : string :=
  let mid := Z.shiftr (Z.land (dpid i) 0xff00) 8 in
  let lo := Z.land (dpid i) 0xff in
  ("10.0." ++ pct_d mid ++ "." ++ pct_d lo)%string.

(** [mac_str]. *)
Definition mac_str (i : JellyfishNodeID) : string :=
  let mid := Z.shiftr (Z.land (dpid i) 0xff00) 8 in
  let lo := Z.land (dpid i) 0xff in
  ("00:00:00:00:" ++ pct_02x mid ++ ":" ++ pct_02x lo)%string.

(** [c] occurs in [s]. *)
Fixpoint has_char (c : ascii) (s : string) : bool :=
  match s with
  | EmptyString => false
  | String a r => Ascii.eqb a c || has_char c r
  end.

(** [P] holds of every value of a byte. *)
Definition all_bytes (P : Z -> bool) : bool :=
  forallb (fun k => P (Z.of_nat k)) (seq 0 256).

(** *** The layout of host attachment *)

(** How many of the [nodes] hosts get a link: those up to the last host
    whose number less one is a multiple of [hps]. *)
Definition linked_hosts (nodes hps : Z) : Z :=
  if nodes <=? 0 then 0 else nodes - (nodes - 1) mod hps.

(** The number of the switch that host number [m] is linked to. *)
Definition cluster_of (hps m : Z) : Z := (m + hps - 2) / hps + 1.

(** The edge record of host number [m]. *)
Definition host_link (bw hps m : Z) : EdgeRecord :=
  (host_name m, switch_name (cluster_of hps m), bw).

(** The state of the first loop of [addHosts] after [k] hosts. *)
Definition attached_upto (bw hps k : Z) (st : AttachState) : Prop :=
  0 <= k
  /\ switch_num st = 1 + (k + hps - 1) / hps
  /\ host_list st
     = map host_name (py_range (linked_hosts k hps + 1) (k + 1))
  /\ topo_links (att_topo st)
     = map (host_link bw hps) (py_range 1 (linked_hosts k hps + 1))
  /\ addHost_calls (att_topo st) = map host_name (py_range 1 (k + 1)).

(** *** What the two loops keep *)

(** The test of the repair loop that lets a switch be. *)
Definition settled (ports : Z) (sl : list string) (links : list link)
  (s : string) : Prop :=
  switch_is_fully_connected s links sl = true
  \/ ports - 1 <= count_links_with_switch s links.

(** What the pairing loop keeps from an initial candidate list [vs]: a
    simple graph on [vs], candidates without repetition, and every switch
    that is no more a candidate on exactly [ports] links, unless no
    candidate is left. *)
Definition pairing_inv (ports : Z) (vs sl : list string) (links : list link)
  : Prop :=
  has_duplicate_pair links = false
  /\ links_within vs links
  /\ NoDup sl /\ incl sl vs
  /\ (sl = []
      \/ forall s, In s vs -> ~ In s sl ->
                   count_links_with_switch s links = ports).

(** The sum of [count_links_with_switch] over the switches [vs]. *)
Definition total_degree (vs : list string) (links : list link) : Z :=
  fold_right Z.add 0 (map (fun s => count_links_with_switch s links) vs).

(** *** StructuredTopo *)

Definition PORT_BASE : Z := 1.

(** [layer(name)]: the [layer] option of the latest call for [name];
    [None] stands for the [KeyError] on a name that was never added. *)
Definition layer (t : Topo) (name : string) : option Z :=
  match find (fun r => String.eqb (node_name r) name) (rev (topo_nodes t)) with
  | Some r => Some (opt_layer (node_opts r))
  | None => None
  end.

(** [isPortUp(port)]. *)
Definition isPortUp (port : Z) : bool := port mod 2 =? PORT_BASE.

(** [layer_nodes(layer)], the names in order of first insertion. *)
Definition layer_nodes (t : Topo) (l : Z) : list string :=
  filter (fun n => match layer t n with
                   | Some k => k =? l
                   | None => false
                   end)
         (distinct_names [] (topo_nodes t)).

(** A record as [addHosts] makes them: host number [m] of the [nodes]
    hosts, or a switch. *)
Definition built_record (nodes : Z) (r : NodeRecord) : Prop :=
  (exists m, 1 <= m <= nodes
             /\ r = mkNodeRecord (host_name m) false (host_opts m))
  \/ (exists j, r = mkNodeRecord (switch_name j) true (edge_opts j)).

(** *** Running the construction on concrete inputs *)

(** Runs [c] and records its result as [H]. *)
Ltac run_as H c :=
  let r := eval vm_compute in c in
  assert (H : c = r) by reflexivity.

(** * Properties *)

(** ** The monad *)

Lemma bind_Ret_inv {A B : Type} (c : comp A) (k : A -> comp B) (b : B) :
  bind c k = Ret b -> exists a, c = Ret a /\ k a = Ret b.
Proof.
  destruct c as [a| |]; simpl; intros H; try discriminate.
  exists a; auto.
Qed.

Lemma bind_Raise_inv {A B : Type} (c : comp A) (k : A -> comp B) (e : exn) :
  bind c k = Raise e -> c = Raise e \/ exists a, c = Ret a /\ k a = Raise e.
Proof.
  destruct c as [a| |]; simpl; intros H; try discriminate.
  - right; exists a; auto.
  - left; congruence.
Qed.

(** ** Decimal strings: [int] reads back what ["%d"] prints *)

Lemma rstrip_no_space (s : string) : no_space s = true -> rstrip s = s.
Proof.
  induction s as [|c r IH]; simpl; auto.
  intros H. apply andb_true_iff in H as [Hc Hr].
  rewrite (IH Hr). destruct r; auto.
  apply negb_true_iff in Hc. now rewrite Hc.
Qed.

Lemma digit_string_no_space (s : string) (u : Decimal.uint) :
  NilEmpty.uint_of_string s = Some u -> no_space s = true.
Proof.
  revert u. induction s as [|c r IH]; simpl; auto.
  intros u H. destruct (NilEmpty.uint_of_string r) as [d|] eqn:Hr.
  - rewrite (IH d eq_refl), andb_true_r.
    apply uint_of_char_spec in H.
    repeat (destruct H as [[-> _]|H]; [reflexivity|]).
    destruct H as [-> _]; reflexivity.
  - discriminate.
Qed.

Lemma py_int_digits (s : string) (u : Decimal.uint) :
  NilZero.uint_of_string s = Some u -> py_int s = Ret (Z.of_uint u).
Proof.
  intros H. destruct s as [|c r]; [discriminate|].
  assert (Hns : no_space (String c r) = true)
    by (eapply digit_string_no_space; exact H).
  unfold py_int.
  assert (Hl : lstrip (String c r) = String c r).
  { simpl in Hns |- *. apply andb_true_iff in Hns as [Hc _].
    apply negb_true_iff in Hc. now rewrite Hc. }
  rewrite Hl, (rstrip_no_space _ Hns).
  assert (Hd : digits_value (String c r) = Ret (Z.of_uint u))
    by (unfold digits_value; now rewrite H).
  simpl in H. destruct (NilEmpty.uint_of_string r) as [d|]; [|discriminate].
  apply uint_of_char_spec in H.
  repeat (destruct H as [[-> _]|H]; [exact Hd|]).
  destruct H as [-> _]; exact Hd.
Qed.

Lemma py_int_minus_digits (s : string) (u : Decimal.uint) :
  NilZero.uint_of_string s = Some u ->
  py_int (String "-" s) = Ret (- Z.of_uint u).
Proof.
  intros H. destruct s as [|c r]; [discriminate|].
  assert (Hns : no_space (String c r) = true)
    by (eapply digit_string_no_space; exact H).
  unfold py_int.
  change (lstrip (String "-" (String c r))) with (String "-" (String c r)).
  rewrite (rstrip_no_space (String "-" (String c r))) by exact Hns.
  assert (Hl : lstrip (String c r) = String c r).
  { simpl in Hns |- *. apply andb_true_iff in Hns as [Hc _].
    apply negb_true_iff in Hc. now rewrite Hc. }
  rewrite Hl. unfold digits_value. rewrite H. reflexivity.
Qed.

Lemma py_int_pct_d (z : Z) : py_int (pct_d z) = Ret z.
Proof.
  destruct z as [|p|p]; [reflexivity| |]; unfold pct_d; simpl.
  - rewrite (py_int_digits _ (Pos.to_uint p)).
    + unfold Z.of_uint. now rewrite DecimalPos.Unsigned.of_to.
    + apply NilZero.usu, DecimalPos.Unsigned.to_uint_nonnil.
  - rewrite (py_int_minus_digits _ (Pos.to_uint p)).
    + unfold Z.of_uint. now rewrite DecimalPos.Unsigned.of_to.
    + apply NilZero.usu, DecimalPos.Unsigned.to_uint_nonnil.
Qed.

Lemma pct_d_inj (a b : Z) : pct_d a = pct_d b -> a = b.
Proof.
  intros H. pose proof (py_int_pct_d a) as Ha. rewrite H, py_int_pct_d in Ha.
  congruence.
Qed.

Lemma id_of_name_name_str_host (n : Z) :
  id_of_name (name_str (id_of_indices n n)) = Ret (id_of_indices n n).
Proof.
  unfold name_str, id_of_indices; simpl.
  destruct (n =? 255) eqn:E; simpl; rewrite py_int_pct_d; simpl.
  - apply Z.eqb_eq in E; subst; reflexivity.
  - reflexivity.
Qed.

Lemma id_of_name_name_str_switch (n : Z) :
  id_of_name (name_str (id_of_indices n 255)) = Ret (id_of_indices n 255).
Proof.
  unfold name_str, id_of_indices; simpl. now rewrite py_int_pct_d.
Qed.

Lemma py_int_total (s : string) :
  (exists z, py_int s = Ret z) \/ py_int s = Raise ValueError.
Proof.
  assert (D : forall t, (exists z, digits_value t = Ret z)
                        \/ digits_value t = Raise ValueError).
  { intros t. unfold digits_value.
    destruct (NilZero.uint_of_string t); eauto. }
  assert (N : forall t, (exists z, (n <- digits_value t ;; Ret (- n)) = Ret z)
                        \/ (n <- digits_value t ;; Ret (- n)) = Raise ValueError).
  { intros t. destruct (D t) as [[z ->]| ->]; simpl; eauto. }
  unfold py_int. destruct (rstrip (lstrip s)) as [|c r]; [apply D|].
  destruct c as [[|] [|] [|] [|] [|] [|] [|] [|]]; first [apply D | apply N].
Qed.

(** ** The integer literals of [int] *)

Lemma string_app_assoc (x y z : string) :
  ((x ++ y) ++ z = x ++ (y ++ z))%string.
Proof. induction x as [|c x IH]; simpl; [reflexivity|now rewrite IH]. Qed.

Lemma string_app_nil_r (x : string) : (x ++ "" = x)%string.
Proof. induction x as [|c x IH]; simpl; [reflexivity|now rewrite IH]. Qed.

Lemma lstrip_all_space (a s : string) :
  all_space a = true -> lstrip (a ++ s) = lstrip s.
Proof.
  induction a as [|c a IH]; simpl; [reflexivity|].
  intros H. apply andb_true_iff in H as [Hc Ha]. rewrite Hc. now apply IH.
Qed.

Lemma lstrip_split (s : string) :
  exists a, all_space a = true /\ s = (a ++ lstrip s)%string.
Proof.
  induction s as [|c r (a & Ha & E)]; [exists EmptyString; auto|].
  simpl. destruct (is_space c) eqn:Hc.
  - exists (String c a). simpl. rewrite Hc, Ha. split; [reflexivity|].
    now rewrite <- E.
  - exists EmptyString. auto.
Qed.

Lemma rstrip_all_space (e : string) :
  all_space e = true -> rstrip e = EmptyString.
Proof.
  induction e as [|c e IH]; simpl; [reflexivity|].
  intros H. apply andb_true_iff in H as [Hc He]. now rewrite (IH He), Hc.
Qed.

Lemma rstrip_app_space (s e : string) :
  all_space e = true -> rstrip (s ++ e) = rstrip s.
Proof.
  intros He. induction s as [|c s IH]; simpl.
  - now apply rstrip_all_space.
  - now rewrite IH.
Qed.

Lemma rstrip_app_keep (x d : string) :
  d <> EmptyString -> rstrip d = d -> rstrip (x ++ d)%string = (x ++ d)%string.
Proof.
  intros Hd E. induction x as [|c x IH]; simpl; [exact E|].
  rewrite IH. destruct (x ++ d)%string eqn:K; [|reflexivity].
  destruct x; simpl in K; [contradiction|discriminate].
Qed.

Lemma rstrip_split (t : string) :
  exists e, all_space e = true /\ t = (rstrip t ++ e)%string.
Proof.
  induction t as [|c r (e & He & E)]; [exists EmptyString; auto|].
  simpl. destruct (rstrip r) as [|c' r'] eqn:K.
  - simpl in E. subst r. destruct (is_space c) eqn:Hc.
    + exists (String c e). simpl. now rewrite Hc, He.
    + exists e. auto.
  - exists e. split; [exact He|]. simpl. f_equal. exact E.
Qed.

(** A string of digits is not empty and starts with a digit. *)
Lemma digit_string_head (d : string) (u : Decimal.uint) :
  NilZero.uint_of_string d = Some u ->
  exists c r, d = String c r /\ c <> "-"%char /\ c <> "+"%char
              /\ is_space c = false /\ no_space d = true.
Proof.
  intros H. destruct d as [|c r]; [discriminate|].
  assert (Hns : no_space (String c r) = true)
    by (eapply digit_string_no_space; exact H).
  exists c, r. split; [reflexivity|].
  simpl in H. destruct (NilEmpty.uint_of_string r) as [v|]; [|discriminate].
  apply uint_of_char_spec in H.
  repeat (destruct H as [[-> _]|H];
          [repeat split; try discriminate; exact Hns|]).
  destruct H as [-> _]. repeat split; try discriminate; exact Hns.
Qed.

(** What [int] does once the white space around its argument is gone. *)
Lemma py_int_stripped (s : string) (c : ascii) (r : string) :
  rstrip (lstrip s) = String c r ->
  (c = "-"%char -> py_int s = (n <- digits_value (lstrip r) ;; Ret (- n)))
  /\ (c = "+"%char -> py_int s = digits_value (lstrip r))
  /\ (c <> "-"%char -> c <> "+"%char -> py_int s = digits_value (String c r)).
Proof.
  intros E. unfold py_int. rewrite E.
  split; [intros ->; reflexivity|]. split; [intros ->; reflexivity|].
  intros N1 N2.
  destruct c as [[|] [|] [|] [|] [|] [|] [|] [|]]; try reflexivity;
    exfalso; first [now apply N1 | now apply N2].
Qed.

Lemma digits_value_Ret (d : string) (n : Z) :
  digits_value d = Ret n <->
  exists u, NilZero.uint_of_string d = Some u /\ n = Z.of_uint u.
Proof.
  unfold digits_value. destruct (NilZero.uint_of_string d) as [u|]; split.
  - intros H. injection H as <-. eauto.
  - intros (v & E & ->). injection E as <-. reflexivity.
  - discriminate.
  - intros (v & E & _). discriminate.
Qed.

(** [int] reads the integer literals, and nothing else. *)
Lemma py_int_literal (s : string) (n : Z) :
  py_int s = Ret n <-> int_literal s n.
Proof.
  split.
  - intros H.
    destruct (lstrip_split s) as (a & Ha & Es).
    destruct (rstrip_split (lstrip s)) as (e & He & Et).
    destruct (rstrip (lstrip s)) as [|c r] eqn:T.
    { unfold py_int in H. rewrite T in H. discriminate. }
    destruct (py_int_stripped s c r T) as (Hm & Hp & Hd).
    destruct (ascii_dec c "-") as [->|Nm]; [|destruct (ascii_dec c "+") as [->|Np]].
    + rewrite (Hm eq_refl) in H.
      apply bind_Ret_inv in H as (m & Hv & E). injection E as <-.
      apply digits_value_Ret in Hv as (u & Hu & ->).
      destruct (lstrip_split r) as (b & Hb & Er).
      exists a, (String "-" EmptyString), b, (lstrip r), e, u.
      split.
      { rewrite Es at 1. rewrite Et. simpl. rewrite Er at 1.
        now rewrite string_app_assoc. }
      auto 10.
    + rewrite (Hp eq_refl) in H.
      apply digits_value_Ret in H as (u & Hu & ->).
      destruct (lstrip_split r) as (b & Hb & Er).
      exists a, (String "+" EmptyString), b, (lstrip r), e, u.
      split.
      { rewrite Es at 1. rewrite Et. simpl. rewrite Er at 1.
        now rewrite string_app_assoc. }
      auto 10.
    + rewrite (Hd Nm Np) in H.
      apply digits_value_Ret in H as (u & Hu & ->).
      exists a, EmptyString, EmptyString, (String c r), e, u.
      split; [rewrite Es at 1; now rewrite Et|]. auto 10.
  - intros (a & sg & b & d & e & u & -> & Ha & Hb & He & Hu & Hs).
    destruct (digit_string_head d u Hu) as (c & r & -> & Nm & Np & Hc & Hns).
    assert (Hld : lstrip (String c r) = String c r) by (simpl; now rewrite Hc).
    assert (Hv : digits_value (String c r) = Ret (Z.of_uint u)).
    { apply digits_value_Ret. eauto. }
    destruct Hs as [(-> & -> & ->)|[(-> & ->)|(-> & ->)]].
    + assert (T : rstrip (lstrip (a ++ "" ++ "" ++ String c r ++ e))
                  = String c r).
      { rewrite lstrip_all_space by exact Ha. simpl. rewrite Hc.
        change (String c (r ++ e)) with (String c r ++ e)%string.
        rewrite rstrip_app_space by exact He. now apply rstrip_no_space. }
      destruct (py_int_stripped _ c r T) as (_ & _ & Hd).
      now rewrite (Hd Nm Np).
    + assert (T : rstrip (lstrip (a ++ "+" ++ b ++ String c r ++ e))
                  = String "+" (b ++ String c r)).
      { rewrite lstrip_all_space by exact Ha.
        change (lstrip ("+" ++ b ++ String c r ++ e))
          with (String "+" (b ++ String c r ++ e)).
        rewrite <- string_app_assoc.
        change (String "+" ((b ++ String c r) ++ e))
          with (String "+" (b ++ String c r) ++ e)%string.
        rewrite rstrip_app_space by exact He.
        apply (rstrip_app_keep (String "+" b) (String c r)); [discriminate|].
        now apply rstrip_no_space. }
      destruct (py_int_stripped _ _ _ T) as (_ & Hp & _).
      rewrite (Hp eq_refl), lstrip_all_space, Hld by exact Hb. exact Hv.
    + assert (T : rstrip (lstrip (a ++ "-" ++ b ++ String c r ++ e))
                  = String "-" (b ++ String c r)).
      { rewrite lstrip_all_space by exact Ha.
        change (lstrip ("-" ++ b ++ String c r ++ e))
          with (String "-" (b ++ String c r ++ e)).
        rewrite <- string_app_assoc.
        change (String "-" ((b ++ String c r) ++ e))
          with (String "-" (b ++ String c r) ++ e)%string.
        rewrite rstrip_app_space by exact He.
        apply (rstrip_app_keep (String "-" b) (String c r)); [discriminate|].
        now apply rstrip_no_space. }
      destruct (py_int_stripped _ _ _ T) as (Hm & _ & _).
      rewrite (Hm eq_refl), lstrip_all_space, Hld, Hv by exact Hb. reflexivity.
Qed.

(** ** C8: what the constructor by name accepts and rejects *)

(** C8, as the code has it.  The constructor by name has no error of its
    own: the empty name fails with IndexError, a first letter other than
    'h' and 's' fails with AttributeError, and a remainder that [int]
    rejects fails with ValueError; it succeeds exactly when the letter is
    'h' or 's' and [int] reads the remainder, whatever the sign of the
    number read.  [int] reads exactly the integer literals: white space,
    an optional sign that white space may follow, one or more decimal
    digits, white space; on any other string it raises ValueError.  For
    every integer n, negative ones included, the name h<n> gives switch and
    host index n, and s<n> gives switch index n and host index 255. *)
Theorem id_of_name_outcomes :
  id_of_name EmptyString = Raise IndexError
  /\ (forall c rest, c <> "h"%char -> c <> "s"%char ->
        id_of_name (String c rest) = Raise AttributeError)
  /\ (forall c rest, c = "h"%char \/ c = "s"%char ->
        py_int rest = Raise ValueError ->
        id_of_name (String c rest) = Raise ValueError)
  /\ (forall c rest i, id_of_name (String c rest) = Ret i ->
        (c = "h"%char /\ host_id i = switch_id i
         \/ c = "s"%char /\ host_id i = 255)
        /\ py_int rest = Ret (switch_id i)
        /\ dpid i = Z.shiftl (switch_id i) 8 + host_id i)
  /\ (forall n, id_of_name (String "h" (pct_d n)) = Ret (id_of_indices n n))
  /\ (forall n, id_of_name (String "s" (pct_d n)) = Ret (id_of_indices n 255))
  /\ (forall c rest i,
        id_of_name (String c rest) = Ret i
        <-> exists n, py_int rest = Ret n
                      /\ (c = "h"%char /\ i = id_of_indices n n
                          \/ c = "s"%char /\ i = id_of_indices n 255))
  /\ (forall s n, py_int s = Ret n <-> int_literal s n)
  /\ (forall s, (exists n, py_int s = Ret n) \/ py_int s = Raise ValueError).
Proof.
  split; [reflexivity|].
  split.
  { intros c rest Hh Hs. simpl.
    destruct (Ascii.eqb_spec c "h"); [contradiction|].
    destruct (Ascii.eqb_spec c "s"); [contradiction|reflexivity]. }
  split.
  { intros c rest [->| ->] H; simpl; rewrite H; reflexivity. }
  split.
  { intros c rest i H. simpl in H.
    destruct (Ascii.eqb_spec c "h") as [->|Hh].
    - destruct (py_int rest) as [z| |]; simpl in H; try discriminate.
      injection H as <-; simpl; auto.
    - destruct (Ascii.eqb_spec c "s") as [->|Hs]; [|discriminate].
      destruct (py_int rest) as [z| |]; simpl in H; try discriminate.
      injection H as <-; simpl; auto. }
  split; [intros n; simpl; rewrite py_int_pct_d; reflexivity|].
  split; [intros n; simpl; rewrite py_int_pct_d; reflexivity|].
  split; [|split; [exact py_int_literal|exact py_int_total]].
  intros c rest i. simpl. split.
  - intros H. destruct (Ascii.eqb_spec c "h") as [->|Hh].
    + destruct (py_int rest) as [z| |]; simpl in H; try discriminate.
      injection H as <-. exists z. split; [reflexivity|]. left. now split.
    + destruct (Ascii.eqb_spec c "s") as [->|Hs]; [|discriminate].
      destruct (py_int rest) as [z| |]; simpl in H; try discriminate.
      injection H as <-. exists z. split; [reflexivity|]. right. now split.
  - intros (n & Hn & [[-> ->]|[-> ->]]); simpl; rewrite Hn; reflexivity.
Qed.

(** C8, counterexample: the remainder "-1" is not a non-negative integer,
    yet the name "s-1" is accepted and yields switch index -1. *)
Lemma id_of_name_accepts_negative :
  id_of_name "s-1" = Ret (mkNodeID (-1) 255 (-1)).
Proof. reflexivity. Qed.

(** C8 on names: an unknown letter, a remainder that is no number, a
    negative index, leading zeros, a plus sign, and white space after the
    sign. *)
Lemma id_of_name_outcomes_witness :
  id_of_name "x1" = Raise AttributeError
  /\ id_of_name "h1x" = Raise ValueError
  /\ id_of_name "h-7" = Ret (id_of_indices (-7) (-7))
  /\ id_of_name "h007" = Ret (id_of_indices 7 7)
  /\ id_of_name "s+12" = Ret (id_of_indices 12 255)
  /\ id_of_name "s- 1" = Ret (id_of_indices (-1) 255).
Proof.
  destruct id_of_name_outcomes as (_ & H1 & H2 & _ & H3 & _ & H4 & _).
  split; [|split; [|split; [|split; [|split]]]].
  - apply H1; intros E; discriminate E.
  - apply H2; [now left|vm_compute; reflexivity].
  - apply (H3 (-7)).
  - apply (H4 "h"%char "007"%string (id_of_indices 7 7)). exists 7.
    split; [vm_compute; reflexivity|]. left. now split.
  - apply (H4 "s"%char "+12"%string (id_of_indices 12 255)). exists 12.
    split; [vm_compute; reflexivity|]. right. now split.
  - apply (H4 "s"%char "- 1"%string (id_of_indices (-1) 255)). exists (-1).
    split; [vm_compute; reflexivity|]. right. now split.
Defined.

(** ** Loops *)

Lemma for_each_app {S A : Type} (body : S -> A -> comp S) (xs ys : list A)
  (s : S) :
  for_each body (xs ++ ys) s
  = (s' <- for_each body xs s ;; for_each body ys s').
Proof.
  revert s. induction xs as [|x xs IH]; intros s; simpl; auto.
  destruct (body s x); simpl; auto.
Qed.

Lemma for_each_inv {S A : Type} (I : S -> Prop) (body : S -> A -> comp S)
  (xs : list A) :
  (forall s x s', In x xs -> I s -> body s x = Ret s' -> I s') ->
  forall s s', I s -> for_each body xs s = Ret s' -> I s'.
Proof.
  induction xs as [|x xs IH]; intros Hb s s' Hs H; simpl in H.
  - congruence.
  - apply bind_Ret_inv in H as (s1 & H1 & H2).
    eapply IH; [| |exact H2].
    + intros; eapply Hb; eauto; now right.
    + eapply Hb; eauto; now left.
Qed.

Lemma py_range_snoc (a b : Z) :
  a <= b -> py_range a (b + 1) = py_range a b ++ [b].
Proof.
  intros H. unfold py_range.
  replace (Z.to_nat (b + 1 - a)) with (S (Z.to_nat (b - a))) by lia.
  rewrite seq_S, map_app. simpl. do 2 f_equal. lia.
Qed.

Lemma in_py_range (a b x : Z) : In x (py_range a b) <-> a <= x < b.
Proof.
  unfold py_range. rewrite in_map_iff. split.
  - intros (i & <- & Hi). apply in_seq in Hi. lia.
  - intros H. exists (Z.to_nat (x - a)). split; [lia|].
    apply in_seq. lia.
Qed.

(** ** addHosts: the nodes it creates *)

Lemma topo_nodes_add_links (bw : Z) (sw : string) (hl : list string) (t : Topo) :
  topo_nodes (fold_left (fun t host => addLink host sw bw t) hl t)
  = topo_nodes t.
Proof.
  revert t. induction hl as [|h hl IH]; intros t; simpl; auto.
  now rewrite IH.
Qed.

Lemma def_nopts_name_str (layer : Z) (i : JellyfishNodeID) :
  id_of_name (name_str i) = Ret i ->
  def_nopts layer (name_str i)
  = Ret (mkNodeOpts layer
           (if layer =? LAYER_HOST then Some (addr_bytes i) else None)
           (Some (dpid i))).
Proof.
  intros H. unfold def_nopts.
  destruct (name_str i) eqn:E.
  - unfold name_str in E. destruct (host_id i =? 255); discriminate.
  - rewrite H. reflexivity.
Qed.

Lemma attach_host_nodes (bw hps : Z) (st st' : AttachState) (num : Z) :
  attach_host bw hps st num = Ret st' ->
  exists extra,
    topo_nodes (att_topo st') = topo_nodes (att_topo st) ++ extra
    /\ Forall (fun r => exists i, made_from r i) extra.
Proof.
  unfold attach_host. intros H. cbv zeta in H.
  rewrite (def_nopts_name_str _ _ (id_of_name_name_str_host (num + 1))) in H.
  cbn [bind] in H. apply bind_Ret_inv in H as (r & _ & H).
  destruct (r =? 0).
  - rewrite (def_nopts_name_str _ _ (id_of_name_name_str_switch _)) in H.
    cbn [bind] in H. injection H as <-. cbn [att_topo].
    rewrite topo_nodes_add_links. simpl. rewrite <- app_assoc.
    eexists; split; [reflexivity|].
    apply Forall_cons; [|apply Forall_cons; [|apply Forall_nil]].
    + exists (id_of_indices (num + 1) (num + 1)).
      split; [exists (num + 1); auto|split; reflexivity].
    + exists (id_of_indices (switch_num st) 255).
      split; [exists (switch_num st); auto|split; reflexivity].
  - injection H as <-. simpl.
    eexists; split; [reflexivity|].
    apply Forall_cons; [|apply Forall_nil].
    exists (id_of_indices (num + 1) (num + 1)).
    split; [exists (num + 1); auto|split; reflexivity].
Qed.

Lemma add_filler_nodes (t t' : Topo) (num : Z) :
  add_filler t num = Ret t' ->
  exists r,
    topo_nodes t' = topo_nodes t ++ [r]
    /\ made_from r (id_of_indices (num + 1) 255)
    /\ node_isSwitch r = true
    /\ topo_links t' = topo_links t.
Proof.
  unfold add_filler. intros H. cbv zeta in H.
  rewrite (def_nopts_name_str _ _ (id_of_name_name_str_switch _)) in H.
  cbn [bind] in H. injection H as <-. simpl.
  eexists; split; [reflexivity|].
  split; [|split; reflexivity].
  split; [eexists; eauto|split; reflexivity].
Qed.

Lemma addHosts_nodes_made (bw nswitches nodes ports hps : Z) (t : Topo) :
  addHosts bw nswitches nodes ports hps empty_topo = Ret t ->
  Forall (fun r => exists i, made_from r i) (topo_nodes t).
Proof.
  unfold addHosts, addHosts_clusters, addHosts_fillers. intros H.
  apply bind_Ret_inv in H as (t1 & H1 & H2).
  apply bind_Ret_inv in H1 as (st & H1 & E). injection E as <-.
  apply bind_Ret_inv in H2 as (start & _ & H2).
  assert (I1 : Forall (fun r => exists i, made_from r i)
                 (topo_nodes (att_topo st))).
  { revert H1.
    apply (for_each_inv
             (fun s => Forall (fun r => exists i, made_from r i)
                         (topo_nodes (att_topo s)))); [|constructor].
    intros s x s' _ Hs Hb.
    apply attach_host_nodes in Hb as (extra & -> & He).
    apply Forall_app; auto. }
  revert H2.
  apply (for_each_inv
           (fun t => Forall (fun r => exists i, made_from r i) (topo_nodes t)));
    [|exact I1].
  intros s x s' _ Hs Hb.
  apply add_filler_nodes in Hb as (r & -> & Hr & _).
  apply Forall_app; split; auto. constructor; eauto.
Qed.

Lemma dpid_bytes (sw h : Z) :
  0 <= sw < 256 -> 0 <= h < 256 ->
  Z.shiftr (Z.land (Z.shiftl sw 8 + h) 0xff00) 8 = sw
  /\ Z.land (Z.shiftl sw 8 + h) 0xff = h.
Proof.
  intros Hsw Hh.
  assert (E : Z.shiftl sw 8 + h = sw * 256 + h)
    by (rewrite Z.shiftl_mul_pow2 by lia; reflexivity).
  rewrite E.
  assert (L : Z.land (sw * 256 + h) 255 = h).
  { change 255 with (Z.ones 8). rewrite Z.land_ones by lia.
    change (2 ^ 8) with 256. rewrite Z.add_comm, Z_mod_plus_full.
    apply Z.mod_small; lia. }
  assert (Hm : Z.shiftr (Z.land (sw * 256 + h) 65280) 8 = sw).
  { apply Z.bits_inj'. intros k Hk.
    rewrite Z.shiftr_spec, Z.land_spec by lia.
    assert (T : Z.testbit (sw * 256 + h) (k + 8) = Z.testbit sw k).
    { replace (sw * 256 + h) with (h + sw * 2 ^ 8)
        by (change (2 ^ 8) with 256; lia).
      rewrite <- (Z.shiftr_spec _ 8 k) by lia.
      rewrite Z.shiftr_div_pow2 by lia.
      rewrite Z.div_add by (change (2^8) with 256; lia).
      rewrite (Z.div_small h) by (change (2^8) with 256; lia). reflexivity. }
    rewrite T.
    destruct (Z.ltb_spec k 8).
    - assert (C : Z.testbit 65280 (k + 8) = true).
      { assert (Hc : k = 0 \/ k = 1 \/ k = 2 \/ k = 3 \/ k = 4 \/ k = 5
                     \/ k = 6 \/ k = 7) by lia.
        repeat (destruct Hc as [->|Hc]; [reflexivity|]). subst; reflexivity. }
      rewrite C. apply andb_true_r.
    - assert (Z.testbit sw k = false) as ->.
      { apply (Z.bits_above_log2 sw k); [lia|].
        destruct (Z.eq_dec sw 0) as [->|]; [simpl; lia|].
        apply Z.log2_lt_pow2; [lia|].
        apply Z.lt_le_trans with (2 ^ 8); [change (2^8) with 256; lia|].
        apply Z.pow_le_mono_r; lia. }
      reflexivity. }
  split; assumption.
Qed.

(** ** C9: identifier round trip *)

(** C9.  Every node of the graph that host attachment builds was named
    after an identity made by indices, (n, n) for a host and (n, 255) for a
    switch; reading that name back with the constructor by name gives the
    same identity, switch index, host index and composite id alike, and it
    is the composite id of that identity that the node carries.  And for
    every identity whose two indices fit in a byte, decoding its composite
    id gives the identity back. *)
Theorem identifier_round_trip :
  (forall bw nswitches nodes ports hps t,
      addHosts bw nswitches nodes ports hps empty_topo = Ret t ->
      forall r, In r (topo_nodes t) ->
        exists i, made_from r i /\ id_of_name (name_str i) = Ret i)
  /\ (forall n, id_of_name (name_str (id_of_indices n n))
                = Ret (id_of_indices n n))
  /\ (forall n, id_of_name (name_str (id_of_indices n 255))
                = Ret (id_of_indices n 255))
  /\ (forall sw h, 0 <= sw < 256 -> 0 <= h < 256 ->
        id_of_dpid (dpid (id_of_indices sw h)) = id_of_indices sw h).
Proof.
  split.
  { intros bw nswitches nodes ports hps t H r Hr.
    pose proof (addHosts_nodes_made _ _ _ _ _ _ H) as F.
    rewrite Forall_forall in F. destruct (F r Hr) as (i & Hi).
    exists i; split; auto.
    destruct Hi as ((n & [-> | ->]) & _).
    - apply id_of_name_name_str_host.
    - apply id_of_name_name_str_switch. }
  split; [exact id_of_name_name_str_host|].
  split; [exact id_of_name_name_str_switch|].
  intros sw h Hsw Hh. unfold id_of_dpid, id_of_indices; cbn [dpid].
  destruct (dpid_bytes sw h Hsw Hh) as [Hm L].
  rewrite L, Hm. reflexivity.
Qed.

(** C9 on the nodes of 3 switches with one host each, and on the composite
    id of switch 3. *)
Lemma identifier_round_trip_witness :
  exists t,
    addHosts 40 3 3 4 1 empty_topo = Ret t
    /\ (forall r, In r (topo_nodes t) ->
          exists i, made_from r i /\ id_of_name (name_str i) = Ret i)
    /\ id_of_dpid (dpid (id_of_indices 3 255)) = id_of_indices 3 255.
Proof.
  eexists. split; [vm_compute; reflexivity|]. split.
  - apply (proj1 identifier_round_trip 40 3 3 4 1). vm_compute. reflexivity.
  - apply (proj2 (proj2 (proj2 identifier_round_trip))); lia.
Defined.

(** ** addHosts, loop by loop *)

Lemma switch_name_eq (n : Z) : switch_name n = String "s" (pct_d n).
Proof. reflexivity. Qed.

Lemma switch_name_inj (a b : Z) : switch_name a = switch_name b -> a = b.
Proof.
  rewrite !switch_name_eq. intros H. injection H as H. now apply pct_d_inj.
Qed.

Lemma host_name_inj (a b : Z) : host_name a = host_name b -> a = b.
Proof.
  unfold host_name, name_str, id_of_indices; simpl.
  destruct (Z.eqb_spec a 255), (Z.eqb_spec b 255); intros H; try congruence;
    try discriminate.
  injection H as H. now apply pct_d_inj.
Qed.

Lemma host_name_switch_name (a b : Z) : host_name a = switch_name b -> a = 255.
Proof.
  unfold host_name, name_str, id_of_indices; simpl.
  destruct (Z.eqb_spec a 255); intros H; [assumption|discriminate].
Qed.

Lemma attach_host_eq (bw hps : Z) (st : AttachState) (num : Z) :
  hps <> 0 ->
  attach_host bw hps st num
  = Ret (let t := addHost (host_name (num + 1)) (host_opts (num + 1))
                    (att_topo st) in
         let hl := host_list st ++ [host_name (num + 1)] in
         if num mod hps =? 0 then
           mkAttachState (switch_num st + 1) []
             (fold_left
                (fun t host => addLink host (switch_name (switch_num st)) bw t)
                hl
                (addSwitch (switch_name (switch_num st))
                   (edge_opts (switch_num st)) t))
         else mkAttachState (switch_num st) hl t).
Proof.
  intros Hh. unfold attach_host. cbv zeta.
  rewrite (def_nopts_name_str _ _ (id_of_name_name_str_host (num + 1))).
  cbn [bind]. unfold py_mod.
  destruct (Z.eqb_spec hps 0); [contradiction|]. cbn [bind].
  destruct (num mod hps =? 0); [|reflexivity].
  rewrite (def_nopts_name_str _ _ (id_of_name_name_str_switch _)).
  reflexivity.
Qed.

Lemma add_filler_eq (t : Topo) (num : Z) :
  add_filler t num
  = Ret (addSwitch (switch_name (num + 1)) (edge_opts (num + 1)) t).
Proof.
  unfold add_filler. cbv zeta.
  rewrite (def_nopts_name_str _ _ (id_of_name_name_str_switch _)).
  reflexivity.
Qed.

Lemma clusters_total (bw hps : Z) (xs : list Z) (st : AttachState) :
  hps <> 0 ->
  exists st', for_each (attach_host bw hps) xs st = Ret st'.
Proof.
  intros Hh. revert st. induction xs as [|x xs IH]; intros st; simpl.
  - eauto.
  - rewrite attach_host_eq by assumption. cbn [bind]. apply IH.
Qed.

Lemma fillers_run (xs : list Z) (t : Topo) :
  for_each add_filler xs t
  = Ret (mkTopo
           (topo_nodes t
            ++ map (fun num => mkNodeRecord (switch_name (num + 1)) true
                                 (edge_opts (num + 1))) xs)
           (topo_links t)).
Proof.
  revert t. induction xs as [|x xs IH]; intros t; simpl.
  - rewrite app_nil_r. now destruct t.
  - rewrite add_filler_eq. cbn [bind]. rewrite IH. simpl.
    now rewrite <- app_assoc.
Qed.

(** An invariant indexed by the loop counter of [for num in range(0, n)]. *)
Lemma for_range_inv {St : Type} (I : Z -> St -> Prop) (body : St -> Z -> comp St)
  (n : Z) (s0 : St) :
  I 0 s0 ->
  (forall k s s', 0 <= k < n -> I k s -> body s k = Ret s' -> I (k + 1) s') ->
  forall s', for_each body (py_range 0 n) s0 = Ret s' -> I (Z.max 0 n) s'.
Proof.
  intros H0 Hstep.
  assert (G : forall m : nat, Z.of_nat m <= Z.max 0 n ->
              forall s', for_each body (py_range 0 (Z.of_nat m)) s0 = Ret s' ->
                         I (Z.of_nat m) s').
  { induction m as [|m IH]; intros Hm s' H.
    - simpl in H. injection H as <-. exact H0.
    - replace (Z.of_nat (S m)) with (Z.of_nat m + 1) in * by lia.
      rewrite py_range_snoc, for_each_app in H by lia.
      apply bind_Ret_inv in H as (s1 & H1 & H2).
      simpl in H2. apply bind_Ret_inv in H2 as (s2 & H2 & E).
      injection E as <-.
      eapply Hstep; [|apply IH|exact H2]; [lia|lia|exact H1]. }
  intros s' H.
  destruct (Z.le_gt_cases n 0) as [Hn|Hn].
  - replace (Z.max 0 n) with (Z.of_nat 0) by lia. apply G; [lia|].
    unfold py_range in *. replace (Z.to_nat (n - 0)) with O in H by lia.
    exact H.
  - replace (Z.max 0 n) with (Z.of_nat (Z.to_nat n)) by lia.
    apply G; [lia|]. now replace (Z.of_nat (Z.to_nat n)) with n by lia.
Qed.

Lemma addSwitch_calls_add_links (bw : Z) (sw : string) (hl : list string)
  (t : Topo) :
  addSwitch_calls (fold_left (fun t host => addLink host sw bw t) hl t)
  = addSwitch_calls t.
Proof. unfold addSwitch_calls. now rewrite topo_nodes_add_links. Qed.

Lemma addSwitch_calls_addSwitch (n : string) (o : NodeOpts) (t : Topo) :
  addSwitch_calls (addSwitch n o t) = addSwitch_calls t ++ [n].
Proof.
  unfold addSwitch_calls, addSwitch; simpl.
  now rewrite filter_app, map_app.
Qed.

Lemma addSwitch_calls_addHost (n : string) (o : NodeOpts) (t : Topo) :
  addSwitch_calls (addHost n o t) = addSwitch_calls t.
Proof.
  unfold addSwitch_calls, addHost; simpl.
  rewrite filter_app, map_app. simpl. apply app_nil_r.
Qed.

Lemma ceil_div_step (hps k : Z) :
  0 < hps -> 0 <= k ->
  (k + 1 + hps - 1) / hps
  = (k + hps - 1) / hps + (if k mod hps =? 0 then 1 else 0).
Proof.
  intros Hh Hk.
  pose proof (Z.div_mod k hps ltac:(lia)) as E.
  pose proof (Z.mod_pos_bound k hps Hh) as B.
  assert (A : forall r q, 0 <= r < hps -> (r + q * hps) / hps = q).
  { intros r q Hr. rewrite Z.div_add by lia. rewrite Z.div_small by lia. lia. }
  destruct (Z.eqb_spec (k mod hps) 0) as [Hr|Hr].
  - rewrite Hr in E.
    replace (k + 1 + hps - 1) with (0 + (k / hps + 1) * hps) by lia.
    replace (k + hps - 1) with ((hps - 1) + (k / hps) * hps) by lia.
    rewrite !A by lia. lia.
  - replace (k + 1 + hps - 1) with ((k mod hps) + (k / hps + 1) * hps) by lia.
    replace (k + hps - 1) with ((k mod hps - 1) + (k / hps + 1) * hps) by lia.
    rewrite !A by lia. lia.
Qed.

(** After the first [k] hosts the cluster loop has allocated the switches
    s1 .. s<ceil(k / hps)>, in this order, and nothing else as a switch. *)
Lemma clusters_switch_calls (bw nodes hps : Z) (st : AttachState) :
  0 < hps ->
  for_each (attach_host bw hps) (py_range 0 nodes) (mkAttachState 1 [] empty_topo)
  = Ret st ->
  switch_num st = 1 + (Z.max 0 nodes + hps - 1) / hps
  /\ addSwitch_calls (att_topo st)
     = map switch_name (py_range 1 (switch_num st)).
Proof.
  intros Hh.
  apply (for_range_inv
           (fun k s => 0 <= k
                       /\ switch_num s = 1 + (k + hps - 1) / hps
                       /\ addSwitch_calls (att_topo s)
                          = map switch_name (py_range 1 (switch_num s)))).
  - split; [lia|]. simpl. rewrite Z.div_small by lia. split; reflexivity.
  - intros k s s' Hk (Hk0 & Hn & Hc) Hb.
    rewrite attach_host_eq in Hb by lia. injection Hb as <-.
    split; [lia|].
    rewrite ceil_div_step by lia.
    assert (Hsn : 1 <= switch_num s).
    { rewrite Hn. pose proof (Z.div_pos (k + hps - 1) hps). lia. }
    destruct (k mod hps =? 0); cbn [switch_num att_topo].
    + split; [lia|].
      rewrite addSwitch_calls_add_links, addSwitch_calls_addSwitch,
        addSwitch_calls_addHost, Hc, py_range_snoc, map_app by lia.
      reflexivity.
    + split; [lia|]. now rewrite addSwitch_calls_addHost.
Qed.

Lemma in_twice_not_NoDup {A : Type} (x : A) (l1 l2 : list A) :
  In x l1 -> In x l2 -> ~ NoDup (l1 ++ l2).
Proof.
  intros H1 H2 N. revert H1. induction l1 as [|y l1 IH]; simpl; [tauto|].
  simpl in N. inversion N as [|? ? Hy N']; subst.
  intros [->|H1].
  - apply Hy, in_or_app; now right.
  - now apply IH.
Qed.

(** ** C10: the filler loop re-allocates a switch of the cluster loop *)

(** C10.  When hosts_per_switch (positive) does not divide the host count
    and more switches are requested than floor(hosts / hosts_per_switch),
    both loops of host attachment run to their end, the cluster loop has
    allocated a switch named s<floor(hosts / hosts_per_switch) + 1>, and the
    filler loop allocates a switch of that very name again: the names handed
    to addSwitch are not distinct. *)
Theorem filler_repeats_cluster_switch (bw nswitches nodes hps : Z) :
  0 < hps -> 0 <= nodes -> nodes mod hps <> 0 -> nodes / hps < nswitches ->
  exists t1 t2 extra,
    addHosts_clusters bw nodes hps empty_topo = Ret t1
    /\ addHosts_fillers nswitches nodes hps t1 = Ret t2
    /\ In (String "s" (pct_d (nodes / hps + 1))) (addSwitch_calls t1)
    /\ topo_nodes t2 = topo_nodes t1 ++ extra
    /\ In (String "s" (pct_d (nodes / hps + 1)))
         (map node_name (filter node_isSwitch extra))
    /\ ~ NoDup (addSwitch_calls t2).
Proof.
  intros Hh Hn Hm Hs.
  destruct (clusters_total bw hps (py_range 0 nodes) (mkAttachState 1 [] empty_topo))
    as (st & Hst); [lia|].
  destruct (clusters_switch_calls _ _ _ _ Hh Hst) as (Hnum & Hcalls).
  assert (Hq : (Z.max 0 nodes + hps - 1) / hps = nodes / hps + 1).
  { replace (Z.max 0 nodes) with nodes by lia.
    pose proof (Z.div_mod nodes hps ltac:(lia)) as E.
    pose proof (Z.mod_pos_bound nodes hps Hh) as B.
    replace (nodes + hps - 1)
      with ((nodes mod hps - 1) + (nodes / hps + 1) * hps) by lia.
    rewrite Z.div_add by lia. rewrite Z.div_small by lia. lia. }
  assert (Hq0 : 0 <= nodes / hps) by (apply Z.div_pos; lia).
  assert (In1 : In (switch_name (nodes / hps + 1)) (addSwitch_calls (att_topo st))).
  { rewrite Hcalls. apply in_map, in_py_range. lia. }
  set (extra := map (fun num => mkNodeRecord (switch_name (num + 1)) true
                                  (edge_opts (num + 1)))
                    (py_range (nodes / hps) nswitches)).
  assert (In2 : In (switch_name (nodes / hps + 1))
                  (map node_name (filter node_isSwitch extra))).
  { apply in_map_iff.
    exists (mkNodeRecord (switch_name (nodes / hps + 1)) true
              (edge_opts (nodes / hps + 1))).
    split; [reflexivity|]. apply filter_In. split; [|reflexivity].
    unfold extra. apply in_map_iff. exists (nodes / hps). split; [reflexivity|].
    apply in_py_range. lia. }
  exists (att_topo st), (mkTopo (topo_nodes (att_topo st) ++ extra)
                           (topo_links (att_topo st))), extra.
  split; [unfold addHosts_clusters; rewrite Hst; reflexivity|].
  split.
  { unfold addHosts_fillers, py_div.
    destruct (Z.eqb_spec hps 0); [lia|]. cbn [bind]. apply fillers_run. }
  split; [exact In1|].
  split; [reflexivity|].
  split; [exact In2|].
  unfold addSwitch_calls at 1. cbn [topo_nodes].
  rewrite filter_app, map_app.
  eapply in_twice_not_NoDup; [exact In1|exact In2].
Qed.

(** C10 at 3 hosts, 2 per switch, 4 switches: s2 is allocated twice. *)
Lemma filler_repeats_cluster_switch_witness :
  exists t1 t2 extra,
    addHosts_clusters 40 3 2 empty_topo = Ret t1
    /\ addHosts_fillers 4 3 2 t1 = Ret t2
    /\ In (String "s" (pct_d (3 / 2 + 1))) (addSwitch_calls t1)
    /\ topo_nodes t2 = topo_nodes t1 ++ extra
    /\ In (String "s" (pct_d (3 / 2 + 1)))
         (map node_name (filter node_isSwitch extra))
    /\ ~ NoDup (addSwitch_calls t2).
Proof.
  apply (filler_repeats_cluster_switch 40 4 3 2);
    [lia|lia|vm_compute; lia|vm_compute; reflexivity].
Defined.

(** ** Built-ins used by the two loops *)

Lemma link_eqb_eq (a b : link) : link_eqb a b = true <-> a = b.
Proof.
  destruct a as [a1 a2], b as [b1 b2]; unfold link_eqb; simpl.
  rewrite andb_true_iff, !String.eqb_eq. split.
  - intros [-> ->]; reflexivity.
  - intros H; injection H; auto.
Qed.

Lemma link_in_In (l : link) (links : list link) :
  link_in l links = true <-> In l links.
Proof.
  unfold link_in. rewrite existsb_exists. split.
  - intros (x & Hx & E). apply link_eqb_eq in E. now subst.
  - intros H. exists l. split; auto. now apply link_eqb_eq.
Qed.

Lemma list_remove_In {A : Type} (eqb : A -> A -> bool) (x : A) (l : list A) :
  (forall a b, eqb a b = true <-> a = b) ->
  In x l -> exists l', list_remove eqb x l = Ret l'.
Proof.
  intros Heq. induction l as [|y l IH]; simpl; [tauto|].
  intros H. destruct (eqb y x) eqn:E; [eauto|].
  destruct H as [->|H].
  - assert (eqb x x = true) by now apply Heq. congruence.
  - destruct (IH H) as (l' & ->). simpl. eauto.
Qed.

Lemma list_remove_Ret {A : Type} (eqb : A -> A -> bool) (x : A) (l l' : list A) :
  (forall a b, eqb a b = true <-> a = b) ->
  list_remove eqb x l = Ret l' ->
  incl l' l
  /\ (forall y, In y l -> y <> x -> In y l')
  /\ S (List.length l') = List.length l.
Proof.
  intros Heq. revert l'. induction l as [|y l IH]; simpl; intros l' H;
    [discriminate|].
  destruct (eqb y x) eqn:E.
  - injection H as <-. apply Heq in E. subst y.
    split; [intros z Hz; now right|]. split; [|reflexivity].
    intros z [->|Hz] Hne; [contradiction|assumption].
  - apply bind_Ret_inv in H as (r & Hr & E'). injection E' as <-.
    destruct (IH r Hr) as (I1 & I2 & I3).
    split; [|split].
    + intros z [->|Hz]; [now left|right; now apply I1].
    + intros z [->|Hz] Hne; [now left|right; now apply I2].
    + simpl. now rewrite I3.
Qed.

Section Loops.

Context {R : RandomSource}.

Lemma choice_Ret {A : Type} (g g' : rng R) (l : list A) (x : A) :
  choice g l = Ret (x, g') -> In x l.
Proof.
  unfold choice. destruct (rng_index R g (List.length l)) as [i g1].
  destruct (nth_error l i) eqn:E; [|discriminate].
  intros H; injection H as <- <-. eapply nth_error_In; eauto.
Qed.

Lemma choice_nonempty {A : Type} (g : rng R) (l : list A) :
  l <> [] -> exists x g', choice g l = Ret (x, g').
Proof.
  intros Hl. unfold choice.
  pose proof (rng_index_lt R g (List.length l)) as Hlt.
  destruct (rng_index R g (List.length l)) as [i g1]. simpl in Hlt.
  assert (Hi : (i < List.length l)%nat)
    by (apply Hlt; destruct l; [contradiction|simpl; lia]).
  apply nth_error_Some in Hi.
  destruct (nth_error l i); [eauto|contradiction].
Qed.

Lemma choice_singleton {A : Type} (g : rng R) (x : A) :
  exists g', choice g [x] = Ret (x, g').
Proof.
  destruct (choice_nonempty g [x]) as (y & g' & H); [discriminate|].
  pose proof (choice_Ret _ _ _ _ H) as [->|[]]. eauto.
Qed.

Lemma choice_not_out_of_fuel {A : Type} (g : rng R) (l : list A) :
  choice g l <> OutOfFuel.
Proof.
  unfold choice. destruct (rng_index R g (List.length l)) as [i g1].
  destruct (nth_error l i); discriminate.
Qed.

End Loops.

(** ** Phase 1 *)

Section Pairing.

Context {R : RandomSource} (ports : Z).

Lemma retire_Ret (sw : string) (links : list link) (sl : list string) :
  In sw sl ->
  exists sl', retire ports sw links sl = Ret sl'
              /\ incl sl' sl
              /\ (forall y, In y sl -> y <> sw -> In y sl').
Proof.
  intros Hin. unfold retire.
  destruct ((count_links_with_switch sw links =? ports)
            || switch_is_fully_connected sw links sl).
  - destruct (list_remove_In String.eqb sw sl String.eqb_eq Hin) as (sl' & H).
    exists sl'. split; [exact H|].
    destruct (list_remove_Ret _ _ _ _ String.eqb_eq H) as (I1 & I2 & _). auto.
  - exists sl. split; [reflexivity|]. split; [apply incl_refl|auto].
Qed.

Lemma pair_up_Ret (a b : string) (sl : list string) (links : list link) :
  In a sl -> In b sl ->
  exists sl' links',
    pair_up ports a b sl links = Ret (sl', links')
    /\ incl sl' sl
    /\ (accepted a b links = false -> sl' = sl /\ links' = links)
    /\ (accepted a b links = true -> links' = links ++ [(a, b)]).
Proof.
  intros Ha Hb. unfold pair_up, accepted.
  destruct (String.eqb_spec a b) as [E|E]; simpl.
  - exists sl, links. split; [reflexivity|]. split; [apply incl_refl|].
    split; [auto|discriminate].
  - destruct (link_in (a, b) links || link_in (b, a) links); simpl.
    + exists sl, links. split; [reflexivity|]. split; [apply incl_refl|].
      split; [auto|discriminate].
    + destruct (retire_Ret a (links ++ [(a, b)]) sl Ha) as (sl1 & H1 & I1 & K1).
      rewrite H1. cbn [bind].
      assert (Hb1 : In b sl1) by (apply K1; [assumption|congruence]).
      destruct (retire_Ret b (links ++ [(a, b)]) sl1 Hb1) as (sl2 & H2 & I2 & _).
      rewrite H2. cbn [bind].
      exists sl2, (links ++ [(a, b)]). split; [reflexivity|].
      split; [eapply incl_tran; eauto|]. split; [discriminate|auto].
Qed.

Lemma pairing_step_Ret (b : Builder R) :
  pairing_guard (switch_list b) (added_links b) = true ->
  exists x y g2 sl' links',
    In x (switch_list b) /\ In y (switch_list b)
    /\ pair_up ports x y (switch_list b) (added_links b) = Ret (sl', links')
    /\ pairing_step ports b = Ret (mkBuilder g2 sl' links').
Proof.
  intros G. unfold pairing_guard in G. apply andb_true_iff in G as [G _].
  apply Nat.ltb_lt in G.
  assert (Hne : switch_list b <> [])
    by (destruct (switch_list b); simpl in G; [lia|discriminate]).
  unfold pairing_step.
  destruct (choice_nonempty (gen b) _ Hne) as (x & g1 & H1).
  destruct (choice_nonempty g1 _ Hne) as (y & g2 & H2).
  pose proof (choice_Ret _ _ _ _ H1) as Hx.
  pose proof (choice_Ret _ _ _ _ H2) as Hy.
  destruct (pair_up_Ret x y _ (added_links b) Hx Hy) as (sl' & links' & H3 & _).
  exists x, y, g2, sl', links'.
  rewrite H1; cbn [bind]. rewrite H2; cbn [bind]. rewrite H3; cbn [bind]. auto.
Qed.

Lemma pairing_S (fuel : nat) (b : Builder R) :
  pairing (S fuel) ports b
  = if pairing_guard (switch_list b) (added_links b) then
      b' <- pairing_step ports b ;; pairing fuel ports b'
    else Ret b.
Proof. reflexivity. Qed.

(** The pairing loop never raises, keeps any property that every iteration
    keeps, and stops only with its guard false. *)
Lemma pairing_ind (Inv : list string -> list link -> Prop) :
  (forall x y sl links sl' links',
      In x sl -> In y sl -> Inv sl links ->
      pair_up ports x y sl links = Ret (sl', links') -> Inv sl' links') ->
  forall fuel (g : rng R) sl links,
    Inv sl links ->
    match pairing fuel ports (mkBuilder g sl links) with
    | Ret b => Inv (switch_list b) (added_links b)
               /\ pairing_guard (switch_list b) (added_links b) = false
    | Raise _ => False
    | OutOfFuel => True
    end.
Proof.
  intros Hstep. induction fuel as [|fuel IH]; intros g sl links HI; [exact I|].
  rewrite pairing_S. cbn [switch_list added_links].
  destruct (pairing_guard sl links) eqn:G; [|now split].
  destruct (pairing_step_Ret (mkBuilder g sl links) G)
    as (x & y & g2 & sl' & links' & Hx & Hy & Hp & Hs).
  rewrite Hs. cbn [bind]. apply IH.
  exact (Hstep x y sl links sl' links' Hx Hy HI Hp).
Qed.

Lemma pairing_mono (fuel fuel' : nat) (b b' : Builder R) :
  pairing fuel ports b = Ret b' -> (fuel <= fuel')%nat ->
  pairing fuel' ports b = Ret b'.
Proof.
  revert fuel' b. induction fuel as [|fuel IH]; intros fuel' b H Hle;
    [discriminate|].
  destruct fuel' as [|fuel']; [lia|].
  rewrite pairing_S in *.
  destruct (pairing_guard (switch_list b) (added_links b)); [|exact H].
  destruct (pairing_step ports b) as [b1| |]; try discriminate.
  cbn [bind] in *. apply IH; [exact H|lia].
Qed.

Lemma pairing_all_eq (P : list string -> list link -> bool) (depth : nat)
  (sl : list string) (links : list link) :
  pairing_all P depth ports sl links
  = if pairing_guard sl links then
      match depth with
      | O => false
      | S d =>
          forallb (fun ab : string * string =>
                     if accepted (fst ab) (snd ab) links then
                       match pair_up ports (fst ab) (snd ab) sl links with
                       | Ret (sl', links') => pairing_all P d ports sl' links'
                       | _ => false
                       end
                     else true)
                  (list_prod sl sl)
      end
    else P sl links.
Proof. destruct depth; reflexivity. Qed.

(** Whatever the generator draws, the pairing loop stops, if it stops, in
    one of the states [pairing_all] visits. *)
Lemma pairing_all_sound (P : list string -> list link -> bool) (depth : nat) :
  forall sl links,
    pairing_all P depth ports sl links = true ->
    forall fuel (g : rng R),
      match pairing fuel ports (mkBuilder g sl links) with
      | Ret b => P (switch_list b) (added_links b) = true
      | Raise _ => False
      | OutOfFuel => True
      end.
Proof.
  induction depth as [|d IHd]; intros sl links H fuel;
    induction fuel as [|fuel IHf]; intros g; try exact I;
    rewrite pairing_S; cbn [switch_list added_links];
    rewrite pairing_all_eq in H;
    destruct (pairing_guard sl links) eqn:G; try discriminate; try exact H.
  destruct (pairing_step_Ret (mkBuilder g sl links) G)
    as (x & y & g2 & sl' & links' & Hx & Hy & Hp & Hs).
  cbn [switch_list added_links] in *.
  rewrite Hs. cbn [bind].
  destruct (accepted x y links) eqn:Acc.
  - rewrite forallb_forall in H.
    specialize (H (x, y) (in_prod _ _ _ _ Hx Hy)). cbn [fst snd] in H.
    rewrite Acc, Hp in H. now apply IHd.
  - destruct (pair_up_Ret x y sl links Hx Hy) as (sl1 & links1 & Hp1 & _ & Hrej & _).
    rewrite Hp in Hp1. injection Hp1 as <- <-.
    destruct (Hrej Acc) as [-> ->]. apply IHf.
Qed.

End Pairing.

(** ** Phase 2 *)

Section Repair.

Context {R : RandomSource} (ports : Z).

Lemma fully_connected_alone (switch : string) (links : list link)
  (sl : list string) :
  (forall a, In a sl -> a = switch) ->
  switch_is_fully_connected switch links sl = true.
Proof.
  intros H. unfold switch_is_fully_connected. apply forallb_forall.
  intros s Hs. rewrite (H s Hs), String.eqb_refl. reflexivity.
Qed.

Lemma repair_switch_Ret (sl : list string) (p : Pass R) (switch : string) :
  In switch sl -> can_draw sl (pass_links p) ->
  exists p', repair_switch ports sl p switch = Ret p'
             /\ repair_effect ports sl switch p p'.
Proof.
  intros Hin Hd. unfold repair_switch, repair_effect.
  destruct (switch_is_fully_connected switch (pass_links p) sl) eqn:F.
  { exists p; auto. }
  destruct (Z.ltb_spec (count_links_with_switch switch (pass_links p)) (ports - 1))
    as [C|C].
  2:{ exists p; split; [reflexivity|]. left; split; [reflexivity|right; lia]. }
  assert (Hne : pass_links p <> []).
  { destruct Hd as [Hd|Hd]; [exact Hd|].
    rewrite fully_connected_alone in F; [discriminate|].
    intros a Ha; now apply Hd. }
  destruct (choice_nonempty (pass_gen p) _ Hne) as (l & g' & Hc).
  pose proof (choice_Ret _ _ _ _ Hc) as Hl.
  rewrite Hc. cbn [bind].
  destruct (String.eqb_spec switch (fst l)) as [E1|E1]; cbn [orb].
  { eexists; split; [reflexivity|]. right; left; auto. }
  destruct (String.eqb_spec switch (snd l)) as [E2|E2].
  { eexists; split; [reflexivity|]. right; left; auto. }
  destruct (list_remove_In link_eqb l _ link_eqb_eq Hl) as (links1 & Hr).
  rewrite Hr. cbn [bind].
  eexists; split; [reflexivity|]. right; right. split; [reflexivity|].
  exists l, links1. cbn [pass_links]. repeat split; auto.
Qed.

Lemma repair_S (fuel : nat) (sl : list string) (g : rng R) (links : list link) :
  repair (S fuel) ports sl g links
  = (p <- repair_pass ports sl g links ;;
     if completed p then Ret (pass_gen p, pass_links p)
     else repair fuel ports sl (pass_gen p) (pass_links p)).
Proof. reflexivity. Qed.

Section Invariant.

Variable Inv : list link -> Prop.
Variable sl : list string.

Hypothesis Inv_rewire :
  forall switch l links links1,
    In switch sl -> In l links -> switch <> fst l -> switch <> snd l ->
    count_links_with_switch switch links < ports - 1 ->
    Inv links -> list_remove link_eqb l links = Ret links1 ->
    Inv (links1 ++ [(switch, fst l)] ++ [(switch, snd l)]).

Lemma repair_visits (xs : list string) (p : Pass R) :
  incl xs sl -> Inv (pass_links p) -> can_draw sl (pass_links p) ->
  exists p',
    for_each (repair_switch ports sl) xs p = Ret p'
    /\ Inv (pass_links p') /\ can_draw sl (pass_links p')
    /\ (completed p' = true ->
        p' = p
        /\ forall s, In s xs ->
             switch_is_fully_connected s (pass_links p) sl = true
             \/ ports - 1 <= count_links_with_switch s (pass_links p)).
Proof.
  revert p. induction xs as [|x xs IH]; intros p Hxs HI Hd; simpl.
  - exists p. repeat split; auto; intros s [].
  - assert (Hx : In x sl) by (apply Hxs; now left).
    assert (Hxs' : incl xs sl) by (intros z Hz; apply Hxs; now right).
    destruct (repair_switch_Ret sl p x Hx Hd) as (p1 & H1 & E).
    rewrite H1. cbn [bind].
    assert (K : Inv (pass_links p1) /\ can_draw sl (pass_links p1)).
    { destruct E
        as [[-> _]|[[_ ->]|[_ (l & links1 & Hl & N1 & N2 & Hlt & Hr & ->)]]];
        auto.
      split; [eapply Inv_rewire; eauto|].
      left. destruct links1; discriminate. }
    destruct K as [HI1 Hd1].
    destruct (IH p1 Hxs' HI1 Hd1) as (p' & H' & HI' & Hd' & Hc').
    exists p'. split; [exact H'|]. split; [exact HI'|]. split; [exact Hd'|].
    intros Hc. destruct (Hc' Hc) as [-> Hall].
    destruct E as [[-> Hx1]|[[Hf _]|[Hf _]]]; try congruence.
    split; [reflexivity|]. intros s [<-|Hs]; auto.
Qed.

(** The repair loop never raises, keeps a property that every rewiring
    keeps, and stops only after a pass in which every member of the
    candidate list passed one of the two tests. *)
Lemma repair_ind :
  forall fuel (g : rng R) links,
    Inv links -> can_draw sl links ->
    match repair fuel ports sl g links with
    | Ret (g', links') =>
        Inv links'
        /\ forall s, In s sl ->
             switch_is_fully_connected s links' sl = true
             \/ ports - 1 <= count_links_with_switch s links'
    | Raise _ => False
    | OutOfFuel => True
    end.
Proof.
  induction fuel as [|fuel IH]; intros g links HI Hd; [exact I|].
  rewrite repair_S. unfold repair_pass.
  destruct (repair_visits sl (mkPass g links true) (incl_refl _) HI Hd)
    as (p' & H & HI' & Hd' & Hc).
  rewrite H. cbn [bind].
  destruct (completed p') eqn:C.
  - destruct (Hc eq_refl) as [-> Hall]. cbn [pass_links] in *. auto.
  - now apply IH.
Qed.

End Invariant.

Lemma repair_mono (fuel fuel' : nat) (sl : list string) (g : rng R)
  (links : list link) (r : rng R * list link) :
  repair fuel ports sl g links = Ret r -> (fuel <= fuel')%nat ->
  repair fuel' ports sl g links = Ret r.
Proof.
  revert fuel' g links. induction fuel as [|fuel IH]; intros fuel' g links H Hle;
    [discriminate|].
  destruct fuel' as [|fuel']; [lia|].
  rewrite repair_S in *.
  destruct (repair_pass ports sl g links) as [p| |]; try discriminate.
  cbn [bind] in *. destruct (completed p); [exact H|].
  apply IH; [exact H|lia].
Qed.

End Repair.

(** ** The two loops together *)

Lemma not_fully_connected_nil (sl : list string) :
  not_fully_connected sl [] = false -> (List.length sl <= 1)%nat.
Proof.
  destruct sl as [|a [|b sl]]; simpl; intros H; try lia; discriminate.
Qed.

Lemma guard_false_can_draw (sl : list string) (links : list link) :
  pairing_guard sl links = false -> can_draw sl links.
Proof.
  intros G. destruct links as [|l links]; [|left; discriminate].
  right. unfold pairing_guard in G.
  assert (L : (List.length sl <= 1)%nat).
  { apply andb_false_iff in G as [G|G].
    - apply Nat.ltb_ge in G. exact G.
    - now apply not_fully_connected_nil. }
  destruct sl as [|x [|y sl]]; simpl in L; try lia.
  - intros a b [].
  - intros a b [<-|[]] [<-|[]]. reflexivity.
Qed.

Section Construction.

Context {R : RandomSource}.

Lemma build_links_no_raise (fuel : nat) (ports : Z) (sl : list string)
  (g : rng R) (e : exn) :
  build_links fuel ports sl g <> Raise e.
Proof.
  unfold build_links.
  pose proof (pairing_ind ports (fun _ _ => True)
                (fun _ _ _ _ _ _ _ _ _ _ => I) fuel g sl [] I) as H.
  destruct (pairing fuel ports (mkBuilder g sl [])) as [b| |];
    [|contradiction|discriminate].
  cbn [bind]. destruct H as [_ G].
  pose proof (repair_ind ports (fun _ => True) (switch_list b)
                (fun _ _ _ _ _ _ _ _ _ _ _ => I) fuel (gen b) (added_links b) I
                (guard_false_can_draw _ _ G)) as H.
  destruct (repair fuel ports (switch_list b) (gen b) (added_links b))
    as [[g' links]| |]; [discriminate|contradiction|discriminate].
Qed.

Lemma build_links_mono (fuel fuel' : nat) (ports : Z) (sl : list string)
  (g : rng R) (r : rng R * list link) :
  build_links fuel ports sl g = Ret r -> (fuel <= fuel')%nat ->
  build_links fuel' ports sl g = Ret r.
Proof.
  unfold build_links. intros H Hle.
  apply bind_Ret_inv in H as (b & H1 & H2).
  rewrite (pairing_mono ports fuel fuel' _ _ H1 Hle). cbn [bind].
  now apply repair_mono with (fuel := fuel).
Qed.

Lemma create_topology_mono (fuel fuel' : nat) (bw nsw nodes ports hps : Z)
  (g : rng R) (t : Topo) (r : Topo * rng R) :
  create_topology fuel bw nsw nodes ports hps g t = Ret r ->
  (fuel <= fuel')%nat ->
  create_topology fuel' bw nsw nodes ports hps g t = Ret r.
Proof.
  unfold create_topology. intros H Hle.
  apply bind_Ret_inv in H as (t1 & H1 & H2). rewrite H1. cbn [bind].
  apply bind_Ret_inv in H2 as ([g' links] & H2 & H3).
  rewrite (build_links_mono fuel fuel' _ _ _ _ H2 Hle). exact H3.
Qed.

End Construction.

Lemma addHosts_total (bw nsw nodes ports hps : Z) (t : Topo) :
  hps <> 0 -> exists t', addHosts bw nsw nodes ports hps t = Ret t'.
Proof.
  intros Hh. unfold addHosts, addHosts_clusters, addHosts_fillers, py_div.
  destruct (clusters_total bw hps (py_range 0 nodes) (mkAttachState 1 [] t) Hh)
    as (st & ->).
  cbn [bind]. destruct (Z.eqb_spec hps 0); [contradiction|]. cbn [bind].
  rewrite fillers_run. eauto.
Qed.

Lemma addHosts_zero (bw nsw nodes ports : Z) (t : Topo) :
  addHosts bw nsw nodes ports 0 t = Raise ZeroDivisionError.
Proof.
  unfold addHosts, addHosts_clusters, addHosts_fillers.
  destruct (Z.le_gt_cases nodes 0) as [Hn|Hn].
  - unfold py_range. replace (Z.to_nat (nodes - 0)) with O by lia. reflexivity.
  - unfold py_range.
    destruct (Z.to_nat (nodes - 0)) as [|m] eqn:E; [lia|].
    cbn [seq map for_each]. unfold attach_host. cbv zeta.
    rewrite (def_nopts_name_str _ _ (id_of_name_name_str_host _)).
    reflexivity.
Qed.

(** ** C6: no feasibility check *)

(** C6, as the code has it.  The constructor makes no feasibility check.
    It rejects a parameter set only when hosts_per_switch is 0, with the
    ZeroDivisionError of host attachment; for every other parameter set,
    those with ports_per_switch - hosts_per_switch <= 0 included, host
    attachment completes and neither loop raises, whatever the generator
    draws. *)
Theorem no_feasibility_check (R : RandomSource) (fuel : nat) (g0 : rng R)
  (seed nsw nodes ports hps bw : Z) :
  (hps = 0 ->
   JellyfishTopo fuel g0 seed nsw nodes ports hps bw = Raise ZeroDivisionError)
  /\ (hps <> 0 ->
      (exists t1, addHosts bw nsw nodes ports hps empty_topo = Ret t1)
      /\ forall e, JellyfishTopo fuel g0 seed nsw nodes ports hps bw <> Raise e).
Proof.
  unfold JellyfishTopo, create_topology. split.
  - intros ->. now rewrite addHosts_zero.
  - intros Hh.
    destruct (addHosts_total bw nsw nodes ports hps empty_topo Hh) as (t1 & H1).
    split; [eauto|]. intros e. rewrite H1. cbn [bind].
    pose proof (build_links_no_raise fuel ports (switches t1)
                  (random_seed R seed g0) e) as N.
    destruct (build_links fuel ports (switches t1) (random_seed R seed g0))
      as [[g' links]| |]; [discriminate| |discriminate].
    cbn [bind]. intros E. injection E as ->. now apply N.
Qed.

(** C6 at a parameter set with no free port: 2 switches, 2 hosts, 1 port
    per switch, 1 host per switch. *)
Lemma no_feasibility_check_witness :
  (exists t1, addHosts 40 2 2 1 1 empty_topo = Ret t1)
  /\ forall e, JellyfishTopo (R := lcg) 100 0 0 2 2 1 1 40 <> Raise e.
Proof.
  apply (no_feasibility_check lcg 100 0 0 2 2 1 1 40). lia.
Defined.

(** C6, counterexample: with ports_per_switch - hosts_per_switch = 0 the
    construction is not rejected; it returns a topology in which the two
    switches are linked. *)
Lemma infeasible_parameters_accepted :
  1 - 1 <= 0
  /\ exists t g,
      JellyfishTopo (R := lcg) 100 0 0 2 2 1 1 40 = Ret (t, g)
      /\ map fst (topo_links t)
         = [("h1", "s1"); ("h2", "s2"); ("s2", "s1")]%string.
Proof.
  split; [lia|]. eexists; eexists. split; vm_compute; reflexivity.
Qed.

(** ** C7: determinism *)

(** C7.  The outcome of the constructor is a function of the seed and the
    parameters alone: it does not depend on the state the module-wide
    generator was left in, and two runs that both return, whatever bound on
    the number of iterations each was run with, return the same node
    records, the same edge records and the same generator state. *)
Theorem construction_deterministic (R : RandomSource)
  (seed nsw nodes ports hps bw : Z) (g0 g0' : rng R) (fuel fuel' : nat) :
  JellyfishTopo fuel g0 seed nsw nodes ports hps bw
  = JellyfishTopo fuel g0' seed nsw nodes ports hps bw
  /\ forall r r',
      JellyfishTopo fuel g0 seed nsw nodes ports hps bw = Ret r ->
      JellyfishTopo fuel' g0' seed nsw nodes ports hps bw = Ret r' ->
      r = r'.
Proof.
  split; [reflexivity|].
  unfold JellyfishTopo, random_seed. intros r r' H H'.
  apply create_topology_mono with (fuel' := Nat.max fuel fuel') in H; [|lia].
  apply create_topology_mono with (fuel' := Nat.max fuel fuel') in H'; [|lia].
  congruence.
Qed.

(** C7 on two runs with different bounds and different earlier generator
    states. *)
Lemma construction_deterministic_witness :
  exists r r',
    JellyfishTopo (R := lcg) 50 7 0 4 4 4 1 40 = Ret r
    /\ JellyfishTopo (R := lcg) 80 11 0 4 4 4 1 40 = Ret r'
    /\ r = r'.
Proof.
  eexists; eexists.
  split; [vm_compute; reflexivity|]. split; [vm_compute; reflexivity|].
  apply (proj2 (construction_deterministic lcg 0 4 4 4 1 40 7 11 50 80));
    vm_compute; reflexivity.
Defined.

(** ** Lists compared by a boolean test *)

Lemma list_eqb_eq {A : Type} (eqb : A -> A -> bool) :
  (forall a b, eqb a b = true <-> a = b) ->
  forall l1 l2, list_eqb eqb l1 l2 = true <-> l1 = l2.
Proof.
  intros Heq. induction l1 as [|x l1 IH]; destruct l2 as [|y l2]; simpl;
    try (split; [discriminate|discriminate]); [tauto|].
  rewrite andb_true_iff, Heq, IH. split.
  - intros [-> ->]; reflexivity.
  - intros H; injection H; auto.
Qed.

Lemma stops_with_true (sl0 : list string) (allowed : list (list link))
  (sl : list string) (links : list link) :
  stops_with sl0 allowed sl links = true -> sl = sl0 /\ In links allowed.
Proof.
  unfold stops_with. rewrite andb_true_iff, existsb_exists.
  intros [H1 (x & Hx & H2)].
  apply (list_eqb_eq _ String.eqb_eq) in H1.
  apply (list_eqb_eq _ link_eqb_eq) in H2. subst. auto.
Qed.

(** ** C3: two switches and a budget of three or more *)

Section TwoSwitches.

Context {R : RandomSource} (ports : Z) (a b : string).
Hypothesis a_not_b : a <> b.
Hypothesis ports_big : 2 < ports.

Lemma lone_link_visit (l : link) (s : string) (p : Pass R) :
  l = (a, b) \/ l = (b, a) -> s = a \/ s = b -> pass_links p = [l] ->
  exists g', repair_switch ports [a; b] p s = Ret (mkPass g' [l] false).
Proof.
  intros Hl Hs Hp. unfold repair_switch. rewrite Hp.
  assert (Eab : String.eqb a b = false) by now apply String.eqb_neq.
  assert (Eba : String.eqb b a = false) by (apply String.eqb_neq; congruence).
  assert (F : switch_is_fully_connected s [l] [a; b] = false).
  { unfold switch_is_fully_connected, link_in, link_eqb.
    destruct Hl as [-> | ->], Hs as [-> | ->]; simpl;
      rewrite ?String.eqb_refl, ?Eab, ?Eba; reflexivity. }
  assert (C : count_links_with_switch s [l] = 1).
  { destruct Hl as [-> | ->], Hs as [-> | ->];
      cbn [count_links_with_switch]; unfold touches; cbn [fst snd];
      rewrite ?String.eqb_refl, ?Eab, ?Eba; reflexivity. }
  assert (T : String.eqb s (fst l) || String.eqb s (snd l) = true).
  { destruct Hl as [-> | ->], Hs as [-> | ->]; simpl;
      rewrite ?String.eqb_refl, ?Eab, ?Eba; reflexivity. }
  rewrite F, C.
  destruct (Z.ltb_spec 1 (ports - 1)); [|lia].
  destruct (choice_singleton (pass_gen p) l) as (g' & ->). cbn [bind].
  rewrite T. eauto.
Qed.

(** With two switches joined by their one possible link, every pass of the
    repair loop draws that link for each of them, finds the switch on it,
    and starts over. *)
Lemma repair_pair_diverges (l : link) :
  l = (a, b) \/ l = (b, a) ->
  forall fuel (g : rng R), repair fuel ports [a; b] g [l] = OutOfFuel.
Proof.
  intros Hl. induction fuel as [|fuel IH]; intros g; [reflexivity|].
  rewrite repair_S. unfold repair_pass. cbn [for_each].
  destruct (lone_link_visit l a (mkPass g [l] true) Hl (or_introl eq_refl) eq_refl)
    as (g1 & ->). cbn [bind].
  destruct (lone_link_visit l b (mkPass g1 [l] false) Hl (or_intror eq_refl) eq_refl)
    as (g2 & ->). cbn [bind completed pass_gen pass_links].
  apply IH.
Qed.

End TwoSwitches.

(** C3, at 2 switches, 2 hosts, 4 ports per switch, 1 host per switch:
    whatever the seed and whatever the generator draws, and however many
    iterations are allowed, the construction does not return.  The pairing
    loop can only stop with the two switches linked and both still
    candidates, and from there the repair loop never completes a pass. *)
Theorem two_switches_never_finish (R : RandomSource) (fuel : nat) (g0 : rng R)
  (seed bw : Z) :
  JellyfishTopo fuel g0 seed 2 2 4 1 bw = OutOfFuel.
Proof.
  unfold JellyfishTopo, create_topology.
  remember (addHosts bw 2 2 4 1 empty_topo) as c eqn:E.
  vm_compute in E. subst c. cbn [bind].
  match goal with
  | |- context [switches ?t] =>
      replace (switches t) with ["s1"; "s2"]%string by (vm_compute; reflexivity)
  end.
  unfold build_links.
  pose proof (pairing_all_sound 4
                (stops_with ["s1"; "s2"]%string
                   [[("s1", "s2")]; [("s2", "s1")]]%string)
                1 ["s1"; "s2"]%string [] ltac:(vm_compute; reflexivity)
                fuel (random_seed R seed g0)) as H.
  destruct (pairing fuel 4 _) as [b| |]; [|contradiction|reflexivity].
  apply stops_with_true in H as [Hsl Hl]. cbn [bind]. rewrite Hsl.
  assert (N : "s1"%string <> "s2"%string) by discriminate.
  destruct Hl as [<-|[<-|[]]];
    rewrite (repair_pair_diverges 4 "s1" "s2" N ltac:(lia)); auto.
Qed.

(** ** Materializing the edge list *)

Lemma topo_nodes_materialize (bw : Z) (links : list link) (t : Topo) :
  topo_nodes (materialize bw links t) = topo_nodes t.
Proof.
  unfold materialize. revert t.
  induction links as [|l links IH]; intros t; simpl; auto.
  now rewrite IH.
Qed.

Lemma topo_links_materialize (bw : Z) (links : list link) (t : Topo) :
  topo_links (materialize bw links t)
  = topo_links t ++ map (fun l => (fst l, snd l, bw)) links.
Proof.
  unfold materialize. revert t.
  induction links as [|l links IH]; intros t; simpl.
  - now rewrite app_nil_r.
  - rewrite IH. simpl. now rewrite <- app_assoc.
Qed.

Lemma isSwitch_same_nodes (t t' : Topo) (n : string) :
  topo_nodes t = topo_nodes t' -> isSwitch t n = isSwitch t' n.
Proof. intros E. unfold isSwitch. now rewrite E. Qed.

Lemma switches_same_nodes (t t' : Topo) :
  topo_nodes t = topo_nodes t' -> switches t = switches t'.
Proof.
  intros E. unfold switches. rewrite E. apply filter_ext.
  intros n. now apply isSwitch_same_nodes.
Qed.

Lemma switches_materialize (bw : Z) (links : list link) (t : Topo) :
  switches (materialize bw links t) = switches t.
Proof. apply switches_same_nodes, topo_nodes_materialize. Qed.

(** In the finished graph a switch has the hosts it had after host
    attachment, and its inter-switch degree is its number of links in the
    working edge list. *)
Lemma hosts_attached_materialize (bw : Z) (links : list link) (t : Topo)
  (s : string) :
  between_switches t links ->
  hosts_attached (materialize bw links t) s = hosts_attached t s.
Proof.
  intros Hb. unfold hosts_attached.
  rewrite topo_links_materialize, filter_app, length_app.
  apply f_equal.
  match goal with |- _ = ?y => transitivity (y + 0)%nat; [|apply Nat.add_0_r] end.
  apply f_equal2.
  - f_equal. apply filter_ext. intros e.
    now rewrite (isSwitch_same_nodes _ t) by apply topo_nodes_materialize.
  - assert (G : forall ls, incl ls links ->
                  List.length
                    (filter (fun e : EdgeRecord =>
                               negb (isSwitch (materialize bw links t) (fst (fst e)))
                               && String.eqb (snd (fst e)) s)
                            (map (fun l : link => (fst l, snd l, bw)) ls)) = O).
    { induction ls as [|l ls IH]; intros Hls; [reflexivity|].
      cbn [map filter fst snd].
      rewrite (isSwitch_same_nodes _ t) by apply topo_nodes_materialize.
      destruct (Hb l (Hls l (or_introl eq_refl))) as [-> _]. cbn [negb andb].
      apply IH. intros x Hx. apply Hls. now right. }
    exact (G links (incl_refl _)).
Qed.

Lemma inter_switch_degree_materialize (bw : Z) (links : list link) (t : Topo)
  (s : string) :
  between_switches t links ->
  inter_switch_degree (materialize bw links t) s
  = inter_switch_degree t s + count_links_with_switch s links.
Proof.
  intros Hb. unfold inter_switch_degree.
  rewrite topo_links_materialize, filter_app, length_app, Nat2Z.inj_add.
  f_equal.
  - do 2 f_equal. apply filter_ext. intros e.
    rewrite (isSwitch_same_nodes (materialize bw links t) t (fst (fst e))),
      (isSwitch_same_nodes (materialize bw links t) t (snd (fst e)))
      by apply topo_nodes_materialize.
    reflexivity.
  - assert (G : forall ls, incl ls links ->
                  Z.of_nat (List.length
                    (filter (fun e : EdgeRecord =>
                               isSwitch (materialize bw links t) (fst (fst e))
                               && isSwitch (materialize bw links t) (snd (fst e))
                               && (String.eqb (fst (fst e)) s
                                   || String.eqb (snd (fst e)) s))
                            (map (fun l : link => (fst l, snd l, bw)) ls)))
                  = count_links_with_switch s ls).
    { induction ls as [|l ls IH]; intros Hls; [reflexivity|].
      assert (Hls' : incl ls links) by (intros x Hx; apply Hls; now right).
      specialize (IH Hls'). cbn [map filter fst snd count_links_with_switch].
      rewrite (isSwitch_same_nodes (materialize bw links t) t (fst l)),
        (isSwitch_same_nodes (materialize bw links t) t (snd l))
        by apply topo_nodes_materialize.
      destruct (Hb l (Hls l (or_introl eq_refl))) as [-> ->]. cbn [andb].
      unfold touches. rewrite (String.eqb_sym (fst l)), (String.eqb_sym (snd l)).
      destruct (String.eqb s (fst l) || String.eqb s (snd l));
        cbn [List.length]; lia. }
    exact (G links (incl_refl _)).
Qed.

(** ** C1: the port budget *)

(** C1, at 4 switches, 4 hosts, 3 ports per switch, 1 host per switch:
    whatever the seed and whatever the generator draws, a construction that
    returns has given every switch one host and three links to other
    switches, one more than the two free ports it has: the port budget of
    every switch is -1. *)
Theorem budget_exceeded (R : RandomSource) (fuel : nat) (g0 : rng R)
  (seed bw : Z) (t : Topo) (g' : rng R) :
  JellyfishTopo fuel g0 seed 4 4 3 1 bw = Ret (t, g') ->
  switches t = ["s1"; "s2"; "s3"; "s4"]%string
  /\ forall s, In s (switches t) ->
       hosts_attached t s = 1 /\ inter_switch_degree t s = 3
       /\ port_budget 3 t s = -1.
Proof.
  unfold JellyfishTopo, create_topology.
  remember (addHosts bw 4 4 3 1 empty_topo) as c eqn:E.
  vm_compute in E. subst c. cbn [bind].
  match goal with
  | |- context [build_links _ _ (switches ?t1) _] =>
      set (T1 := t1);
      assert (HV : switches T1 = ["s1"; "s2"; "s3"; "s4"]%string)
        by (vm_compute; reflexivity);
      rewrite HV
  end.
  unfold build_links.
  pose proof (pairing_all_sound 3
                (all_switches_have ["s1"; "s2"; "s3"; "s4"]%string 3) 6
                ["s1"; "s2"; "s3"; "s4"]%string []
                ltac:(vm_compute; reflexivity)
                fuel (random_seed R seed g0)) as H.
  destruct fuel as [|fuel]; [discriminate|].
  destruct (pairing (S fuel) 3 _) as [b| |]; try discriminate.
  cbn [bind]. unfold all_switches_have in H.
  destruct (switch_list b); [|discriminate].
  rewrite repair_S. cbn [repair_pass for_each bind completed pass_gen pass_links].
  intros Hr. injection Hr as <- <-.
  apply andb_true_iff in H as [Hends Hdeg].
  rewrite forallb_forall in Hends, Hdeg.
  assert (Hb : between_switches T1 (added_links b)).
  { intros l Hl. specialize (Hends l Hl).
    apply andb_true_iff in Hends as [H1 H2].
    assert (K : forall n, mem_string n ["s1"; "s2"; "s3"; "s4"]%string = true ->
                          isSwitch T1 n = true).
    { intros n Hn. unfold mem_string in Hn. apply existsb_exists in Hn
        as (x & Hx & Ex). apply String.eqb_eq in Ex. subst x.
      repeat (destruct Hx as [<-|Hx]; [vm_compute; reflexivity|]).
      destruct Hx. }
    split; now apply K. }
  rewrite switches_materialize, HV. split; [reflexivity|].
  intros s Hs.
  rewrite hosts_attached_materialize, inter_switch_degree_materialize by exact Hb.
  unfold port_budget.
  rewrite hosts_attached_materialize, inter_switch_degree_materialize by exact Hb.
  specialize (Hdeg s Hs). apply Z.eqb_eq in Hdeg. rewrite Hdeg.
  repeat (destruct Hs as [<-|Hs]; [vm_compute; auto|]). destruct Hs.
Qed.

(** C1 on a run of the construction. *)
Lemma budget_exceeded_witness :
  exists t g',
    JellyfishTopo (R := lcg) 100 0 0 4 4 3 1 40 = Ret (t, g')
    /\ switches t = ["s1"; "s2"; "s3"; "s4"]%string
    /\ forall s, In s (switches t) ->
         hosts_attached t s = 1 /\ inter_switch_degree t s = 3
         /\ port_budget 3 t s = -1.
Proof.
  eexists; eexists. split; [vm_compute; reflexivity|].
  eapply (budget_exceeded lcg 100 0 0 40). vm_compute. reflexivity.
Defined.

(** ** Simple graphs: one link per unordered pair *)

Lemma same_pair_other_end (s : string) (l1 l2 : link) :
  touches s l1 = true -> touches s l2 = true ->
  other_end s l1 = other_end s l2 -> same_pair l1 l2 = true.
Proof.
  destruct l1 as [a b], l2 as [c d].
  unfold touches, other_end, same_pair, link_eqb. cbn [fst snd].
  destruct (String.eqb_spec s a) as [<-|Ha], (String.eqb_spec s c) as [<-|Hc];
    cbn [orb]; intros H1 H2 E; subst;
    try (apply String.eqb_eq in H1); try (apply String.eqb_eq in H2); subst;
    rewrite ?String.eqb_refl, ?orb_true_r; reflexivity.
Qed.

Lemma has_duplicate_pair_In (l1 l2 : link) (links : list link) :
  In l1 links -> In l2 links -> l1 <> l2 -> same_pair l1 l2 = true ->
  has_duplicate_pair links = true.
Proof.
  assert (Sym : forall x y, same_pair x y = true -> same_pair y x = true).
  { intros [a b] [c d]. unfold same_pair, link_eqb. cbn [fst snd].
    rewrite !orb_true_iff, !andb_true_iff, !String.eqb_eq.
    intros [[-> ->]|[-> ->]]; auto. }
  induction links as [|x links IH]; simpl; [tauto|].
  intros [->|H1] [->|H2] Hne Hs.
  - contradiction.
  - apply orb_true_iff; left. apply existsb_exists. eauto.
  - apply orb_true_iff; left. apply existsb_exists. eauto.
  - apply orb_true_iff; right. auto.
Qed.

Lemma count_links_filter (s : string) (links : list link) :
  count_links_with_switch s links
  = Z.of_nat (List.length (filter (touches s) links)).
Proof.
  induction links as [|l links IH]; [reflexivity|].
  cbn [count_links_with_switch filter]. rewrite IH.
  destruct (touches s l); cbn [List.length]; lia.
Qed.

Lemma other_ends_NoDup (s : string) (links : list link) :
  has_duplicate_pair links = false ->
  NoDup (map (other_end s) (filter (touches s) links)).
Proof.
  induction links as [|l links IH]; [constructor|].
  cbn [has_duplicate_pair filter]. intros H.
  apply orb_false_iff in H as [H1 H2].
  destruct (touches s l) eqn:T; [|auto].
  cbn [map]. constructor; [|auto].
  intros Hin. apply in_map_iff in Hin as (l2 & E & Hl2).
  apply filter_In in Hl2 as [Hl2 T2].
  assert (existsb (same_pair l) links = true); [|congruence].
  apply existsb_exists. exists l2. split; [assumption|].
  eapply same_pair_other_end; eauto.
Qed.

(** In a simple graph on [vs] a vertex has fewer links than [vs] has
    members. *)
Lemma simple_degree_bound (vs : list string) (s : string) (links : list link) :
  In s vs -> links_within vs links -> has_duplicate_pair links = false ->
  count_links_with_switch s links < Z.of_nat (List.length vs).
Proof.
  intros Hs Hw Hd. rewrite count_links_filter.
  rewrite <- (length_map (other_end s)).
  assert (Hincl : incl (map (other_end s) (filter (touches s) links))
                    (remove string_dec s vs)).
  { intros x Hx. apply in_map_iff in Hx as (l & <- & Hl).
    apply filter_In in Hl as [Hl T].
    destruct (Hw l Hl) as (H1 & H2 & Hne).
    apply in_in_remove.
    - unfold other_end, touches in *.
      destruct (String.eqb_spec s (fst l)) as [E|E]; [congruence|].
      cbn [orb] in T. apply String.eqb_eq in T. congruence.
    - unfold other_end. destruct (String.eqb s (fst l)); assumption. }
  pose proof (NoDup_incl_length (other_ends_NoDup s links Hd) Hincl) as L.
  pose proof (remove_length_lt string_dec vs s Hs). lia.
Qed.

(** ** What the two loops keep: no self-loop, ends among the switches *)

Section Endpoints.

Context {R : RandomSource} (ports : Z).

Lemma links_within_incl (vs vs' : list string) (links : list link) :
  incl vs vs' -> links_within vs links -> links_within vs' links.
Proof.
  intros Hi Hw l Hl. destruct (Hw l Hl) as (H1 & H2 & H3). auto.
Qed.

Lemma pair_up_links_within (vs : list string) (x y : string)
  (sl : list string) (links : list link) (sl' : list string)
  (links' : list link) :
  In x sl -> In y sl -> incl sl vs /\ links_within vs links ->
  pair_up ports x y sl links = Ret (sl', links') ->
  incl sl' vs /\ links_within vs links'.
Proof.
  intros Hx Hy [Hi Hw] Hp.
  destruct (pair_up_Ret ports x y sl links Hx Hy)
    as (sl1 & links1 & Hp1 & I1 & Hrej & Hacc).
  rewrite Hp in Hp1. injection Hp1 as <- <-.
  split; [eapply incl_tran; eauto|].
  destruct (accepted x y links) eqn:A.
  - rewrite (Hacc eq_refl). intros l Hl. apply in_app_or in Hl as [Hl|[<-|[]]].
    + now apply Hw.
    + cbn [fst snd]. split; [auto|]. split; [auto|].
      unfold accepted in A. apply andb_true_iff in A as [A _].
      apply negb_true_iff, String.eqb_neq in A. exact A.
  - destruct (Hrej eq_refl) as [_ ->]. exact Hw.
Qed.

Lemma rewire_links_within (vs sl : list string) :
  incl sl vs ->
  forall switch l links links1,
    In switch sl -> In l links -> switch <> fst l -> switch <> snd l ->
    links_within vs links -> list_remove link_eqb l links = Ret links1 ->
    links_within vs (links1 ++ [(switch, fst l)] ++ [(switch, snd l)]).
Proof.
  intros Hi switch l links links1 Hs Hl N1 N2 Hw Hr x Hx.
  destruct (list_remove_Ret _ _ _ _ link_eqb_eq Hr) as (I1 & _ & _).
  destruct (Hw l Hl) as (L1 & L2 & _).
  apply in_app_or in Hx as [Hx|[<-|[<-|[]]]].
  - apply Hw, I1, Hx.
  - cbn [fst snd]. auto.
  - cbn [fst snd]. auto.
Qed.

(** What holds of the working edge list when both loops have returned:
    the pairing loop stopped with candidate list [sl'], every link joins
    two different switches, and each member of [sl'] passed one of the two
    tests of the repair loop. *)
Lemma build_links_post (fuel : nat) (sl : list string) (g g' : rng R)
  (links : list link) :
  build_links fuel ports sl g = Ret (g', links) ->
  links_within sl links
  /\ exists b,
      pairing fuel ports (mkBuilder g sl []) = Ret b
      /\ incl (switch_list b) sl
      /\ pairing_guard (switch_list b) (added_links b) = false
      /\ forall s, In s (switch_list b) ->
           switch_is_fully_connected s links (switch_list b) = true
           \/ ports - 1 <= count_links_with_switch s links.
Proof.
  unfold build_links. intros H.
  apply bind_Ret_inv in H as (b & H1 & H2).
  pose proof (pairing_ind ports
                (fun sl' links' => incl sl' sl /\ links_within sl links')
                (pair_up_links_within sl) fuel g sl []
                (conj (incl_refl _) (fun l (F : In l []) => match F with end)))
    as P.
  rewrite H1 in P. destruct P as [[Hi Hw] G].
  pose proof (repair_ind ports (links_within sl) (switch_list b)
                (fun switch l links links1 H1 H2 H3 H4 _ =>
                   rewire_links_within sl (switch_list b) Hi
                     switch l links links1 H1 H2 H3 H4)
                fuel (gen b) (added_links b) Hw (guard_false_can_draw _ _ G))
    as Q.
  rewrite H2 in Q. destruct Q as [Hw' Hall].
  split; [exact Hw'|]. exists b. auto.
Qed.

End Endpoints.

Lemma has_duplicate_pair_app_r (xs ys : list link) :
  has_duplicate_pair ys = true -> has_duplicate_pair (xs ++ ys) = true.
Proof.
  intros H. induction xs as [|x xs IH]; [exact H|].
  cbn [app has_duplicate_pair]. rewrite IH. apply orb_true_r.
Qed.

Lemma map_fst_edge_records (bw : Z) (links : list link) :
  map fst (map (fun l : link => (fst l, snd l, bw)) links) = links.
Proof.
  induction links as [|[a b] links IH]; [reflexivity|].
  cbn [map fst snd]. now rewrite IH.
Qed.

(** ** C2: duplicate edges *)

(** C2, at 3 switches, 3 hosts, 4 ports per switch, 1 host per switch:
    whatever the seed and whatever the generator draws, a construction that
    returns has an edge list in which some unordered pair of endpoints
    occurs twice.  The pairing loop, which refuses a pair already linked,
    stops with the triangle on the three switches; the repair loop, which
    makes no such test, stops only when a switch has three links or both
    orientations of its links, and either way a pair is repeated. *)
Theorem repair_duplicates_edges (R : RandomSource) (fuel : nat) (g0 : rng R)
  (seed bw : Z) (t : Topo) (g' : rng R) :
  JellyfishTopo fuel g0 seed 3 3 4 1 bw = Ret (t, g') ->
  has_duplicate_pair (map fst (topo_links t)) = true.
Proof.
  unfold JellyfishTopo, create_topology.
  remember (addHosts bw 3 3 4 1 empty_topo) as c eqn:E.
  vm_compute in E. subst c. cbn [bind].
  match goal with
  | |- context [build_links _ _ (switches ?t1) _] =>
      set (T1 := t1);
      assert (HV : switches T1 = ["s1"; "s2"; "s3"]%string)
        by (vm_compute; reflexivity);
      rewrite HV
  end.
  intros H. apply bind_Ret_inv in H as ([g1 links] & Hb & Hr).
  injection Hr as <- <-.
  destruct (build_links_post 4 _ _ _ _ _ Hb) as (Hw & b & Hp & _ & _ & Hall).
  pose proof (pairing_all_sound 4
                (fun sl _ => list_eqb String.eqb sl ["s1"; "s2"; "s3"]%string) 3
                ["s1"; "s2"; "s3"]%string [] ltac:(vm_compute; reflexivity)
                fuel (random_seed R seed g0)) as P.
  rewrite Hp in P. apply (list_eqb_eq _ String.eqb_eq) in P.
  rewrite P in Hall.
  assert (D : has_duplicate_pair links = true).
  { destruct (has_duplicate_pair links) eqn:Hd; [reflexivity|].
    pose proof (simple_degree_bound ["s1"; "s2"; "s3"]%string "s1" links
                  (or_introl eq_refl) Hw Hd) as Bd.
    cbn [List.length] in Bd.
    destruct (Hall "s1"%string (or_introl eq_refl)) as [F|C]; [|lia].
    unfold switch_is_fully_connected in F. cbn [forallb] in F.
    apply andb_true_iff in F as [_ F]. apply andb_true_iff in F as [F _].
    change (String.eqb "s2" "s1") with false in F. cbn [orb negb] in F.
    apply negb_true_iff, orb_false_iff in F as [F1 F2].
    apply negb_false_iff, link_in_In in F1, F2.
    rewrite <- Hd. eapply has_duplicate_pair_In; [exact F1|exact F2| |];
      [discriminate|reflexivity]. }
  rewrite topo_links_materialize, map_app, map_fst_edge_records.
  apply has_duplicate_pair_app_r, D.
Qed.

(** C2 on a run of the construction. *)
Lemma repair_duplicates_edges_witness :
  exists t g',
    JellyfishTopo (R := lcg) 100 0 0 3 3 4 1 40 = Ret (t, g')
    /\ has_duplicate_pair (map fst (topo_links t)) = true.
Proof.
  eexists; eexists. split; [vm_compute; reflexivity|].
  eapply (repair_duplicates_edges lcg 100 0 0 40). vm_compute. reflexivity.
Defined.

(** ** C4: hosts gathered after the last flush *)

Lemma topo_links_add_links (bw : Z) (sw : string) (hl : list string) (t : Topo) :
  topo_links (fold_left (fun t host => addLink host sw bw t) hl t)
  = topo_links t ++ map (fun h => (h, sw, bw)) hl.
Proof.
  revert t. induction hl as [|h hl IH]; intros t; simpl.
  - now rewrite app_nil_r.
  - rewrite IH. simpl. now rewrite <- app_assoc.
Qed.

Lemma attach_host_links (bw hps k : Z) (st st' : AttachState) :
  0 <= k -> host_links_upto k st -> attach_host bw hps st k = Ret st' ->
  host_links_upto (k + 1) st'.
Proof.
  intros Hk (_ & Hhl & Hlk) Hb.
  assert (Hh : hps <> 0).
  { intros ->. unfold attach_host in Hb. cbv zeta in Hb.
    rewrite (def_nopts_name_str _ _ (id_of_name_name_str_host _)) in Hb.
    discriminate. }
  rewrite attach_host_eq in Hb by assumption. injection Hb as <-.
  assert (Hhl' : forall h, In h (host_list st ++ [host_name (k + 1)]) ->
                   exists m, 1 <= m <= k + 1 /\ h = host_name m).
  { intros h Hin. apply in_app_or in Hin as [Hin|[<-|[]]].
    - destruct (Hhl h Hin) as (m & Hm & ->). exists m. split; [lia|reflexivity].
    - exists (k + 1). split; [lia|reflexivity]. }
  assert (Hlk' : forall e, In e (topo_links (att_topo st)) ->
                   (exists m, 1 <= m <= k + 1 /\ fst (fst e) = host_name m)
                   /\ exists j, snd (fst e) = switch_name j).
  { intros e He. destruct (Hlk e He) as ((m & Hm & E1) & E2).
    split; [exists m; split; [lia|assumption]|assumption]. }
  split; [lia|].
  destruct (k mod hps =? 0); cbn [host_list att_topo].
  - split; [intros h []|].
    intros e He. rewrite topo_links_add_links in He.
    cbn [topo_links addSwitch addHost] in He.
    apply in_app_or in He as [He|He]; [now apply Hlk'|].
    apply in_map_iff in He as (h & <- & Hin). cbn [fst snd].
    split; [now apply Hhl'|eauto].
  - split; [exact Hhl'|exact Hlk'].
Qed.

Lemma switch_records_named (bw nsw nodes ports hps : Z) (t : Topo) :
  addHosts bw nsw nodes ports hps empty_topo = Ret t ->
  forall r, In r (topo_nodes t) -> node_isSwitch r = true ->
            exists j, node_name r = switch_name j.
Proof.
  unfold addHosts, addHosts_clusters, addHosts_fillers. intros H.
  apply bind_Ret_inv in H as (t1 & H1 & H2).
  apply bind_Ret_inv in H1 as (st & H1 & E). injection E as <-.
  apply bind_Ret_inv in H2 as (start & Hd & H2).
  assert (Hh : hps <> 0).
  { intros ->. unfold py_div in Hd. discriminate. }
  set (P := fun l : list NodeRecord =>
              forall r, In r l -> node_isSwitch r = true ->
                        exists j, node_name r = switch_name j).
  assert (I1 : P (topo_nodes (att_topo st))).
  { revert H1. apply (for_each_inv (fun s => P (topo_nodes (att_topo s)))).
    - intros s x s' _ Hs Hb. rewrite attach_host_eq in Hb by assumption.
      injection Hb as <-.
      destruct (x mod hps =? 0); cbn [att_topo];
        rewrite ?topo_nodes_add_links; cbn [topo_nodes addSwitch addHost];
        intros r Hr Hsw;
        repeat (apply in_app_or in Hr as [Hr|[<-|[]]]);
        try (now apply Hs); try discriminate;
        try (eexists; reflexivity).
    - intros r []. }
  rewrite fillers_run in H2. injection H2 as <-. cbn [topo_nodes].
  intros r Hr Hsw. apply in_app_or in Hr as [Hr|Hr]; [now apply I1|].
  apply in_map_iff in Hr as (x & <- & _). eexists; reflexivity.
Qed.

Lemma isSwitch_record (t : Topo) (n : string) :
  isSwitch t n = true ->
  exists r, In r (topo_nodes t) /\ node_name r = n /\ node_isSwitch r = true.
Proof.
  unfold isSwitch.
  destruct (find _ (rev (topo_nodes t))) as [r|] eqn:F; [|discriminate].
  intros H. apply find_some in F as [F1 F2].
  exists r. split; [now apply in_rev|]. split; [now apply String.eqb_eq|exact H].
Qed.

(** Host attachment when the last host does not trigger a flush: its
    record is there, and the links are those made before it. *)
Lemma addHosts_last_host (bw nsw nodes ports hps : Z) (t1 : Topo) :
  0 < nodes -> (nodes - 1) mod hps <> 0 ->
  addHosts bw nsw nodes ports hps empty_topo = Ret t1 ->
  exists st1 extra,
    host_links_upto (nodes - 1) st1
    /\ topo_links t1 = topo_links (att_topo st1)
    /\ topo_nodes t1
       = topo_nodes (att_topo st1)
         ++ [mkNodeRecord (host_name nodes) false (host_opts nodes)] ++ extra.
Proof.
  intros Hn Hmod Ha.
  unfold addHosts, addHosts_clusters, addHosts_fillers in Ha.
  apply bind_Ret_inv in Ha as (tc & Hc & Hf).
  apply bind_Ret_inv in Hc as (st & Hc & E). injection E as <-.
  apply bind_Ret_inv in Hf as (start & Hd & Hf).
  assert (Hh : hps <> 0) by (intros ->; unfold py_div in Hd; discriminate).
  rewrite fillers_run in Hf. injection Hf as <-.
  replace nodes with ((nodes - 1) + 1) in Hc by lia.
  rewrite py_range_snoc, for_each_app in Hc by lia.
  apply bind_Ret_inv in Hc as (st1 & Hc1 & Hlast).
  pose proof (for_range_inv host_links_upto (attach_host bw hps) (nodes - 1)
                (mkAttachState 1 [] empty_topo)
                (conj (Z.le_refl 0)
                   (conj (fun h (F : In h []) => match F with end)
                         (fun e (F : In e []) => match F with end)))
                (fun k s s' Hk => attach_host_links bw hps k s s' (proj1 Hk))
                st1 Hc1) as Hlk.
  replace (Z.max 0 (nodes - 1)) with (nodes - 1) in Hlk by lia.
  cbn [for_each] in Hlast. rewrite attach_host_eq in Hlast by assumption.
  cbn [bind] in Hlast. injection Hlast as <-.
  apply Z.eqb_neq in Hmod. rewrite Hmod. cbn [att_topo topo_nodes topo_links addHost].
  replace (nodes - 1 + 1) with nodes by lia.
  exists st1. eexists. split; [exact Hlk|]. split; [reflexivity|].
  rewrite <- app_assoc. reflexivity.
Qed.

(** C4, as a defect of host attachment.  Whenever hosts_per_switch does not
    divide the host count less one, the last host (its name is h<nodes>
    unless it is host 255) is created and never linked: in every
    construction that returns, whatever the seed and the generator, no edge
    record names it.  The flush to a switch happens on the first host of a
    group, not on the last, and what is gathered after the last flush is
    dropped. *)
Theorem last_host_left_unlinked (R : RandomSource) (fuel : nat) (g0 : rng R)
  (seed nsw nodes ports hps bw : Z) (t : Topo) (g' : rng R) :
  0 < nodes -> nodes <> 255 -> (nodes - 1) mod hps <> 0 ->
  JellyfishTopo fuel g0 seed nsw nodes ports hps bw = Ret (t, g') ->
  In (String "h" (pct_d nodes)) (addHost_calls t)
  /\ link_count t (String "h" (pct_d nodes)) = 0%nat.
Proof.
  intros Hn H255 Hmod. unfold JellyfishTopo, create_topology. intros H.
  apply bind_Ret_inv in H as (t1 & Ha & H).
  apply bind_Ret_inv in H as ([g1 links] & Hb & Hr). injection Hr as <- <-.
  assert (Hname : host_name nodes = String "h" (pct_d nodes)).
  { unfold host_name, name_str, id_of_indices. cbn [host_id].
    destruct (Z.eqb_spec nodes 255); [contradiction|reflexivity]. }
  rewrite <- Hname.
  pose proof (switch_records_named _ _ _ _ _ _ Ha) as Hsw.
  destruct (build_links_post ports _ _ _ _ _ Hb) as (Hw & _).
  destruct (addHosts_last_host _ _ _ _ _ _ Hn Hmod Ha)
    as (st1 & extra & (_ & _ & Hlk) & Elinks & Enodes).
  assert (K : forall n, In n (switches t1) -> n <> host_name nodes).
  { intros n Hin E. unfold switches in Hin. apply filter_In in Hin as [_ Hin].
    apply isSwitch_record in Hin as (r & Hr & Hrn & Hrs).
    destruct (Hsw r Hr Hrs) as (j & Hj).
    rewrite Hrn, E in Hj. now apply host_name_switch_name in Hj. }
  split.
  - unfold addHost_calls. rewrite topo_nodes_materialize, Enodes.
    apply in_map_iff. exists (mkNodeRecord (host_name nodes) false (host_opts nodes)).
    split; [reflexivity|]. apply filter_In. split; [|reflexivity].
    apply in_or_app; right. now left.
  - unfold link_count. rewrite topo_links_materialize, Elinks.
    match goal with
    | |- List.length (filter ?f ?l) = O =>
        assert (F : forall e, In e l -> f e = false)
    end.
    { intros e He. apply orb_false_iff.
      apply in_app_or in He as [He|He].
      - destruct (Hlk e He) as ((m & Hm & E1) & (j & E2)). rewrite E1, E2.
        split; apply String.eqb_neq; intros E.
        + apply host_name_inj in E. lia.
        + symmetry in E. now apply host_name_switch_name in E.
      - apply in_map_iff in He as (l & <- & Hl). cbn [fst snd].
        destruct (Hw l Hl) as (H1 & H2 & _).
        split; apply String.eqb_neq; now apply K. }
    rewrite (filter_ext_in _ (fun _ => false)) by exact F.
    clear. match goal with |- List.length (filter _ ?l) = _ => induction l; auto end.
Qed.

(** C4 on a run: 4 switches, 5 hosts, 4 ports per switch, 3 hosts per
    switch; the clusters are h1 on s1 and h2, h3, h4 on s2, and h5 is
    created and has no link. *)
Lemma last_host_left_unlinked_witness :
  exists t g',
    JellyfishTopo (R := lcg) 100 0 0 4 5 4 3 40 = Ret (t, g')
    /\ In (String "h" (pct_d 5)) (addHost_calls t)
    /\ link_count t (String "h" (pct_d 5)) = 0%nat.
Proof.
  eexists; eexists. split; [vm_compute; reflexivity|].
  eapply (last_host_left_unlinked lcg 100 0 0 4 5 4 3 40);
    [lia|lia|vm_compute; lia|vm_compute; reflexivity].
Defined.

(** ** C5: when the pairing loop drops a candidate *)

Lemma forallb_false_witness {A : Type} (f : A -> bool) (l : list A) :
  forallb f l = false -> exists x, In x l /\ f x = false.
Proof.
  induction l as [|x l IH]; simpl; [discriminate|].
  intros H. apply andb_false_iff in H as [H|H].
  - exists x; auto.
  - destruct (IH H) as (y & Hy & Hf). exists y; auto.
Qed.

Lemma list_remove_NoDup (x : string) (l l' : list string) :
  NoDup l -> list_remove String.eqb x l = Ret l' -> ~ In x l'.
Proof.
  revert l'. induction l as [|y l IH]; simpl; intros l' N H; [discriminate|].
  inversion N as [|? ? Hy N']; subst.
  destruct (String.eqb_spec y x) as [->|Hne].
  - injection H as <-. exact Hy.
  - apply bind_Ret_inv in H as (r & Hr & E). injection E as <-.
    intros [E|Hin]; [congruence|]. exact (IH r N' Hr Hin).
Qed.

(** The rule the code applies to an endpoint: it stays a candidate unless
    its number of links equals ports_per_switch, hosts not counted, or
    every other candidate is linked to it in both orientations. *)
Lemma retire_rule (ports : Z) (sw : string) (links : list link)
  (sl sl' : list string) :
  NoDup sl -> In sw sl -> retire ports sw links sl = Ret sl' ->
  (In sw sl' <->
   count_links_with_switch sw links <> ports
   /\ exists s, In s sl /\ s <> sw
                /\ ~ (In (sw, s) links /\ In (s, sw) links)).
Proof.
  intros N Hin H. unfold retire in H.
  destruct (Z.eqb_spec (count_links_with_switch sw links) ports) as [C|C];
    cbn [orb] in H.
  - split; [|tauto]. intros Hs. exfalso. exact (list_remove_NoDup _ _ _ N H Hs).
  - destruct (switch_is_fully_connected sw links sl) eqn:F.
    + split; [intros Hs; exfalso; exact (list_remove_NoDup _ _ _ N H Hs)|].
      intros (_ & s & Hs & Hne & Hnot). exfalso. apply Hnot.
      unfold switch_is_fully_connected in F. rewrite forallb_forall in F.
      specialize (F s Hs). apply orb_true_iff in F as [F|F].
      * apply String.eqb_eq in F. contradiction.
      * apply negb_true_iff, orb_false_iff in F as [F1 F2].
        apply negb_false_iff, link_in_In in F1, F2. auto.
    + injection H as <-. split; [|auto]. intros _. split; [exact C|].
      unfold switch_is_fully_connected in F.
      apply forallb_false_witness in F as (s & Hs & F).
      apply orb_false_iff in F as [F1 F2].
      exists s. split; [exact Hs|]. split; [now apply String.eqb_neq|].
      intros [L1 L2]. apply link_in_In in L1, L2. rewrite L1, L2 in F2.
      discriminate.
Qed.

(** C5, where the code departs from it.  With candidates s1 and s2 and 4
    ports per switch, after the link (s1, s2) is added s1 is adjacent to
    every other candidate, yet both stay candidates.  With three switches
    of 2 ports and one host each, s1 has one free port; after the link
    (s1, s2) its edge count has reached that budget, yet it stays a
    candidate, since the count is compared with ports_per_switch. *)
Theorem saturated_endpoint_stays_candidate :
  (pair_up 4 "s1" "s2" ["s1"; "s2"] []
   = Ret (["s1"; "s2"], [("s1", "s2")])
   /\ forallb (fun s => String.eqb s "s1" || adjacent [("s1", "s2")] "s1" s)
        ["s1"; "s2"] = true)%string
  /\ (exists t1,
        addHosts 40 3 3 2 1 empty_topo = Ret t1
        /\ switches t1 = ["s1"; "s2"; "s3"]
        /\ 2 - hosts_attached t1 "s1" = 1
        /\ count_links_with_switch "s1" [("s1", "s2")] = 1
        /\ pair_up 2 "s1" "s2" (switches t1) []
           = Ret (["s1"; "s2"; "s3"], [("s1", "s2")]))%string.
Proof.
  split; [split; reflexivity|].
  eexists. split; [vm_compute; reflexivity|].
  repeat split; vm_compute; reflexivity.
Qed.

(** ** The part of C2 that holds: no self-loop *)

(** Neither loop adds a link from a switch to itself, and every link joins
    two members of the switch list the loops were started with. *)
Lemma build_links_no_self_loop (R : RandomSource) (fuel : nat) (ports : Z)
  (sl : list string) (g g' : rng R) (links : list link) :
  build_links fuel ports sl g = Ret (g', links) ->
  has_self_loop links = false /\ links_within sl links.
Proof.
  intros H. destruct (build_links_post ports _ _ _ _ _ H) as (Hw & _).
  split; [|exact Hw].
  destruct (has_self_loop links) eqn:E; [|reflexivity].
  unfold has_self_loop in E.
  apply existsb_exists in E as (l & Hl & E). apply String.eqb_eq in E.
  destruct (Hw l Hl) as (_ & _ & N). contradiction.
Qed.

(** ** What the code does keep of C1: at most ports_per_switch links *)

Lemma distinct_names_spec (seen : list string) (l : list NodeRecord) :
  NoDup (distinct_names seen l)
  /\ forall x, In x (distinct_names seen l) -> ~ In x seen.
Proof.
  revert seen. induction l as [|r l IH]; intros seen; simpl.
  - split; [constructor|intros x []].
  - destruct (mem_string (node_name r) seen) eqn:M; [apply IH|].
    destruct (IH (node_name r :: seen)) as [N K].
    split.
    + constructor; [|exact N]. intros Hin. apply (K _ Hin). now left.
    + intros x [<-|Hx].
      * intros Hin. unfold mem_string in M.
        assert (existsb (String.eqb (node_name r)) seen = true); [|congruence].
        apply existsb_exists. exists (node_name r). split; [exact Hin|].
        apply String.eqb_refl.
      * intros Hin. apply (K _ Hx). now right.
Qed.

Lemma switches_NoDup (t : Topo) : NoDup (switches t).
Proof. unfold switches. apply NoDup_filter, distinct_names_spec. Qed.

Lemma count_links_app (s : string) (l1 l2 : list link) :
  count_links_with_switch s (l1 ++ l2)
  = count_links_with_switch s l1 + count_links_with_switch s l2.
Proof.
  induction l1 as [|l l1 IH]; [reflexivity|].
  cbn [app count_links_with_switch]. rewrite IH. lia.
Qed.

Lemma count_links_nonneg (s : string) (links : list link) :
  0 <= count_links_with_switch s links.
Proof.
  induction links as [|l links IH]; cbn [count_links_with_switch]; [lia|].
  destruct (touches s l); lia.
Qed.

Lemma count_links_remove (s : string) (l : link) (links links1 : list link) :
  list_remove link_eqb l links = Ret links1 ->
  count_links_with_switch s links
  = count_links_with_switch s links1 + (if touches s l then 1 else 0).
Proof.
  revert links1. induction links as [|x links IH]; intros links1 H;
    [discriminate|].
  cbn [list_remove] in H. destruct (link_eqb x l) eqn:E.
  - injection H as <-. apply link_eqb_eq in E. subst x.
    cbn [count_links_with_switch]. lia.
  - apply bind_Ret_inv in H as (r & Hr & E'). injection E' as <-.
    cbn [count_links_with_switch]. rewrite (IH r Hr). lia.
Qed.

Lemma list_remove_keeps_NoDup (x : string) (l l' : list string) :
  NoDup l -> list_remove String.eqb x l = Ret l' -> NoDup l'.
Proof.
  revert l'. induction l as [|y l IH]; intros l' N H; [discriminate|].
  inversion N as [|? ? Hy N']; subst. cbn [list_remove] in H.
  destruct (String.eqb y x).
  - injection H as <-. exact N'.
  - apply bind_Ret_inv in H as (r & Hr & E). injection E as <-.
    constructor; [|now apply IH].
    intros Hin. apply Hy.
    destruct (list_remove_Ret _ _ _ _ String.eqb_eq Hr) as (I1 & _). now apply I1.
Qed.

Lemma retire_keeps_NoDup (ports : Z) (sw : string) (links : list link)
  (sl sl' : list string) :
  NoDup sl -> retire ports sw links sl = Ret sl' -> NoDup sl'.
Proof.
  unfold retire. intros N H.
  destruct (_ || _); [eapply list_remove_keeps_NoDup; eauto|].
  injection H as <-. exact N.
Qed.

Lemma pair_up_accepted (ports : Z) (x y : string) (sl : list string)
  (links : list link) (sl' : list string) (links' : list link) :
  accepted x y links = true ->
  pair_up ports x y sl links = Ret (sl', links') ->
  x <> y /\ links' = links ++ [(x, y)]
  /\ exists sl1, retire ports x links' sl = Ret sl1
                 /\ retire ports y links' sl1 = Ret sl'.
Proof.
  unfold accepted, pair_up. intros A H.
  apply andb_true_iff in A as [A1 A2].
  apply negb_true_iff in A1, A2. rewrite A1, A2 in H.
  apply String.eqb_neq in A1.
  apply bind_Ret_inv in H as (sl1 & H1 & H).
  apply bind_Ret_inv in H as (sl2 & H2 & E). injection E as <- <-.
  split; [exact A1|]. split; [reflexivity|]. eauto.
Qed.

Section DegreeCap.

Context {R : RandomSource} (ports : Z) (vs : list string).
Hypothesis ports_pos : 1 <= ports.

Lemma pair_up_under_cap (x y : string) (sl : list string) (links : list link)
  (sl' : list string) (links' : list link) :
  In x sl -> In y sl -> under_cap ports vs sl links ->
  pair_up ports x y sl links = Ret (sl', links') ->
  under_cap ports vs sl' links'.
Proof.
  intros Hx Hy (N & Hi & Hw & Hc) Hp.
  destruct (pair_up_links_within ports vs x y sl links sl' links' Hx Hy
              (conj Hi Hw) Hp) as [Hi' Hw'].
  destruct (accepted x y links) eqn:A.
  - destruct (pair_up_accepted ports x y sl links sl' links' A Hp)
      as (Hne & -> & sl1 & H1 & H2).
    pose proof (retire_keeps_NoDup _ _ _ _ _ N H1) as N1.
    pose proof (retire_keeps_NoDup _ _ _ _ _ N1 H2) as N2.
    destruct (retire_Ret ports x (links ++ [(x, y)]) sl Hx) as (sl1' & E1 & I1 & K1).
    rewrite H1 in E1. injection E1 as <-.
    assert (Hy1 : In y sl1) by (apply K1; [assumption|congruence]).
    destruct (retire_Ret ports y (links ++ [(x, y)]) sl1 Hy1) as (sl2' & E2 & I2 & _).
    rewrite H2 in E2. injection E2 as <-.
    assert (Cnt : forall s, count_links_with_switch s (links ++ [(x, y)])
                            = count_links_with_switch s links
                              + (if touches s (x, y) then 1 else 0)).
    { intros s. rewrite count_links_app. cbn [count_links_with_switch]. lia. }
    assert (T : forall s, touches s (x, y) = true -> s = x \/ s = y).
    { intros s. unfold touches. cbn [fst snd]. rewrite orb_true_iff, !String.eqb_eq.
      tauto. }
    split; [exact N2|]. split; [exact Hi'|]. split; [exact Hw'|].
    intros s. rewrite Cnt. destruct (Hc s) as [C1 C2].
    destruct (touches s (x, y)) eqn:Ts.
    + assert (Hs : In s sl) by (destruct (T s Ts) as [->| ->]; assumption).
      specialize (C2 Hs). split; [lia|]. intros Hs'.
      assert (count_links_with_switch s (links ++ [(x, y)]) <> ports);
        [|rewrite Cnt, Ts in *; lia].
      destruct (T s Ts) as [->| ->].
      * apply (proj1 (retire_rule ports x _ sl sl1 N Hx H1)). now apply I2.
      * apply (proj1 (retire_rule ports y _ sl1 sl' N1 Hy1 H2)). exact Hs'.
    + split; [lia|]. intros Hs'.
      assert (In s sl) by (apply I1, I2, Hs'). specialize (C2 H). lia.
  - destruct (pair_up_Ret ports x y sl links Hx Hy) as (sl1 & links1 & E & _ & Hrej & _).
    rewrite Hp in E. injection E as <- <-.
    destruct (Hrej A) as [-> ->].
    split; [exact N|]. split; [exact Hi|]. split; [exact Hw|]. exact Hc.
Qed.

Lemma rewire_under_cap (sl : list string) :
  incl sl vs ->
  forall switch l links links1,
    In switch sl -> In l links -> switch <> fst l -> switch <> snd l ->
    (links_within vs links
     /\ forall s, count_links_with_switch s links <= ports) ->
    list_remove link_eqb l links = Ret links1 ->
    count_links_with_switch switch links < ports - 1 ->
    links_within vs (links1 ++ [(switch, fst l)] ++ [(switch, snd l)])
    /\ forall s, count_links_with_switch s
                   (links1 ++ [(switch, fst l)] ++ [(switch, snd l)]) <= ports.
Proof.
  intros Hi switch l links links1 Hs Hl N1 N2 [Hw Hc] Hr Hlt.
  split; [eapply rewire_links_within; eauto|].
  intros s. rewrite !count_links_app. cbn [count_links_with_switch].
  pose proof (count_links_remove s l links links1 Hr) as E.
  destruct (Hw l Hl) as (_ & _ & Hne).
  specialize (Hc s). unfold touches in *. cbn [fst snd] in *.
  destruct (String.eqb_spec s switch) as [->|Hsw]; cbn [orb].
  - destruct (String.eqb_spec switch (fst l)); [contradiction|].
    destruct (String.eqb_spec switch (snd l)); [contradiction|].
    cbn [orb] in E. lia.
  - destruct (String.eqb_spec s (fst l)) as [E1|H1],
             (String.eqb_spec s (snd l)) as [E2|H2]; cbn [orb] in *;
      try congruence; lia.
Qed.

End DegreeCap.

(** When both loops have returned, no switch has more than
    ports_per_switch links in the working edge list; the hosts of the
    switch play no part in the bound. *)
Lemma degree_at_most_ports (R : RandomSource) (fuel : nat) (ports : Z)
  (sl : list string) (g g' : rng R) (links : list link) :
  1 <= ports -> NoDup sl -> build_links fuel ports sl g = Ret (g', links) ->
  forall s, count_links_with_switch s links <= ports.
Proof.
  intros Hp N H. unfold build_links in H.
  apply bind_Ret_inv in H as (b & H1 & H2).
  assert (Init : under_cap ports sl sl []).
  { split; [exact N|]. split; [apply incl_refl|]. split; [intros l []|].
    intros s. cbn [count_links_with_switch]. lia. }
  pose proof (pairing_ind ports (under_cap ports sl)
                (pair_up_under_cap ports sl) fuel g sl [] Init) as P.
  rewrite H1 in P. destruct P as [(_ & Hi & Hw & Hc) G].
  pose proof (repair_ind ports
                (fun links => links_within sl links
                              /\ forall s, count_links_with_switch s links <= ports)
                (switch_list b)
                (fun switch l links links1 K1 K2 K3 K4 Hlt Hinv Hr =>
                   rewire_under_cap ports sl (switch_list b) Hi
                     switch l links links1 K1 K2 K3 K4 Hinv Hr Hlt)
                fuel (gen b) (added_links b)
                (conj Hw (fun s => proj1 (Hc s)))
                (guard_false_can_draw _ _ G)) as Q.
  rewrite H2 in Q. destruct Q as [[_ Hc'] _]. exact Hc'.
Qed.

(** ** Address strings *)

Lemma all_bytes_spec (P : Z -> bool) :
  all_bytes P = true -> forall v, 0 <= v < 256 -> P v = true.
Proof.
  unfold all_bytes. rewrite forallb_forall. intros H v Hv.
  replace v with (Z.of_nat (Z.to_nat v)) by lia. apply H, in_seq. lia.
Qed.

Lemma byte_lo (d : Z) : Z.land d 0xff = d mod 256.
Proof. change 0xff with (Z.ones 8). now rewrite Z.land_ones by lia. Qed.

Lemma byte_mid (d : Z) : Z.shiftr (Z.land d 0xff00) 8 = (d / 256) mod 256.
Proof.
  rewrite Z.shiftr_land. change (Z.shiftr 0xff00 8) with (Z.ones 8).
  rewrite Z.land_ones, Z.shiftr_div_pow2 by lia. reflexivity.
Qed.

Lemma low16_bytes (d : Z) :
  256 * ((d / 256) mod 256) + d mod 256 = d mod 65536.
Proof.
  change 65536 with (256 * 256). rewrite Z.rem_mul_r by lia. lia.
Qed.

Lemma pct_02x_length (v : Z) :
  0 <= v < 256 -> String.length (pct_02x v) = 2%nat.
Proof.
  intros Hv.
  pose proof (all_bytes_spec (fun v => Nat.eqb (String.length (pct_02x v)) 2)
                ltac:(vm_compute; reflexivity) v Hv) as H.
  now apply Nat.eqb_eq in H.
Qed.

Lemma pct_02x_inj (a b : Z) :
  0 <= a < 256 -> 0 <= b < 256 -> pct_02x a = pct_02x b -> a = b.
Proof.
  intros Ha Hb E.
  pose proof (all_bytes_spec
                (fun a => all_bytes
                            (fun b => implb (String.eqb (pct_02x a) (pct_02x b))
                                        (a =? b)))
                ltac:(vm_compute; reflexivity) a Ha) as H.
  pose proof (all_bytes_spec _ H b Hb) as H'. cbv beta in H'.
  rewrite E, String.eqb_refl in H'. now apply Z.eqb_eq.
Qed.

Lemma append_length (s t : string) :
  String.length (s ++ t) = (String.length s + String.length t)%nat.
Proof. induction s as [|c s IH]; simpl; auto. Qed.

Lemma string_of_uint_no_dot (u : Decimal.uint) :
  has_char "." (NilEmpty.string_of_uint u) = false.
Proof. induction u; simpl; auto. Qed.

Lemma pct_d_no_dot (z : Z) : has_char "." (pct_d z) = false.
Proof.
  destruct z as [|p|p]; [reflexivity| |]; unfold pct_d; simpl;
    destruct (Pos.to_uint p); try reflexivity; simpl;
    apply string_of_uint_no_dot.
Qed.

Lemma split_at_char (c : ascii) (s1 s2 t1 t2 : string) :
  has_char c s1 = false -> has_char c s2 = false ->
  (s1 ++ String c t1 = s2 ++ String c t2)%string -> s1 = s2 /\ t1 = t2.
Proof.
  revert s2. induction s1 as [|a s1 IH]; intros [|b s2]; simpl; intros H1 H2 E.
  - injection E as <-. auto.
  - injection E as <- _. rewrite Ascii.eqb_refl in H2. discriminate.
  - injection E as -> _. rewrite Ascii.eqb_refl in H1. discriminate.
  - injection E as <- E. apply orb_false_iff in H1 as [_ H1].
    apply orb_false_iff in H2 as [_ H2].
    destruct (IH s2 H1 H2 E) as [-> ->]. auto.
Qed.

Lemma two_chars (s : string) :
  String.length s = 2%nat -> exists a b, s = String a (String b EmptyString).
Proof.
  destruct s as [|a [|b [|c s]]]; simpl; try discriminate. eauto.
Qed.

Lemma address_strings_eq (i : JellyfishNodeID) :
  addr_bytes i = ((dpid i / 256) mod 256, dpid i mod 256)
  /\ ip_str i
     = ("10.0." ++ pct_d ((dpid i / 256) mod 256) ++ "."
        ++ pct_d (dpid i mod 256))%string
  /\ mac_str i
     = ("00:00:00:00:" ++ pct_02x ((dpid i / 256) mod 256) ++ ":"
        ++ pct_02x (dpid i mod 256))%string.
Proof.
  unfold addr_bytes, ip_str, mac_str. cbv zeta. rewrite byte_mid, byte_lo.
  repeat split.
Qed.

(** X1.  Whatever the composite id of an identity, negative or beyond 16
    bits, [ip_str] and [mac_str] print the two low bytes of it: two numbers
    between 0 and 255 that make up the id modulo 65536, in decimal after
    "10.0." and as two hexadecimal digits each after "00:00:00:00:"; the
    link-layer address always has 17 characters. *)
Theorem address_strings_print_low_bytes (i : JellyfishNodeID) :
  exists a b,
    addr_bytes i = (a, b)
    /\ 0 <= a < 256 /\ 0 <= b < 256 /\ 256 * a + b = dpid i mod 65536
    /\ ip_str i = ("10.0." ++ pct_d a ++ "." ++ pct_d b)%string
    /\ mac_str i = ("00:00:00:00:" ++ pct_02x a ++ ":" ++ pct_02x b)%string
    /\ String.length (mac_str i) = 17%nat.
Proof.
  exists ((dpid i / 256) mod 256), (dpid i mod 256).
  assert (Ha : 0 <= (dpid i / 256) mod 256 < 256) by (apply Z.mod_pos_bound; lia).
  assert (Hb : 0 <= dpid i mod 256 < 256) by (apply Z.mod_pos_bound; lia).
  destruct (address_strings_eq i) as (E & Ei & Em).
  split; [exact E|]. split; [exact Ha|]. split; [exact Hb|].
  split; [apply low16_bytes|]. split; [exact Ei|]. split; [exact Em|].
  rewrite Em, !append_length, !pct_02x_length by assumption. reflexivity.
Qed.

Lemma host_dpid (n : Z) : dpid (id_of_indices n n) = 257 * n.
Proof.
  unfold id_of_indices; cbn [dpid]. rewrite Z.shiftl_mul_pow2 by lia.
  change (2 ^ 8) with 256. lia.
Qed.

Lemma host_low16_inj (n m : Z) :
  0 <= n < 65536 -> 0 <= m < 65536 ->
  (257 * n) mod 65536 = (257 * m) mod 65536 -> n = m.
Proof.
  intros Hn Hm E.
  assert (D : (65536 | 257 * (n - m))).
  { apply Z.mod_divide; [lia|].
    replace (257 * (n - m)) with (257 * n - 257 * m) by lia.
    rewrite Zminus_mod, E, Z.sub_diag. reflexivity. }
  apply Z.gauss in D; [|reflexivity].
  destruct D as [k Hk]. assert (k = 0) by lia. lia.
Qed.

(** X2.  A host whose index n is below 256 has the network-layer address
    10.0.n.n and a link-layer address ending in the two hexadecimal digits
    of n, twice.  Two hosts with different indices below 65536 never have
    the same network-layer address, nor the same link-layer address. *)
Theorem host_addresses (n m : Z) :
  (0 <= n < 256 ->
   ip_str (id_of_indices n n) = ("10.0." ++ pct_d n ++ "." ++ pct_d n)%string
   /\ mac_str (id_of_indices n n)
      = ("00:00:00:00:" ++ pct_02x n ++ ":" ++ pct_02x n)%string)
  /\ (0 <= n < 65536 -> 0 <= m < 65536 -> n <> m ->
      ip_str (id_of_indices n n) <> ip_str (id_of_indices m m)
      /\ mac_str (id_of_indices n n) <> mac_str (id_of_indices m m)).
Proof.
  split.
  - intros Hn. unfold ip_str, mac_str. cbv zeta.
    rewrite byte_mid, byte_lo, host_dpid.
    replace ((257 * n / 256) mod 256) with n.
    2:{ replace (257 * n) with (n + n * 256) by lia.
        rewrite Z.div_add, Z.div_small by lia. rewrite Z.mod_small; lia. }
    replace ((257 * n) mod 256) with n.
    2:{ replace (257 * n) with (n + n * 256) by lia.
        rewrite Z.mod_add by lia. rewrite Z.mod_small; lia. }
    split; reflexivity.
  - intros Hn Hm Hne.
    assert (K : forall a b a' b',
              0 <= a < 256 -> 0 <= b < 256 -> 0 <= a' < 256 -> 0 <= b' < 256 ->
              256 * a + b = (257 * n) mod 65536 ->
              256 * a' + b' = (257 * m) mod 65536 ->
              a = a' -> b = b' -> False).
    { intros a b a' b' _ _ _ _ E1 E2 -> ->. apply Hne.
      apply host_low16_inj; [assumption|assumption|congruence]. }
    destruct (address_strings_eq (id_of_indices n n)) as (_ & I1 & M1).
    destruct (address_strings_eq (id_of_indices m m)) as (_ & I2 & M2).
    pose proof (low16_bytes (dpid (id_of_indices n n))) as E1.
    pose proof (low16_bytes (dpid (id_of_indices m m))) as E2.
    set (a := (dpid (id_of_indices n n) / 256) mod 256) in *.
    set (b := dpid (id_of_indices n n) mod 256) in *.
    set (a' := (dpid (id_of_indices m m) / 256) mod 256) in *.
    set (b' := dpid (id_of_indices m m) mod 256) in *.
    assert (Ha : 0 <= a < 256) by (apply Z.mod_pos_bound; lia).
    assert (Hb : 0 <= b < 256) by (apply Z.mod_pos_bound; lia).
    assert (Ha' : 0 <= a' < 256) by (apply Z.mod_pos_bound; lia).
    assert (Hb' : 0 <= b' < 256) by (apply Z.mod_pos_bound; lia).
    rewrite host_dpid in E1, E2. rewrite I1, I2, M1, M2.
    split; intros E.
    + simpl in E. injection E as E.
      apply split_at_char in E as [Ea Eb]; try apply pct_d_no_dot.
      apply pct_d_inj in Ea, Eb. exact (K a b a' b' Ha Hb Ha' Hb' E1 E2 Ea Eb).
    + simpl in E. injection E as E.
      destruct (two_chars _ (pct_02x_length a Ha)) as (x1 & x2 & Xa).
      destruct (two_chars _ (pct_02x_length a' Ha')) as (y1 & y2 & Xa').
      rewrite Xa, Xa' in E. simpl in E. injection E as E1' E2' E3'.
      assert (Ea : a = a') by (apply pct_02x_inj; congruence).
      assert (Eb : b = b') by (apply pct_02x_inj; assumption).
      exact (K a b a' b' Ha Hb Ha' Hb' E1 E2 Ea Eb).
Qed.

(** X2 on hosts 7 and 300. *)
Lemma host_addresses_witness :
  (ip_str (id_of_indices 7 7) = ("10.0." ++ pct_d 7 ++ "." ++ pct_d 7)%string
   /\ mac_str (id_of_indices 7 7)
      = ("00:00:00:00:" ++ pct_02x 7 ++ ":" ++ pct_02x 7)%string)
  /\ ip_str (id_of_indices 7 7) <> ip_str (id_of_indices 300 300)
  /\ mac_str (id_of_indices 7 7) <> mac_str (id_of_indices 300 300).
Proof.
  split.
  - apply (proj1 (host_addresses 7 300)). lia.
  - apply (proj2 (host_addresses 7 300)); lia.
Defined.

(** X3.  An identity made from a composite id d keeps d as its composite
    id, but its two indices are bytes and hold d modulo 65536 only:
    building the identity again from these indices gives back the composite
    id d exactly when 0 <= d < 65536. *)
Theorem id_of_dpid_indices (d : Z) :
  0 <= switch_id (id_of_dpid d) < 256
  /\ 0 <= host_id (id_of_dpid d) < 256
  /\ dpid (id_of_indices (switch_id (id_of_dpid d)) (host_id (id_of_dpid d)))
     = d mod 65536
  /\ (id_of_indices (switch_id (id_of_dpid d)) (host_id (id_of_dpid d))
      = id_of_dpid d <-> 0 <= d < 65536).
Proof.
  unfold id_of_dpid, id_of_indices; cbn [switch_id host_id dpid].
  rewrite byte_mid, byte_lo.
  assert (Ha : 0 <= (d / 256) mod 256 < 256) by (apply Z.mod_pos_bound; lia).
  assert (Hb : 0 <= d mod 256 < 256) by (apply Z.mod_pos_bound; lia).
  assert (E : Z.shiftl ((d / 256) mod 256) 8 + d mod 256 = d mod 65536).
  { rewrite Z.shiftl_mul_pow2 by lia. change (2 ^ 8) with 256.
    rewrite <- low16_bytes. lia. }
  split; [exact Ha|]. split; [exact Hb|]. split; [exact E|].
  rewrite E. split.
  - intros H. injection H as H. rewrite <- H. apply Z.mod_pos_bound. lia.
  - intros H. rewrite (Z.mod_small d 65536) by lia. reflexivity.
Qed.

(** ** Host attachment in closed form *)

Lemma py_range_length (a b : Z) : List.length (py_range a b) = Z.to_nat (b - a).
Proof. unfold py_range. now rewrite length_map, length_seq. Qed.

Lemma py_range_nil (a b : Z) : b <= a -> py_range a b = [].
Proof. intros H. unfold py_range. now replace (Z.to_nat (b - a)) with O by lia. Qed.

Lemma py_range_app (a b c : Z) :
  a <= b <= c -> py_range a c = py_range a b ++ py_range b c.
Proof.
  intros H. unfold py_range.
  replace (Z.to_nat (c - a)) with (Z.to_nat (b - a) + Z.to_nat (c - b))%nat by lia.
  rewrite seq_app, map_app. f_equal.
  assert (G : forall n s, map (fun i => a + Z.of_nat i) (seq (Z.to_nat (b - a) + s) n)
                          = map (fun i => b + Z.of_nat i) (seq s n)).
  { induction n as [|n IH]; intros s; [reflexivity|]. simpl.
    rewrite <- (IH (S s)). f_equal; [lia|]. f_equal. f_equal. lia. }
  replace (0 + Z.to_nat (b - a))%nat with (Z.to_nat (b - a) + 0)%nat by lia.
  apply G.
Qed.

Lemma py_range_NoDup (a b : Z) : NoDup (py_range a b).
Proof.
  unfold py_range. apply NoDup_map_NoDup_ForallPairs; [|apply seq_NoDup].
  intros x y _ _ H. lia.
Qed.

Lemma count_in_NoDup (m : Z) (l : list Z) :
  NoDup l ->
  List.length (filter (fun x => x =? m) l) = if in_dec Z.eq_dec m l then 1%nat else 0%nat.
Proof.
  induction l as [|x l IH]; intros N; [reflexivity|].
  inversion N as [|? ? Hx N']; subst. cbn [filter].
  destruct (Z.eqb_spec x m) as [->|Hne].
  - cbn [List.length]. rewrite (IH N').
    destruct (in_dec Z.eq_dec m l); [contradiction|].
    destruct (in_dec Z.eq_dec m (m :: l)) as [_|F]; [reflexivity|].
    exfalso; apply F; now left.
  - rewrite (IH N').
    destruct (in_dec Z.eq_dec m l) as [I|I], (in_dec Z.eq_dec m (x :: l)) as [J|J];
      try reflexivity.
    + exfalso; apply J; now right.
    + destruct J as [J|J]; [contradiction|contradiction].
Qed.

Lemma count_in_range (m a b : Z) :
  List.length (filter (fun x => x =? m) (py_range a b))
  = if (a <=? m) && (m <? b) then 1%nat else 0%nat.
Proof.
  rewrite (count_in_NoDup m _ (py_range_NoDup a b)).
  destruct (in_dec Z.eq_dec m (py_range a b)) as [I|I];
    rewrite in_py_range in I;
    destruct (Z.leb_spec a m), (Z.ltb_spec m b); cbn [andb]; try reflexivity; lia.
Qed.

(** ** addHosts: which host goes where *)

Lemma div_mod_parts (hps q r : Z) :
  0 <= r < hps -> (r + q * hps) / hps = q /\ (r + q * hps) mod hps = r.
Proof.
  intros Hr. split.
  - rewrite Z.div_add by lia. rewrite Z.div_small by lia. lia.
  - rewrite Z.mod_add by lia. apply Z.mod_small. lia.
Qed.

Lemma linked_hosts_bounds (hps k : Z) :
  0 < hps -> 0 <= k -> 0 <= linked_hosts k hps <= k.
Proof.
  intros Hh Hk. unfold linked_hosts.
  destruct (Z.leb_spec k 0); [lia|].
  pose proof (Z.mod_pos_bound (k - 1) hps Hh).
  pose proof (Z.mod_le (k - 1) hps ltac:(lia) Hh). lia.
Qed.

Lemma linked_hosts_flush (hps k : Z) :
  0 <= k -> k mod hps = 0 -> linked_hosts (k + 1) hps = k + 1.
Proof.
  intros Hk Hm. unfold linked_hosts.
  destruct (Z.leb_spec (k + 1) 0); [lia|].
  replace (k + 1 - 1) with k by lia. lia.
Qed.

Lemma linked_hosts_keep (hps k : Z) :
  0 < hps -> 0 <= k -> k mod hps <> 0 ->
  linked_hosts (k + 1) hps = linked_hosts k hps.
Proof.
  intros Hh Hk Hm. unfold linked_hosts.
  destruct (Z.leb_spec (k + 1) 0); [lia|].
  destruct (Z.leb_spec k 0) as [H0|H0].
  { assert (k = 0) by lia. subst. rewrite Z.mod_0_l in Hm by lia. lia. }
  replace (k + 1 - 1) with k by lia.
  pose proof (Z.div_mod k hps ltac:(lia)) as E.
  pose proof (Z.mod_pos_bound k hps Hh) as B.
  replace (k - 1) with ((k mod hps - 1) + (k / hps) * hps) by lia.
  rewrite (proj2 (div_mod_parts hps (k / hps) (k mod hps - 1) ltac:(lia))). lia.
Qed.

Lemma cluster_of_flush (hps k m : Z) :
  0 < hps -> 0 <= k -> k mod hps = 0 ->
  linked_hosts k hps + 1 <= m <= k + 1 ->
  cluster_of hps m = 1 + (k + hps - 1) / hps.
Proof.
  intros Hh Hk Hm Hr. unfold cluster_of, linked_hosts in *.
  pose proof (Z.div_mod k hps ltac:(lia)) as E. rewrite Hm in E.
  destruct (Z.leb_spec k 0) as [H0|H0].
  - assert (k = 0) by lia. subst k. replace m with 1 by lia.
    replace (1 + hps - 2) with (0 + hps - 1) by lia. lia.
  - assert (Hq : 1 <= k / hps) by nia.
    replace (k - 1) with ((hps - 1) + (k / hps - 1) * hps) in Hr by lia.
    rewrite (proj2 (div_mod_parts hps (k / hps - 1) (hps - 1) ltac:(lia))) in Hr.
    replace (m + hps - 2) with ((m + hps - 2 - k) + (k / hps) * hps) by lia.
    replace (k + hps - 1) with ((hps - 1) + (k / hps) * hps) by lia.
    rewrite (proj1 (div_mod_parts hps (k / hps) (m + hps - 2 - k) ltac:(lia))).
    rewrite (proj1 (div_mod_parts hps (k / hps) (hps - 1) ltac:(lia))). lia.
Qed.

Lemma addHost_calls_add_links (bw : Z) (sw : string) (hl : list string)
  (t : Topo) :
  addHost_calls (fold_left (fun t host => addLink host sw bw t) hl t)
  = addHost_calls t.
Proof. unfold addHost_calls. now rewrite topo_nodes_add_links. Qed.

Lemma addHost_calls_addSwitch (n : string) (o : NodeOpts) (t : Topo) :
  addHost_calls (addSwitch n o t) = addHost_calls t.
Proof.
  unfold addHost_calls, addSwitch; simpl.
  rewrite filter_app, map_app. simpl. apply app_nil_r.
Qed.

Lemma addHost_calls_addHost (n : string) (o : NodeOpts) (t : Topo) :
  addHost_calls (addHost n o t) = addHost_calls t ++ [n].
Proof.
  unfold addHost_calls, addHost; simpl. now rewrite filter_app, map_app.
Qed.

Lemma attach_host_upto (bw hps k : Z) (st st' : AttachState) :
  0 < hps -> attached_upto bw hps k st ->
  attach_host bw hps st k = Ret st' -> attached_upto bw hps (k + 1) st'.
Proof.
  intros Hh (Hk & Hn & Hl & Hlk & Hc) Hb.
  rewrite attach_host_eq in Hb by lia. injection Hb as <-.
  pose proof (linked_hosts_bounds hps k Hh Hk) as HL.
  assert (Hhl : host_list st ++ [host_name (k + 1)]
                = map host_name (py_range (linked_hosts k hps + 1) (k + 1 + 1))).
  { rewrite Hl, (py_range_snoc _ (k + 1)), map_app by lia. reflexivity. }
  split; [lia|]. rewrite ceil_div_step by lia.
  destruct (Z.eqb_spec (k mod hps) 0) as [Hm|Hm];
    cbn [switch_num host_list att_topo].
  - rewrite (linked_hosts_flush hps k Hk Hm).
    split; [lia|]. split; [now rewrite py_range_nil by lia|]. split.
    + rewrite topo_links_add_links. cbn [topo_links addSwitch addHost].
      rewrite Hlk, Hhl, map_map.
      rewrite (py_range_app 1 (linked_hosts k hps + 1) (k + 1 + 1)), map_app by lia.
      f_equal. apply map_ext_in. intros m Hin. apply in_py_range in Hin.
      unfold host_link. rewrite (cluster_of_flush hps k m Hh Hk Hm) by lia.
      now rewrite Hn.
    + rewrite addHost_calls_add_links, addHost_calls_addSwitch,
        addHost_calls_addHost, Hc, (py_range_snoc 1 (k + 1)), map_app by lia.
      reflexivity.
  - rewrite (linked_hosts_keep hps k Hh Hk Hm).
    split; [lia|]. split; [exact Hhl|]. split.
    + cbn [topo_links addHost]. exact Hlk.
    + rewrite addHost_calls_addHost, Hc, (py_range_snoc 1 (k + 1)), map_app by lia.
      reflexivity.
Qed.

Lemma clusters_attached (bw nodes hps : Z) (st : AttachState) :
  0 < hps ->
  for_each (attach_host bw hps) (py_range 0 nodes) (mkAttachState 1 [] empty_topo)
  = Ret st ->
  attached_upto bw hps (Z.max 0 nodes) st.
Proof.
  intros Hh. apply (for_range_inv (attached_upto bw hps)).
  - split; [lia|]. cbn [switch_num host_list att_topo].
    split; [rewrite Z.div_small by lia; reflexivity|].
    repeat split; reflexivity.
  - intros k s s' _ Hs Hb. now apply (attach_host_upto bw hps k s s' Hh Hs).
Qed.

Lemma topo_of_fillers_calls (xs : list Z) (t : Topo) :
  addHost_calls
    (mkTopo (topo_nodes t
             ++ map (fun num => mkNodeRecord (switch_name (num + 1)) true
                                  (edge_opts (num + 1))) xs)
            (topo_links t))
  = addHost_calls t.
Proof.
  unfold addHost_calls. cbn [topo_nodes]. rewrite filter_app, map_app.
  assert (E : filter (fun r => negb (node_isSwitch r))
                (map (fun num => mkNodeRecord (switch_name (num + 1)) true
                                   (edge_opts (num + 1))) xs) = []).
  { induction xs as [|x xs IH]; [reflexivity|]. exact IH. }
  rewrite E. apply app_nil_r.
Qed.

Lemma topo_of_fillers_switch_calls (xs : list Z) (t : Topo) :
  addSwitch_calls
    (mkTopo (topo_nodes t
             ++ map (fun num => mkNodeRecord (switch_name (num + 1)) true
                                  (edge_opts (num + 1))) xs)
            (topo_links t))
  = addSwitch_calls t ++ map (fun num => switch_name (num + 1)) xs.
Proof.
  unfold addSwitch_calls. cbn [topo_nodes]. rewrite filter_app, map_app.
  f_equal. induction xs as [|x xs IH]; [reflexivity|].
  cbn [map filter node_isSwitch node_name]. now rewrite IH.
Qed.

(** What a run of [addHosts] on the empty topology has called. *)
Lemma addHosts_built (bw nsw nodes ports hps : Z) (t : Topo) :
  0 < hps ->
  addHosts bw nsw nodes ports hps empty_topo = Ret t ->
  addHost_calls t = map host_name (py_range 1 (nodes + 1))
  /\ topo_links t
     = map (host_link bw hps) (py_range 1 (linked_hosts nodes hps + 1))
  /\ addSwitch_calls t
     = map switch_name (py_range 1 (1 + (Z.max 0 nodes + hps - 1) / hps))
       ++ map (fun num => switch_name (num + 1)) (py_range (nodes / hps) nsw).
Proof.
  intros Hh Ht.
  unfold addHosts, addHosts_clusters, addHosts_fillers in Ht.
  apply bind_Ret_inv in Ht as (tc & Hc & Hf).
  apply bind_Ret_inv in Hc as (st & Hc & E). injection E as <-.
  apply bind_Ret_inv in Hf as (start & Hs & Hf).
  unfold py_div in Hs. destruct (hps =? 0); [discriminate|]. injection Hs as <-.
  rewrite fillers_run in Hf. injection Hf as <-.
  destruct (clusters_attached bw nodes hps st Hh Hc) as (_ & _ & _ & Hlk & Hcalls).
  destruct (clusters_switch_calls bw nodes hps st Hh Hc) as (Hnum & Hsw).
  assert (EL : linked_hosts (Z.max 0 nodes) hps = linked_hosts nodes hps).
  { destruct (Z.le_gt_cases nodes 0).
    - replace (Z.max 0 nodes) with 0 by lia. unfold linked_hosts.
      destruct (Z.leb_spec nodes 0); [reflexivity|lia].
    - now replace (Z.max 0 nodes) with nodes by lia. }
  split; [|split].
  - rewrite topo_of_fillers_calls, Hcalls.
    destruct (Z.le_gt_cases nodes 0).
    + rewrite !py_range_nil by lia. reflexivity.
    + now replace (Z.max 0 nodes) with nodes by lia.
  - cbn [topo_links]. now rewrite Hlk, EL.
  - rewrite topo_of_fillers_switch_calls, Hsw, Hnum. reflexivity.
Qed.

(** X4.  What host attachment builds, for a positive hosts_per_switch:
    hosts h1 .. h<nodes> are created in this order; the edge list is made
    of one record per host from h1 up to the last host whose number less
    one is a multiple of hosts_per_switch, in this order; host 1 is linked
    to switch 1 and host m > 1 to switch (m - 2) div hosts_per_switch + 2;
    every record carries the bandwidth. *)
Theorem addHosts_layout (bw nsw nodes ports hps : Z) :
  0 < hps ->
  exists t,
    addHosts bw nsw nodes ports hps empty_topo = Ret t
    /\ addHost_calls t = map host_name (py_range 1 (nodes + 1))
    /\ topo_links t
       = map (host_link bw hps) (py_range 1 (linked_hosts nodes hps + 1))
    /\ cluster_of hps 1 = 1
    /\ forall m, 1 < m -> cluster_of hps m = (m - 2) / hps + 2.
Proof.
  intros Hh.
  destruct (addHosts_total bw nsw nodes ports hps empty_topo ltac:(lia)) as (t & Ht).
  exists t. split; [exact Ht|].
  destruct (addHosts_built _ _ _ _ _ _ Hh Ht) as (Hc & Hl & _).
  split; [exact Hc|]. split; [exact Hl|].
  unfold cluster_of. split.
  - replace (1 + hps - 2) with (hps - 1) by lia.
    rewrite Z.div_small by lia. reflexivity.
  - intros m Hm. replace (m + hps - 2) with ((m - 2) + 1 * hps) by lia.
    rewrite Z.div_add by lia. lia.
Qed.

(** X4 at 5 hosts, 3 per switch. *)
Lemma addHosts_layout_witness :
  exists t,
    addHosts 40 4 5 4 3 empty_topo = Ret t
    /\ addHost_calls t = map host_name (py_range 1 (5 + 1))
    /\ topo_links t = map (host_link 40 3) (py_range 1 (linked_hosts 5 3 + 1))
    /\ cluster_of 3 1 = 1
    /\ forall m, 1 < m -> cluster_of 3 m = (m - 2) / 3 + 2.
Proof. apply (addHosts_layout 40 4 5 4 3). lia. Defined.

(** ** Degrees of hosts and of switches towards hosts *)

Lemma filter_map_length {A B : Type} (f : B -> bool) (g : A -> B) (l : list A) :
  List.length (filter f (map g l))
  = List.length (filter (fun x => f (g x)) l).
Proof.
  induction l as [|x l IH]; [reflexivity|]. cbn [map filter].
  destruct (f (g x)); cbn [List.length]; now rewrite IH.
Qed.

Lemma filter_none_length {A : Type} (f : A -> bool) (l : list A) :
  (forall x, In x l -> f x = false) -> List.length (filter f l) = O.
Proof.
  intros H. induction l as [|x l IH]; [reflexivity|]. cbn [filter].
  rewrite (H x (or_introl eq_refl)). apply IH. intros y Hy. apply H. now right.
Qed.

Lemma switches_are_switch_names (bw nsw nodes ports hps : Z) (t1 : Topo)
  (n : string) :
  addHosts bw nsw nodes ports hps empty_topo = Ret t1 ->
  isSwitch t1 n = true -> exists j, n = switch_name j.
Proof.
  intros Ha Hn. apply isSwitch_record in Hn as (r & Hr & <- & Hs).
  exact (switch_records_named _ _ _ _ _ _ Ha r Hr Hs).
Qed.

Lemma host_not_switch (bw nsw nodes ports hps : Z) (t1 : Topo) (m : Z) :
  addHosts bw nsw nodes ports hps empty_topo = Ret t1 -> m <> 255 ->
  isSwitch t1 (host_name m) = false.
Proof.
  intros Ha Hm. destruct (isSwitch t1 (host_name m)) eqn:E; [|reflexivity].
  destruct (switches_are_switch_names _ _ _ _ _ _ _ Ha E) as (j & Hj).
  now apply host_name_switch_name in Hj.
Qed.

(** The parts of a construction that returned. *)
Lemma JellyfishTopo_parts (R : RandomSource) (fuel : nat) (g0 : rng R)
  (seed nsw nodes ports hps bw : Z) (t : Topo) (g' : rng R) :
  JellyfishTopo fuel g0 seed nsw nodes ports hps bw = Ret (t, g') ->
  exists t1 links,
    addHosts bw nsw nodes ports hps empty_topo = Ret t1
    /\ build_links fuel ports (switches t1) (random_seed R seed g0)
       = Ret (g', links)
    /\ t = materialize bw links t1
    /\ links_within (switches t1) links
    /\ between_switches t1 links.
Proof.
  unfold JellyfishTopo, create_topology. intros H.
  apply bind_Ret_inv in H as (t1 & Ha & H).
  apply bind_Ret_inv in H as ([g1 links] & Hb & Hr). injection Hr as <- <-.
  destruct (build_links_post ports _ _ _ _ _ Hb) as (Hw & _).
  exists t1, links. split; [exact Ha|]. split; [exact Hb|].
  split; [reflexivity|]. split; [exact Hw|].
  intros l Hl. destruct (Hw l Hl) as (H1 & H2 & _). unfold switches in H1, H2.
  apply filter_In in H1 as [_ H1]. apply filter_In in H2 as [_ H2]. now split.
Qed.

Lemma link_count_app (t : Topo) (n : string) (l1 l2 : list EdgeRecord) :
  topo_links t = l1 ++ l2 ->
  link_count t n
  = (List.length (filter (fun e => String.eqb (fst (fst e)) n
                                   || String.eqb (snd (fst e)) n) l1)
     + List.length (filter (fun e => String.eqb (fst (fst e)) n
                                     || String.eqb (snd (fst e)) n) l2))%nat.
Proof. intros E. unfold link_count. now rewrite E, filter_app, length_app. Qed.

(** X5.  In every construction that returns, with a positive
    hosts_per_switch and fewer than 255 hosts, a host has exactly one edge
    if its number is at most the last number m with (m - 1) a multiple of
    hosts_per_switch, and no edge otherwise; no host ever has two. *)
Theorem host_degree (R : RandomSource) (fuel : nat) (g0 : rng R)
  (seed nsw nodes ports hps bw : Z) (t : Topo) (g' : rng R) (m : Z) :
  0 < hps -> nodes < 255 -> 1 <= m <= nodes ->
  JellyfishTopo fuel g0 seed nsw nodes ports hps bw = Ret (t, g') ->
  link_count t (host_name m)
  = if m <=? nodes - (nodes - 1) mod hps then 1%nat else 0%nat.
Proof.
  intros Hh Hn Hm H.
  destruct (JellyfishTopo_parts _ _ _ _ _ _ _ _ _ _ _ H)
    as (t1 & links & Ha & _ & -> & Hw & Hb).
  destruct (addHosts_built _ _ _ _ _ _ Hh Ha) as (_ & Hl & _).
  rewrite (link_count_app _ _ _ _ (topo_links_materialize bw links t1)).
  rewrite (filter_none_length _ (map _ links)), Nat.add_0_r.
  2:{ intros e He. apply in_map_iff in He as (l & <- & Hin). cbn [fst snd].
      destruct (Hb l Hin) as [B1 B2].
      apply orb_false_iff. split; apply String.eqb_neq; intros E.
      - rewrite E, (host_not_switch _ _ _ _ _ _ m Ha) in B1 by lia. discriminate.
      - rewrite E, (host_not_switch _ _ _ _ _ _ m Ha) in B2 by lia. discriminate. }
  rewrite Hl, filter_map_length.
  rewrite (filter_ext_in _ (fun x => x =? m)).
  2:{ intros x Hx. apply in_py_range in Hx. unfold host_link. cbn [fst snd].
      assert (E2 : String.eqb (switch_name (cluster_of hps x)) (host_name m) = false).
      { apply String.eqb_neq. intros E. symmetry in E.
        apply host_name_switch_name in E. lia. }
      rewrite E2, orb_false_r.
      destruct (Z.eqb_spec x m) as [->|Hne]; [apply String.eqb_refl|].
      apply String.eqb_neq. intros E. now apply host_name_inj in E. }
  rewrite count_in_range. unfold linked_hosts.
  destruct (Z.leb_spec nodes 0); [lia|].
  destruct (Z.leb_spec 1 m); [|lia]. cbn [andb].
  destruct (Z.ltb_spec m (nodes - (nodes - 1) mod hps + 1)),
           (Z.leb_spec m (nodes - (nodes - 1) mod hps)); try reflexivity; lia.
Qed.

(** X5 on a run: of 5 hosts, 3 per switch, h4 has one edge and h5 none. *)
Lemma host_degree_witness :
  exists t g',
    JellyfishTopo (R := lcg) 100 0 0 4 5 4 3 40 = Ret (t, g')
    /\ link_count t (host_name 4) = 1%nat
    /\ link_count t (host_name 5) = 0%nat.
Proof.
  eexists; eexists. split; [vm_compute; reflexivity|]. split.
  - eapply (host_degree lcg 100 0 0 4 5 4 3 40 _ _ 4);
      [lia|lia|lia|vm_compute; reflexivity].
  - eapply (host_degree lcg 100 0 0 4 5 4 3 40 _ _ 5);
      [lia|lia|lia|vm_compute; reflexivity].
Defined.

Lemma filter_all_length {A : Type} (f : A -> bool) (l : list A) :
  (forall x, In x l -> f x = true) ->
  List.length (filter f l) = List.length l.
Proof.
  intros H. induction l as [|x l IH]; [reflexivity|]. cbn [filter].
  rewrite (H x (or_introl eq_refl)). cbn [List.length]. f_equal.
  apply IH. intros y Hy. apply H. now right.
Qed.

(** How many numbers of [range(lo, hi)] lie in [a, b). *)
Lemma count_interval (a b lo hi : Z) :
  List.length (filter (fun x => (a <=? x) && (x <? b)) (py_range lo hi))
  = Z.to_nat (Z.min b hi - Z.max a lo).
Proof.
  destruct (Z.le_gt_cases (Z.min b hi) (Z.max a lo)) as [E|E].
  - rewrite filter_none_length; [lia|].
    intros x Hx. apply in_py_range in Hx.
    destruct (Z.leb_spec a x), (Z.ltb_spec x b); try reflexivity. lia.
  - rewrite (py_range_app lo (Z.max a lo) hi) by lia.
    rewrite (py_range_app (Z.max a lo) (Z.min b hi) hi) by lia.
    rewrite !filter_app, !length_app.
    rewrite (filter_none_length _ (py_range lo _)).
    2:{ intros x Hx. apply in_py_range in Hx.
        destruct (Z.leb_spec a x), (Z.ltb_spec x b); try reflexivity. lia. }
    rewrite (filter_none_length _ (py_range (Z.min b hi) hi)).
    2:{ intros x Hx. apply in_py_range in Hx.
        destruct (Z.leb_spec a x), (Z.ltb_spec x b); try reflexivity. lia. }
    rewrite filter_all_length.
    2:{ intros x Hx. apply in_py_range in Hx.
        destruct (Z.leb_spec a x), (Z.ltb_spec x b); try reflexivity; lia. }
    rewrite py_range_length. lia.
Qed.

(** The hosts of one cluster are consecutive. *)
Lemma cluster_of_eq (hps m j : Z) :
  0 < hps ->
  (cluster_of hps m =? j)
  = ((j - 2) * hps + 2 <=? m) && (m <? (j - 1) * hps + 2).
Proof.
  intros Hh. unfold cluster_of.
  pose proof (Z.div_mod (m + hps - 2) hps ltac:(lia)) as E.
  pose proof (Z.mod_pos_bound (m + hps - 2) hps Hh) as B.
  destruct (Z.eqb_spec ((m + hps - 2) / hps + 1) j) as [Ej|Ej];
    destruct (Z.leb_spec ((j - 2) * hps + 2) m);
    destruct (Z.ltb_spec m ((j - 1) * hps + 2)); try reflexivity;
    exfalso; nia.
Qed.

Lemma hosts_attached_after_addHosts (bw nsw nodes ports hps : Z) (t1 : Topo)
  (j : Z) :
  0 < hps -> nodes < 255 ->
  addHosts bw nsw nodes ports hps empty_topo = Ret t1 ->
  hosts_attached t1 (switch_name j)
  = Z.of_nat (List.length (filter (fun m => cluster_of hps m =? j)
                             (py_range 1 (linked_hosts nodes hps + 1)))).
Proof.
  intros Hh Hn Ha.
  destruct (addHosts_built _ _ _ _ _ _ Hh Ha) as (_ & Hl & _).
  unfold hosts_attached. rewrite Hl, filter_map_length. do 2 f_equal.
  apply filter_ext_in. intros m Hm. apply in_py_range in Hm.
  unfold host_link. cbn [fst snd].
  assert (Hb : linked_hosts nodes hps <= Z.max 0 nodes).
  { unfold linked_hosts. destruct (Z.leb_spec nodes 0); [lia|].
    pose proof (Z.mod_pos_bound (nodes - 1) hps Hh). lia. }
  rewrite (host_not_switch _ _ _ _ _ _ m Ha) by lia. cbn [negb andb].
  destruct (Z.eqb_spec (cluster_of hps m) j) as [->|Hne];
    [apply String.eqb_refl|].
  apply String.eqb_neq. intros E. now apply switch_name_inj in E.
Qed.

(** X6.  In every construction that returns, with a positive
    hosts_per_switch and between 1 and 254 hosts, switch 1 has exactly one
    host, each of the next (nodes - 1) // hosts_per_switch switches has
    exactly hosts_per_switch hosts, and every other switch has none. *)
Theorem hosts_per_switch_layout (R : RandomSource) (fuel : nat) (g0 : rng R)
  (seed nsw nodes ports hps bw : Z) (t : Topo) (g' : rng R) (j : Z) :
  0 < hps -> 1 <= nodes < 255 ->
  JellyfishTopo fuel g0 seed nsw nodes ports hps bw = Ret (t, g') ->
  hosts_attached t (switch_name j)
  = if j =? 1 then 1
    else if (2 <=? j) && (j <=? (nodes - 1) / hps + 1) then hps
    else 0.
Proof.
  intros Hh Hn H.
  destruct (JellyfishTopo_parts _ _ _ _ _ _ _ _ _ _ _ H)
    as (t1 & links & Ha & _ & -> & _ & Hb).
  rewrite (hosts_attached_materialize bw links t1 _ Hb).
  rewrite (hosts_attached_after_addHosts _ _ _ _ _ _ j Hh (proj2 Hn) Ha).
  rewrite (filter_ext _ _ (fun m => cluster_of_eq hps m j Hh)).
  rewrite count_interval. unfold linked_hosts.
  destruct (Z.leb_spec nodes 0); [lia|].
  pose proof (Z.div_mod (nodes - 1) hps ltac:(lia)) as E.
  pose proof (Z.mod_pos_bound (nodes - 1) hps Hh) as B.
  assert (Q : 0 <= (nodes - 1) / hps) by (apply Z.div_pos; lia).
  destruct (Z.eqb_spec j 1) as [->|J1]; [lia|].
  destruct (Z.leb_spec 2 j), (Z.leb_spec j ((nodes - 1) / hps + 1));
    cbn [andb]; nia.
Qed.

(** X6 on a run: 8 hosts, 3 per switch. *)
Lemma hosts_per_switch_layout_witness :
  exists t g',
    JellyfishTopo (R := lcg) 100 0 0 4 8 6 3 40 = Ret (t, g')
    /\ hosts_attached t (switch_name 1) = 1
    /\ hosts_attached t (switch_name 3) = 3
    /\ hosts_attached t (switch_name 4) = 0.
Proof.
  eexists; eexists. split; [vm_compute; reflexivity|]. split; [|split].
  - eapply (hosts_per_switch_layout lcg 100 0 0 4 8 6 3 40 _ _ 1);
      [lia|lia|vm_compute; reflexivity].
  - eapply (hosts_per_switch_layout lcg 100 0 0 4 8 6 3 40 _ _ 3);
      [lia|lia|vm_compute; reflexivity].
  - eapply (hosts_per_switch_layout lcg 100 0 0 4 8 6 3 40 _ _ 4);
      [lia|lia|vm_compute; reflexivity].
Defined.

(** ** The switches of the topology *)

Lemma mem_string_In (x : string) (l : list string) :
  mem_string x l = true <-> In x l.
Proof.
  unfold mem_string. rewrite existsb_exists. split.
  - intros (y & Hy & E). apply String.eqb_eq in E. now subst.
  - intros H. exists x. split; [exact H|apply String.eqb_refl].
Qed.

Lemma distinct_names_In (seen : list string) (l : list NodeRecord) (x : string) :
  In x (distinct_names seen l) <-> In x (map node_name l) /\ ~ In x seen.
Proof.
  revert seen. induction l as [|r l IH]; intros seen; cbn [distinct_names map].
  - split; [intros []|intros [[] _]].
  - destruct (mem_string (node_name r) seen) eqn:M.
    + apply mem_string_In in M. rewrite IH. split.
      * intros [H1 H2]. split; [now right|exact H2].
      * intros [[<-|H1] H2]; [contradiction|now split].
    + assert (N : ~ In (node_name r) seen).
      { intros Hin. apply mem_string_In in Hin. congruence. }
      cbn [In]. rewrite IH. cbn [In]. split.
      * intros [<-|[H1 H2]]; [split; [now left|exact N]|].
        split; [now right|]. intros H3. apply H2. now right.
      * intros [[E|H1] H2]; [now left|].
        destruct (string_dec (node_name r) x) as [E|E]; [now left|].
        right. split; [exact H1|]. intros [E'|H3]; contradiction.
Qed.

(** A name is a switch when every call for it was [addSwitch], and there
    was one. *)
Lemma isSwitch_all_records (t : Topo) (n : string) :
  In n (addSwitch_calls t) -> ~ In n (addHost_calls t) -> isSwitch t n = true.
Proof.
  unfold addSwitch_calls, addHost_calls, isSwitch. intros Hs Hh.
  apply in_map_iff in Hs as (r0 & E0 & Hr0). apply filter_In in Hr0 as [Hr0 F0].
  destruct (find _ (rev (topo_nodes t))) as [r|] eqn:F.
  - apply find_some in F as [F1 F2]. apply in_rev in F1.
    apply String.eqb_eq in F2.
    destruct (node_isSwitch r) eqn:S; [reflexivity|].
    exfalso. apply Hh. apply in_map_iff. exists r. split; [exact F2|].
    apply filter_In. split; [exact F1|]. now rewrite S.
  - exfalso. pose proof (find_none _ _ F r0) as K. cbv beta in K.
    rewrite E0, String.eqb_refl in K.
    assert (true = false); [|discriminate]. apply K.
    rewrite <- in_rev. exact Hr0.
Qed.

Lemma switches_iff_calls (t : Topo) (n : string) :
  (forall x, In x (addSwitch_calls t) -> ~ In x (addHost_calls t)) ->
  In n (switches t) <-> In n (addSwitch_calls t).
Proof.
  intros D. unfold switches. rewrite filter_In, distinct_names_In. split.
  - intros [_ H]. apply isSwitch_record in H as (r & Hr & <- & Hs).
    unfold addSwitch_calls. apply in_map, filter_In. now split.
  - intros H. split; [split; [|intros []]|].
    + unfold addSwitch_calls in H. apply in_map_iff in H as (r & <- & Hr).
      apply filter_In in Hr as [Hr _]. now apply in_map.
    + apply isSwitch_all_records; [exact H|now apply D].
Qed.

Lemma switches_of_addHosts (bw nsw nodes ports hps : Z) (t1 : Topo) (s : string) :
  0 < hps -> 0 <= nodes < 255 ->
  addHosts bw nsw nodes ports hps empty_topo = Ret t1 ->
  In s (switches t1)
  <-> exists j, 1 <= j <= Z.max ((nodes + hps - 1) / hps) nsw
                /\ s = switch_name j.
Proof.
  intros Hh Hn Ha.
  destruct (addHosts_built _ _ _ _ _ _ Hh Ha) as (Hc & _ & Hs).
  assert (M : forall x, In x (addSwitch_calls t1) <->
                exists j, 1 <= j <= Z.max ((nodes + hps - 1) / hps) nsw
                          /\ x = switch_name j).
  { intros x. rewrite Hs, in_app_iff, !in_map_iff.
    replace (Z.max 0 nodes) with nodes by lia.
    pose proof (Z.div_mod nodes hps ltac:(lia)) as E.
    pose proof (Z.mod_pos_bound nodes hps Hh) as B.
    pose proof (Z.div_mod (nodes + hps - 1) hps ltac:(lia)) as E'.
    pose proof (Z.mod_pos_bound (nodes + hps - 1) hps Hh) as B'.
    assert (Q : 0 <= nodes / hps <= (nodes + hps - 1) / hps).
    { split; [apply Z.div_pos; lia|]. apply Z.div_le_mono; lia. }
    split.
    - intros [(j & <- & Hj)|(j & <- & Hj)]; apply in_py_range in Hj.
      + exists j. split; [lia|reflexivity].
      + exists (j + 1). split; [lia|reflexivity].
    - intros (j & Hj & ->).
      destruct (Z.le_gt_cases j ((nodes + hps - 1) / hps)) as [L|L].
      + left. exists j. split; [reflexivity|]. apply in_py_range. lia.
      + right. exists (j - 1). split; [f_equal; lia|]. apply in_py_range. lia. }
  rewrite switches_iff_calls; [apply M|].
  intros x Hx Hx'. apply M in Hx as (j & _ & ->).
  rewrite Hc in Hx'. apply in_map_iff in Hx' as (m & E & Hm).
  apply in_py_range in Hm. apply host_name_switch_name in E. lia.
Qed.

(** X7.  In every construction that returns, with a positive
    hosts_per_switch and at most 254 hosts, the switches of the topology are
    s1 .. sN, each once, where N is the larger of the requested number of
    switches and the number of hosts divided by hosts_per_switch, rounded
    up. *)
Theorem switch_set (R : RandomSource) (fuel : nat) (g0 : rng R)
  (seed nsw nodes ports hps bw : Z) (t : Topo) (g' : rng R) :
  0 < hps -> 0 <= nodes < 255 ->
  JellyfishTopo fuel g0 seed nsw nodes ports hps bw = Ret (t, g') ->
  (forall s, In s (switches t)
             <-> exists j, 1 <= j <= Z.max ((nodes + hps - 1) / hps) nsw
                           /\ s = switch_name j)
  /\ NoDup (switches t)
  /\ Z.of_nat (List.length (switches t))
     = Z.max ((nodes + hps - 1) / hps) nsw.
Proof.
  intros Hh Hn H.
  destruct (JellyfishTopo_parts _ _ _ _ _ _ _ _ _ _ _ H)
    as (t1 & links & Ha & _ & -> & _ & _).
  rewrite switches_materialize.
  pose proof (fun s => switches_of_addHosts _ _ _ _ _ _ s Hh Hn Ha) as M.
  split; [intros s; apply M|]. split; [apply switches_NoDup|].
  set (N := Z.max ((nodes + hps - 1) / hps) nsw) in *.
  assert (N0 : 0 <= N).
  { assert (0 <= (nodes + hps - 1) / hps) by (apply Z.div_pos; lia). lia. }
  assert (I1 : incl (switches t1) (map switch_name (py_range 1 (N + 1)))).
  { intros s Hs. apply M in Hs as (j & Hj & ->). apply in_map, in_py_range. lia. }
  assert (I2 : incl (map switch_name (py_range 1 (N + 1))) (switches t1)).
  { intros s Hs. apply in_map_iff in Hs as (j & <- & Hj).
    apply in_py_range in Hj. apply M. exists j. split; [lia|reflexivity]. }
  assert (N2 : NoDup (map switch_name (py_range 1 (N + 1)))).
  { apply NoDup_map_NoDup_ForallPairs; [|apply py_range_NoDup].
    intros x y _ _ E. now apply switch_name_inj. }
  pose proof (NoDup_incl_length (switches_NoDup t1) I1) as L1.
  pose proof (NoDup_incl_length N2 I2) as L2.
  rewrite length_map, py_range_length in L1, L2. lia.
Qed.

(** X7 on a run: 7 hosts, 2 per switch and 3 switches asked for give 4. *)
Lemma switch_set_witness :
  exists t g',
    JellyfishTopo (R := lcg) 100 0 0 3 7 4 2 40 = Ret (t, g')
    /\ Z.of_nat (List.length (switches t)) = 4.
Proof.
  eexists; eexists. split; [vm_compute; reflexivity|].
  eapply (switch_set lcg 100 0 0 3 7 4 2 40); [lia|lia|vm_compute; reflexivity].
Defined.

(** ** The edges of the topology *)



Lemma inter_switch_degree_after_addHosts (bw nsw nodes ports hps : Z)
  (t1 : Topo) (s : string) :
  0 < hps -> nodes < 255 ->
  addHosts bw nsw nodes ports hps empty_topo = Ret t1 ->
  inter_switch_degree t1 s = 0.
Proof.
  intros Hh Hn Ha.
  destruct (addHosts_built _ _ _ _ _ _ Hh Ha) as (_ & Hl & _).
  unfold inter_switch_degree. rewrite Hl, filter_none_length; [reflexivity|].
  intros e He. apply in_map_iff in He as (m & <- & Hm).
  apply in_py_range in Hm. unfold host_link. cbn [fst snd].
  assert (Hb : linked_hosts nodes hps <= Z.max 0 nodes).
  { unfold linked_hosts. destruct (Z.leb_spec nodes 0); [lia|].
    pose proof (Z.mod_pos_bound (nodes - 1) hps Hh). lia. }
  rewrite (host_not_switch _ _ _ _ _ _ m Ha) by lia. reflexivity.
Qed.

(** X9.  In every construction that returns, with positive
    ports_per_switch and hosts_per_switch and fewer than 255 hosts, a switch
    has at most hosts_per_switch hosts and at most ports_per_switch links to
    other switches: the ports left of its budget never go below
    - hosts_per_switch. *)
Theorem port_budget_floor (R : RandomSource) (fuel : nat) (g0 : rng R)
  (seed nsw nodes ports hps bw : Z) (t : Topo) (g' : rng R) (s : string) :
  0 < hps -> nodes < 255 -> 1 <= ports ->
  JellyfishTopo fuel g0 seed nsw nodes ports hps bw = Ret (t, g') ->
  In s (switches t) ->
  0 <= hosts_attached t s <= hps
  /\ 0 <= inter_switch_degree t s <= ports
  /\ - hps <= port_budget ports t s <= ports.
Proof.
  intros Hh Hn Hp H Hs.
  destruct (JellyfishTopo_parts _ _ _ _ _ _ _ _ _ _ _ H)
    as (t1 & links & Ha & Hb & -> & _ & Hbs).
  rewrite switches_materialize in Hs.
  assert (Hsw : isSwitch t1 s = true).
  { unfold switches in Hs. now apply filter_In in Hs. }
  destruct (switches_are_switch_names _ _ _ _ _ _ _ Ha Hsw) as (j & ->).
  unfold port_budget.
  rewrite (hosts_attached_materialize bw links t1 _ Hbs).
  rewrite (inter_switch_degree_materialize bw links t1 _ Hbs).
  rewrite (inter_switch_degree_after_addHosts _ _ _ _ _ _ _ Hh Hn Ha).
  rewrite (hosts_attached_after_addHosts _ _ _ _ _ _ j Hh Hn Ha).
  rewrite (filter_ext _ _ (fun m => cluster_of_eq hps m j Hh)).
  rewrite count_interval.
  pose proof (degree_at_most_ports R fuel ports (switches t1) _ _ links Hp
                (switches_NoDup t1) Hb (switch_name j)) as D.
  pose proof (count_links_nonneg (switch_name j) links) as D0.
  split; [lia|]. split; lia.
Qed.

(** X9 on a run: switch s1 of the four-switch topology with three ports. *)
Lemma port_budget_floor_witness :
  exists t g',
    JellyfishTopo (R := lcg) 100 0 0 4 4 3 1 40 = Ret (t, g')
    /\ - 1 <= port_budget 3 t (switch_name 1) <= 3.
Proof.
  eexists; eexists. split; [vm_compute; reflexivity|].
  eapply (port_budget_floor lcg 100 0 0 4 4 3 1 40);
    [lia|lia|lia|vm_compute; reflexivity|vm_compute; auto].
Defined.

(** ** The three tests on the working edge list *)

Lemma adjacent_sym (links : list link) (a b : string) :
  adjacent links a b = adjacent links b a.
Proof. unfold adjacent. apply orb_comm. Qed.

Lemma not_fully_connected_false (sl : list string) (links : list link) :
  not_fully_connected sl links = false ->
  forall a b, In a sl -> In b sl -> a <> b -> adjacent links a b = true.
Proof.
  induction sl as [|s sl IH]; cbn [not_fully_connected]; [intros _ a b []|].
  intros H. apply orb_false_iff in H as [H1 H2].
  assert (K : forall x, In x sl -> adjacent links s x = true).
  { intros x Hx. unfold adjacent.
    destruct (link_in (s, x) links) eqn:E1; [reflexivity|].
    destruct (link_in (x, s) links) eqn:E2; [reflexivity|].
    assert (existsb (fun switch2 => negb (link_in (s, switch2) links)
                                    && negb (link_in (switch2, s) links)) sl
            = true); [|congruence].
    apply existsb_exists. exists x. split; [exact Hx|]. now rewrite E1, E2. }
  intros a b [<-|Ha] [<-|Hb] Hne.
  - contradiction.
  - now apply K.
  - rewrite adjacent_sym. now apply K.
  - now apply IH.
Qed.

Lemma not_fully_connected_true (sl : list string) (links : list link) :
  NoDup sl -> not_fully_connected sl links = true ->
  exists a b, In a sl /\ In b sl /\ a <> b /\ adjacent links a b = false.
Proof.
  induction sl as [|s sl IH]; cbn [not_fully_connected]; [discriminate|].
  intros N H. inversion N as [|? ? Hs N']; subst.
  apply orb_true_iff in H as [H|H].
  - apply existsb_exists in H as (x & Hx & E).
    apply andb_true_iff in E as [E1 E2]. apply negb_true_iff in E1, E2.
    exists s, x. split; [now left|]. split; [now right|].
    split; [intros ->; contradiction|]. unfold adjacent. now rewrite E1, E2.
  - destruct (IH N' H) as (a & b & Ha & Hb & Hne & E).
    exists a, b. split; [now right|]. split; [now right|]. auto.
Qed.

Lemma fully_connected_spec (s : string) (links : list link) (sl : list string) :
  switch_is_fully_connected s links sl = true
  <-> forall x, In x sl -> x <> s -> In (s, x) links /\ In (x, s) links.
Proof.
  unfold switch_is_fully_connected. rewrite forallb_forall. split.
  - intros H x Hx Hne. specialize (H x Hx).
    apply orb_true_iff in H as [H|H]; [apply String.eqb_eq in H; contradiction|].
    apply negb_true_iff, orb_false_iff in H as [H1 H2].
    apply negb_false_iff, link_in_In in H1, H2. auto.
  - intros H x Hx. destruct (String.eqb_spec x s) as [E|E]; [reflexivity|].
    destruct (H x Hx E) as [H1 H2]. apply link_in_In in H1, H2.
    now rewrite H1, H2.
Qed.

Lemma both_orientations_duplicate (a b : string) (links : list link) :
  a <> b -> In (a, b) links -> In (b, a) links ->
  has_duplicate_pair links = true.
Proof.
  intros Hne H1 H2. apply (has_duplicate_pair_In (a, b) (b, a)); auto.
  - intros E. injection E as E _. contradiction.
  - unfold same_pair, link_eqb. cbn [fst snd].
    rewrite !String.eqb_refl. apply orb_true_r.
Qed.

Lemma fully_connected_simple (s : string) (links : list link) (sl : list string) :
  has_duplicate_pair links = false ->
  switch_is_fully_connected s links sl = true ->
  forall x, In x sl -> x = s.
Proof.
  intros Hd F x Hx. destruct (string_dec x s) as [E|E]; [exact E|].
  exfalso. destruct (proj1 (fully_connected_spec s links sl) F x Hx E) as [H1 H2].
  rewrite (both_orientations_duplicate s x links) in Hd; auto; discriminate.
Qed.

(** X10.  [switch_is_fully_connected] asks for the link in both orientations
    to every other member of the list.  In an edge list that holds no pair
    of switches twice it is therefore true only of a switch that is alone in
    the list; and a switch that is adjacent to all others, each link held in
    one orientation, is not fully connected for it. *)
Theorem fully_connected_only_alone (s : string) (links : list link)
  (sl : list string) :
  has_duplicate_pair links = false ->
  (switch_is_fully_connected s links sl = true
   <-> forall x, In x sl -> x = s).
Proof.
  intros Hd. split.
  - now apply fully_connected_simple.
  - apply fully_connected_alone.
Qed.

(** X10 on K3: s1 is adjacent to s2 and s3 and is not fully connected. *)
Lemma fully_connected_only_alone_witness :
  (switch_is_fully_connected "s1"
     [("s1", "s2"); ("s2", "s3"); ("s3", "s1")] ["s1"; "s2"; "s3"] = true
   <-> forall x, In x ["s1"; "s2"; "s3"] -> x = "s1")%string.
Proof.
  apply (fully_connected_only_alone "s1"
           [("s1", "s2"); ("s2", "s3"); ("s3", "s1")]
           ["s1"; "s2"; "s3"])%string.
  reflexivity.
Defined.

(** ** Phase 1 *)

Lemma pair_up_cases (ports : Z) (x y : string) (sl : list string)
  (links : list link) (sl' : list string) (links' : list link) :
  pair_up ports x y sl links = Ret (sl', links') ->
  (accepted x y links = false /\ sl' = sl /\ links' = links)
  \/ (accepted x y links = true /\ x <> y /\ links' = links ++ [(x, y)]
      /\ exists sl1, retire ports x links' sl = Ret sl1
                     /\ retire ports y links' sl1 = Ret sl').
Proof.
  intros H. destruct (accepted x y links) eqn:A.
  - right. destruct (pair_up_accepted ports x y sl links sl' links' A H)
      as (Hne & E & K). auto.
  - left. unfold accepted in A. unfold pair_up in H.
    destruct (String.eqb x y); cbn [negb andb] in A.
    + injection H as <- <-. auto.
    + apply negb_false_iff in A. rewrite A in H. injection H as <- <-. auto.
Qed.

Lemma has_duplicate_pair_snoc (links : list link) (l : link) :
  has_duplicate_pair (links ++ [l])
  = has_duplicate_pair links || existsb (fun x => same_pair x l) links.
Proof.
  induction links as [|x links IH]; [reflexivity|].
  cbn [app has_duplicate_pair existsb]. rewrite IH, existsb_app.
  cbn [existsb]. rewrite orb_false_r.
  destruct (existsb (same_pair x) links), (same_pair x l),
    (has_duplicate_pair links), (existsb (fun x0 => same_pair x0 l) links);
    reflexivity.
Qed.

Lemma accepted_new_pair (x y : string) (links : list link) :
  accepted x y links = true ->
  x <> y /\ ~ In (x, y) links /\ ~ In (y, x) links
  /\ existsb (fun e => same_pair e (x, y)) links = false.
Proof.
  unfold accepted. intros A. apply andb_true_iff in A as [A1 A2].
  apply negb_true_iff in A1, A2. apply String.eqb_neq in A1.
  apply orb_false_iff in A2 as [A2 A3].
  assert (N1 : ~ In (x, y) links) by (intros H; apply link_in_In in H; congruence).
  assert (N2 : ~ In (y, x) links) by (intros H; apply link_in_In in H; congruence).
  repeat split; auto.
  destruct (existsb _ links) eqn:E; [|reflexivity].
  apply existsb_exists in E as (e & He & S). unfold same_pair in S.
  cbn [fst snd] in S. apply orb_true_iff in S as [S|S];
    apply link_eqb_eq in S; subst e; contradiction.
Qed.

Lemma count_links_snoc (s : string) (links : list link) (l : link) :
  count_links_with_switch s (links ++ [l])
  = count_links_with_switch s links + (if touches s l then 1 else 0).
Proof. rewrite count_links_app. cbn [count_links_with_switch]. lia. Qed.

Lemma retire_cases (ports : Z) (sw : string) (links : list link)
  (sl sl' : list string) :
  NoDup sl -> retire ports sw links sl = Ret sl' ->
  (sl' = sl
   /\ count_links_with_switch sw links <> ports
   /\ switch_is_fully_connected sw links sl = false)
  \/ (~ In sw sl' /\ incl sl' sl
      /\ (forall y, In y sl -> y <> sw -> In y sl')
      /\ (count_links_with_switch sw links = ports
          \/ switch_is_fully_connected sw links sl = true)).
Proof.
  intros N H. unfold retire in H.
  destruct (Z.eqb_spec (count_links_with_switch sw links) ports) as [C|C];
    cbn [orb] in H.
  - right. destruct (list_remove_Ret _ _ _ _ String.eqb_eq H) as (I1 & I2 & _).
    split; [exact (list_remove_NoDup _ _ _ N H)|]. auto.
  - destruct (switch_is_fully_connected sw links sl) eqn:F.
    + right. destruct (list_remove_Ret _ _ _ _ String.eqb_eq H) as (I1 & I2 & _).
      split; [exact (list_remove_NoDup _ _ _ N H)|]. auto.
    + left. injection H as <-. auto.
Qed.

Lemma pair_up_pairing_inv (ports : Z) (vs : list string) (x y : string)
  (sl : list string) (links : list link) (sl' : list string)
  (links' : list link) :
  In x sl -> In y sl -> pairing_inv ports vs sl links ->
  pair_up ports x y sl links = Ret (sl', links') ->
  pairing_inv ports vs sl' links'.
Proof.
  intros Hx Hy (Hd & Hw & N & Hi & Hr) Hp.
  destruct (pair_up_links_within ports vs x y sl links sl' links' Hx Hy
              (conj Hi Hw) Hp) as [Hi' Hw'].
  destruct (pair_up_cases _ _ _ _ _ _ _ Hp)
    as [(_ & -> & ->)|(A & Hne & -> & sl1 & H1 & H2)].
  { exact (conj Hd (conj Hw (conj N (conj Hi Hr)))). }
  destruct (accepted_new_pair _ _ _ A) as (_ & Nxy & Nyx & Hnew).
  assert (Hd' : has_duplicate_pair (links ++ [(x, y)]) = false).
  { rewrite has_duplicate_pair_snoc, Hd, Hnew. reflexivity. }
  pose proof (retire_keeps_NoDup _ _ _ _ _ N H1) as N1.
  pose proof (retire_keeps_NoDup _ _ _ _ _ N1 H2) as N2.
  split; [exact Hd'|]. split; [exact Hw'|]. split; [exact N2|].
  split; [exact Hi'|].
  destruct Hr as [->|Hr]; [destruct Hx|].
  assert (Old : forall s, In s vs -> ~ In s sl ->
                  count_links_with_switch s (links ++ [(x, y)]) = ports).
  { intros s Hs Hns. rewrite count_links_snoc, (Hr s Hs Hns).
    unfold touches. cbn [fst snd].
    destruct (String.eqb_spec s x) as [->|]; [contradiction|].
    destruct (String.eqb_spec s y) as [->|]; [contradiction|]. cbn [orb]. lia. }
  assert (Fx : switch_is_fully_connected x (links ++ [(x, y)]) sl = false).
  { destruct (switch_is_fully_connected x (links ++ [(x, y)]) sl) eqn:F;
      [|reflexivity].
    pose proof (fully_connected_simple _ _ _ Hd' F y Hy). congruence. }
  destruct (retire_cases _ _ _ _ _ N H1)
    as [(-> & Cx & _)|(Nx & I1 & K1 & [Cx|Cx])]; [| |congruence].
  - (* the first endpoint stays *)
    assert (Fy : switch_is_fully_connected y (links ++ [(x, y)]) sl = false).
    { destruct (switch_is_fully_connected y (links ++ [(x, y)]) sl) eqn:F;
        [|reflexivity].
      pose proof (fully_connected_simple _ _ _ Hd' F x Hx). congruence. }
    destruct (retire_cases _ _ _ _ _ N H2)
      as [(-> & _ & _)|(Ny & I2 & K2 & [Cy|Cy])]; [| |congruence].
    + right. exact Old.
    + right. intros s Hs Hns.
      destruct (string_dec s y) as [->|Hsy]; [exact Cy|].
      apply Old; [exact Hs|]. intros Hin. apply Hns. now apply K2.
  - (* the first endpoint leaves *)
    assert (Hy1 : In y sl1) by (apply K1; [exact Hy|congruence]).
    assert (Gone : forall s, In s vs -> ~ In s sl1 ->
                     count_links_with_switch s (links ++ [(x, y)]) = ports).
    { intros s Hs Hns. destruct (string_dec s x) as [->|Hsx]; [exact Cx|].
      apply Old; [exact Hs|]. intros Hin. apply Hns. now apply K1. }
    destruct (retire_cases _ _ _ _ _ N1 H2)
      as [(-> & _ & _)|(Ny & I2 & K2 & [Cy|Cy])].
    + right. exact Gone.
    + right. intros s Hs Hns.
      destruct (string_dec s y) as [->|Hsy]; [exact Cy|].
      apply Gone; [exact Hs|]. intros Hin. apply Hns. now apply K2.
    + left. pose proof (fully_connected_simple _ _ _ Hd' Cy) as Al.
      destruct sl' as [|z sl']; [reflexivity|]. exfalso.
      assert (Hz : In z sl1) by (apply I2; now left).
      apply Ny. rewrite <- (Al z Hz). now left.
Qed.

Lemma pairing_inv_init (ports : Z) (vs : list string) :
  NoDup vs -> pairing_inv ports vs vs [].
Proof.
  intros N. split; [reflexivity|]. split; [intros l []|]. split; [exact N|].
  split; [apply incl_refl|]. right. intros s Hs Hns. contradiction.
Qed.

Lemma links_within_no_self_loop (vs : list string) (links : list link) :
  links_within vs links -> has_self_loop links = false.
Proof.
  intros Hw. destruct (has_self_loop links) eqn:E; [|reflexivity].
  unfold has_self_loop in E. apply existsb_exists in E as (l & Hl & E).
  apply String.eqb_eq in E. destruct (Hw l Hl) as (_ & _ & N). contradiction.
Qed.

Lemma four_switches_NoDup : NoDup ["s1"; "s2"; "s3"; "s4"]%string.
Proof.
  repeat constructor; cbn [In]; intros K;
    repeat (destruct K as [K|K]; [discriminate|]); exact K.
Qed.

(** X11.  The pairing loop, started on a list of different switches and an
    empty edge list, returns a simple graph on these switches: no pair of
    switches is linked twice, in either orientation, no switch is linked to
    itself, and a switch has fewer links than there are switches. *)
Theorem pairing_simple_graph (R : RandomSource) (fuel : nat) (ports : Z)
  (sl : list string) (g : rng R) (b : Builder R) :
  NoDup sl ->
  pairing fuel ports (mkBuilder g sl []) = Ret b ->
  has_duplicate_pair (added_links b) = false
  /\ has_self_loop (added_links b) = false
  /\ links_within sl (added_links b)
  /\ forall s, In s sl ->
       count_links_with_switch s (added_links b) < Z.of_nat (List.length sl).
Proof.
  intros N H.
  pose proof (pairing_ind ports (pairing_inv ports sl)
                (pair_up_pairing_inv ports sl) fuel g sl []
                (pairing_inv_init ports sl N)) as P.
  rewrite H in P. destruct P as [(Hd & Hw & _) _].
  split; [exact Hd|]. split; [exact (links_within_no_self_loop _ _ Hw)|].
  split; [exact Hw|]. intros s Hs. now apply simple_degree_bound.
Qed.

(** X11 on a run of the loop over four switches. *)
Lemma pairing_simple_graph_witness :
  exists b,
    pairing 100 3 (mkBuilder (R := lcg) 0 ["s1"; "s2"; "s3"; "s4"]%string []) = Ret b
    /\ has_duplicate_pair (added_links b) = false
    /\ has_self_loop (added_links b) = false.
Proof.
  run_as H (pairing 100 3
              (mkBuilder (R := lcg) 0 ["s1"; "s2"; "s3"; "s4"]%string [])).
  eexists. split; [exact H|].
  destruct (pairing_simple_graph lcg 100 3 _ 0 _ four_switches_NoDup H)
    as (H1 & H2 & _).
  split; [exact H1|exact H2].
Defined.

(** X12.  The pairing loop stops only when any two different candidates
    left are adjacent; and, its candidates being different switches, as long
    as two of them are not adjacent its guard holds. *)
Theorem pairing_stops_on_clique (R : RandomSource) (fuel : nat) (ports : Z)
  (sl : list string) (g : rng R) (b : Builder R) :
  NoDup sl ->
  pairing fuel ports (mkBuilder g sl []) = Ret b ->
  (forall x y, In x (switch_list b) -> In y (switch_list b) -> x <> y ->
               adjacent (added_links b) x y = true)
  /\ forall sl' links',
       NoDup sl' ->
       (pairing_guard sl' links' = true
        <-> exists x y, In x sl' /\ In y sl' /\ x <> y
                        /\ adjacent links' x y = false).
Proof.
  intros N H. split.
  - pose proof (pairing_ind ports (fun _ _ => True)
                  (fun _ _ _ _ _ _ _ _ _ _ => I) fuel g sl [] I) as P.
    rewrite H in P. destruct P as [_ G]. unfold pairing_guard in G.
    intros x y Hx Hy Hne. apply andb_false_iff in G as [G|G].
    + apply Nat.ltb_ge in G. exfalso.
      destruct (switch_list b) as [|u [|v rest]]; cbn [List.length] in G;
        [destruct Hx| |lia].
      destruct Hx as [<-|[]], Hy as [<-|[]]. contradiction.
    + now apply (not_fully_connected_false _ _ G).
  - intros sl' links' N'. unfold pairing_guard. split.
    + intros G. apply andb_true_iff in G as [_ G].
      now apply not_fully_connected_true.
    + intros (x & y & Hx & Hy & Hne & A). apply andb_true_iff. split.
      * apply Nat.ltb_lt.
        destruct sl' as [|u [|v rest]]; cbn [List.length]; [destruct Hx| |lia].
        destruct Hx as [<-|[]], Hy as [<-|[]]. contradiction.
      * destruct (not_fully_connected sl' links') eqn:E; [reflexivity|].
        rewrite (not_fully_connected_false _ _ E x y Hx Hy Hne) in A.
        discriminate.
Qed.

(** X12 on a run: what is left of four switches with three ports each. *)
Lemma pairing_stops_on_clique_witness :
  exists b,
    pairing 100 3 (mkBuilder (R := lcg) 0 ["s1"; "s2"; "s3"; "s4"]%string []) = Ret b
    /\ forall x y, In x (switch_list b) -> In y (switch_list b) -> x <> y ->
                   adjacent (added_links b) x y = true.
Proof.
  run_as H (pairing 100 3
              (mkBuilder (R := lcg) 0 ["s1"; "s2"; "s3"; "s4"]%string [])).
  eexists. split; [exact H|].
  exact (proj1 (pairing_stops_on_clique lcg 100 3 _ 0 _ four_switches_NoDup H)).
Defined.

(** X13.  In the pairing loop, started on different switches, a switch
    stops being a candidate only on reaching exactly ports_per_switch
    links, or as the last candidate: when the loop returns, either no
    candidate is left or every switch that is no more a candidate has
    exactly ports_per_switch links.  The candidates left are different
    switches of the initial list. *)
Theorem pairing_retires_saturated (R : RandomSource) (fuel : nat) (ports : Z)
  (sl : list string) (g : rng R) (b : Builder R) :
  NoDup sl ->
  pairing fuel ports (mkBuilder g sl []) = Ret b ->
  NoDup (switch_list b) /\ incl (switch_list b) sl
  /\ (switch_list b = []
      \/ forall s, In s sl -> ~ In s (switch_list b) ->
                   count_links_with_switch s (added_links b) = ports).
Proof.
  intros N H.
  pose proof (pairing_ind ports (pairing_inv ports sl)
                (pair_up_pairing_inv ports sl) fuel g sl []
                (pairing_inv_init ports sl N)) as P.
  rewrite H in P. destruct P as [(_ & _ & N' & Hi & Hr) _]. auto.
Qed.

(** X13 on a run. *)
Lemma pairing_retires_saturated_witness :
  exists b,
    pairing 100 2 (mkBuilder (R := lcg) 0 ["s1"; "s2"; "s3"; "s4"]%string []) = Ret b
    /\ NoDup (switch_list b) /\ incl (switch_list b) ["s1"; "s2"; "s3"; "s4"]%string
    /\ (switch_list b = []
        \/ forall s, In s ["s1"; "s2"; "s3"; "s4"]%string ->
                     ~ In s (switch_list b) ->
                     count_links_with_switch s (added_links b) = 2).
Proof.
  run_as H (pairing 100 2
              (mkBuilder (R := lcg) 0 ["s1"; "s2"; "s3"; "s4"]%string [])).
  eexists. split; [exact H|].
  exact (pairing_retires_saturated lcg 100 2 _ 0 _ four_switches_NoDup H).
Defined.

(** ** Phase 2 *)

Section RepairPasses.

Context {R : RandomSource} (ports : Z) (sl : list string).

(** One visit either leaves the pass as it is, the switch being settled, or
    marks it as not completed; the edge list never gets shorter. *)
Lemma repair_switch_cases (p p' : Pass R) (switch : string) :
  repair_switch ports sl p switch = Ret p' ->
  (p' = p /\ settled ports sl (pass_links p) switch)
  \/ (completed p' = false
      /\ count_links_with_switch switch (pass_links p) < ports - 1
      /\ (pass_links p' = pass_links p
          \/ exists l links1,
               In l (pass_links p) /\ switch <> fst l /\ switch <> snd l
               /\ list_remove link_eqb l (pass_links p) = Ret links1
               /\ pass_links p'
                  = links1 ++ [(switch, fst l)] ++ [(switch, snd l)])).
Proof.
  unfold repair_switch, settled. intros H.
  destruct (switch_is_fully_connected switch (pass_links p) sl) eqn:F.
  { injection H as <-. auto. }
  destruct (Z.ltb_spec (count_links_with_switch switch (pass_links p)) (ports - 1))
    as [C|C].
  2:{ injection H as <-. left. split; [reflexivity|right; lia]. }
  apply bind_Ret_inv in H as ([l g1] & Hc & H).
  pose proof (choice_Ret _ _ _ _ Hc) as Hl.
  destruct (String.eqb_spec switch (fst l)) as [E1|E1]; cbn [orb] in H.
  { injection H as <-. right. auto. }
  destruct (String.eqb_spec switch (snd l)) as [E2|E2].
  { injection H as <-. right. auto. }
  apply bind_Ret_inv in H as (links1 & Hr & H). injection H as <-.
  right. split; [reflexivity|]. split; [exact C|]. right.
  exists l, links1. cbn [pass_links]. auto.
Qed.

Lemma repair_switch_length (p p' : Pass R) (switch : string) :
  repair_switch ports sl p switch = Ret p' ->
  (List.length (pass_links p) <= List.length (pass_links p'))%nat
  /\ (completed p = false -> completed p' = false).
Proof.
  intros H. destruct (repair_switch_cases _ _ _ H)
    as [(-> & _)|(Hc & _ & [E|(l & links1 & _ & _ & _ & Hr & E)])].
  - auto.
  - rewrite E. auto.
  - rewrite E, !length_app. cbn [List.length].
    destruct (list_remove_Ret _ _ _ _ link_eqb_eq Hr) as (_ & _ & L).
    split; [lia|auto].
Qed.

Lemma pass_length (xs : list string) (p p' : Pass R) :
  for_each (repair_switch ports sl) xs p = Ret p' ->
  (List.length (pass_links p) <= List.length (pass_links p'))%nat
  /\ (completed p = false -> completed p' = false).
Proof.
  revert p. induction xs as [|x xs IH]; intros p H; cbn [for_each] in H.
  - injection H as <-. auto.
  - apply bind_Ret_inv in H as (p1 & H1 & H2).
    destruct (repair_switch_length _ _ _ H1) as [L1 C1].
    destruct (IH _ H2) as [L2 C2]. split; [lia|auto].
Qed.

(** A pass that ends completed has changed nothing, and has found every
    switch it visited settled. *)
Lemma pass_completed (xs : list string) (p p' : Pass R) :
  for_each (repair_switch ports sl) xs p = Ret p' ->
  completed p' = true ->
  p' = p /\ forall s, In s xs -> settled ports sl (pass_links p) s.
Proof.
  revert p. induction xs as [|x xs IH]; intros p H Hc; cbn [for_each] in H.
  - injection H as <-. split; [reflexivity|intros s []].
  - apply bind_Ret_inv in H as (p1 & H1 & H2).
    destruct (IH _ H2 Hc) as [-> K].
    destruct (repair_switch_cases _ _ _ H1) as [(-> & S)|(Hf & _)];
      [|congruence].
    split; [reflexivity|]. intros s [<-|Hs]; [exact S|now apply K].
Qed.

(** A pass over settled switches changes nothing and draws nothing. *)
Lemma pass_settled (xs : list string) (p : Pass R) :
  (forall s, In s xs -> settled ports sl (pass_links p) s) ->
  for_each (repair_switch ports sl) xs p = Ret p.
Proof.
  induction xs as [|x xs IH]; intros K; cbn [for_each]; [reflexivity|].
  assert (E : repair_switch ports sl p x = Ret p).
  { unfold repair_switch. destruct (K x (or_introl eq_refl)) as [F|C].
    - now rewrite F.
    - destruct (switch_is_fully_connected x (pass_links p) sl); [reflexivity|].
      destruct (Z.ltb_spec (count_links_with_switch x (pass_links p)) (ports - 1));
        [lia|reflexivity]. }
  rewrite E. cbn [bind]. apply IH. intros s Hs. apply K. now right.
Qed.

Lemma repair_fixed_point (fuel : nat) (g g' : rng R) (links links' : list link) :
  repair fuel ports sl g links = Ret (g', links') ->
  repair_pass ports sl g' links' = Ret (mkPass g' links' true)
  /\ (forall s, In s sl -> settled ports sl links' s)
  /\ (List.length links <= List.length links')%nat.
Proof.
  revert g links. induction fuel as [|fuel IH]; intros g links H;
    [discriminate|].
  rewrite repair_S in H. apply bind_Ret_inv in H as (p & Hp & H).
  unfold repair_pass in Hp.
  destruct (pass_length _ _ _ Hp) as [L _]. cbn [pass_links] in L.
  destruct (completed p) eqn:C.
  - injection H as <- <-.
    destruct (pass_completed _ _ _ Hp C) as [-> K]. cbn [pass_links] in *.
    split; [exact Hp|]. split; [exact K|lia].
  - destruct (IH _ _ H) as (F & K & L'). split; [exact F|].
    split; [exact K|lia].
Qed.

End RepairPasses.

(** X14.  The repair loop returns only a fixed point: when it has returned
    an edge list, a further pass over the candidates with the generator it
    returned changes nothing, draws nothing, and ends completed; every
    candidate is then fully connected or has at least
    ports_per_switch - 1 links; and the edge list is at least as long as
    the one the loop was given.  Conversely, when every candidate passes
    one of these two tests the loop returns at once what it was given. *)
Theorem repair_returns_fixed_point (R : RandomSource) (fuel : nat)
  (ports : Z) (sl : list string) (g g' : rng R) (links links' : list link) :
  (repair fuel ports sl g links = Ret (g', links') ->
   repair_pass ports sl g' links' = Ret (mkPass g' links' true)
   /\ repair (S fuel) ports sl g' links' = Ret (g', links')
   /\ (forall s, In s sl ->
         switch_is_fully_connected s links' sl = true
         \/ ports - 1 <= count_links_with_switch s links')
   /\ (List.length links <= List.length links')%nat)
  /\ ((forall s, In s sl ->
         switch_is_fully_connected s links sl = true
         \/ ports - 1 <= count_links_with_switch s links) ->
      repair (S fuel) ports sl g links = Ret (g, links)).
Proof.
  split.
  - intros H. destruct (repair_fixed_point ports sl _ _ _ _ _ H) as (F & K & L).
    split; [exact F|]. split; [|split; [exact K|exact L]].
    rewrite repair_S, F. reflexivity.
  - intros K. rewrite repair_S. unfold repair_pass.
    rewrite (pass_settled ports sl sl (mkPass g links true) K). reflexivity.
Qed.

(** X14 on a run on four switches with three ports, and on an edge list
    that needs no repair. *)
Lemma repair_returns_fixed_point_witness :
  (exists g' links',
     repair (R := lcg) 100 3 ["s1"; "s2"; "s3"; "s4"]%string 5
       [("s1", "s2"); ("s3", "s4")]%string = Ret (g', links')
     /\ repair (R := lcg) 101 3 ["s1"; "s2"; "s3"; "s4"]%string g' links'
        = Ret (g', links'))
  /\ repair (R := lcg) 1 2 ["s1"; "s2"]%string 0 [("s1", "s2")]%string
     = Ret (0, [("s1", "s2")]%string).
Proof.
  split.
  - run_as H (repair (R := lcg) 100 3 ["s1"; "s2"; "s3"; "s4"]%string 5
                [("s1", "s2"); ("s3", "s4")]%string).
    eexists; eexists. split; [exact H|].
    exact (proj1 (proj2 (proj1 (repair_returns_fixed_point lcg 100 3 _ 5 _ _ _) H))).
  - apply (proj2 (repair_returns_fixed_point lcg 0 2 ["s1"; "s2"]%string 0 0
                    [("s1", "s2")]%string [])).
    intros s [<-|[<-|[]]]; right; reflexivity.
Defined.

(** X15.  One visit of the repair loop, on an edge list without self-loop:
    either the edge list is left as it is, or the visited switch had fewer
    than ports_per_switch - 1 links and one link between two other switches
    was replaced by two links from the visited switch to its two ends.  The
    edge list is then one longer, the visited switch has two links more,
    every other switch has as many links as before, there is still no
    self-loop, and the pass is marked as not completed. *)
Theorem rewiring_step (R : RandomSource) (ports : Z) (sl : list string)
  (p p' : Pass R) (switch : string) :
  (forall l, In l (pass_links p) -> fst l <> snd l) ->
  repair_switch ports sl p switch = Ret p' ->
  pass_links p' = pass_links p
  \/ (count_links_with_switch switch (pass_links p) < ports - 1
      /\ completed p' = false
      /\ List.length (pass_links p') = S (List.length (pass_links p))
      /\ count_links_with_switch switch (pass_links p')
         = count_links_with_switch switch (pass_links p) + 2
      /\ (forall s, s <> switch ->
            count_links_with_switch s (pass_links p')
            = count_links_with_switch s (pass_links p))
      /\ forall l, In l (pass_links p') -> fst l <> snd l).
Proof.
  intros Hloop H.
  destruct (repair_switch_cases ports sl _ _ _ H)
    as [(-> & _)|(Hc & Hlt & [E|(l & links1 & Hl & N1 & N2 & Hr & E)])];
    [now left|now left|].
  right. split; [exact Hlt|]. split; [exact Hc|].
  destruct (list_remove_Ret _ _ _ _ link_eqb_eq Hr) as (I1 & _ & L).
  pose proof (Hloop l Hl) as Hne.
  rewrite E. split; [|split; [|split]].
  - rewrite !length_app. cbn [List.length]. lia.
  - rewrite !count_links_app. cbn [count_links_with_switch].
    rewrite (count_links_remove switch l _ _ Hr).
    unfold touches. cbn [fst snd]. rewrite String.eqb_refl. cbn [orb].
    destruct (String.eqb_spec switch (fst l)); [contradiction|].
    destruct (String.eqb_spec switch (snd l)); [contradiction|].
    cbn [orb]. lia.
  - intros s Hs. rewrite !count_links_app. cbn [count_links_with_switch].
    rewrite (count_links_remove s l _ _ Hr).
    unfold touches. cbn [fst snd].
    destruct (String.eqb_spec s switch); [contradiction|]. cbn [orb].
    destruct (String.eqb_spec s (fst l)) as [E1|E1],
             (String.eqb_spec s (snd l)) as [E2|E2]; cbn [orb];
      try lia. congruence.
  - intros x Hx. apply in_app_or in Hx as [Hx|[<-|[<-|[]]]].
    + apply Hloop, I1, Hx.
    + exact N1.
    + exact N2.
Qed.

(** X15 on a visit of s1, which has no link, with the links s2-s3 and
    s3-s4 to draw from. *)
Lemma rewiring_step_witness :
  exists p',
    repair_switch 3 ["s1"; "s2"; "s3"; "s4"]%string
      (mkPass (R := lcg) 5 [("s2", "s3"); ("s3", "s4")]%string true)
      "s1"%string = Ret p'
    /\ (pass_links p' = [("s2", "s3"); ("s3", "s4")]%string
        \/ List.length (pass_links p') = 3%nat).
Proof.
  run_as H (repair_switch 3 ["s1"; "s2"; "s3"; "s4"]%string
              (mkPass (R := lcg) 5 [("s2", "s3"); ("s3", "s4")]%string true)
              "s1"%string).
  assert (Hloop : forall l : link,
             In l [("s2", "s3"); ("s3", "s4")]%string -> fst l <> snd l).
  { intros l [<-|[<-|[]]]; discriminate. }
  eexists. split; [exact H|].
  destruct (rewiring_step lcg 3 _
              (mkPass (R := lcg) 5 [("s2", "s3"); ("s3", "s4")]%string true)
              _ _ Hloop H) as [E|(_ & _ & L & _)];
    [left; exact E|right; exact L].
Defined.

(** X16.  With fewer than two candidates the two loops do nothing: they
    return at once, with no link and the generator untouched. *)
Theorem no_link_below_two_switches (R : RandomSource) (fuel : nat)
  (ports : Z) (sl : list string) (g : rng R) :
  (List.length sl <= 1)%nat ->
  build_links (S fuel) ports sl g = Ret (g, []).
Proof.
  intros L. unfold build_links. rewrite pairing_S.
  cbn [switch_list added_links]. unfold pairing_guard.
  replace (Nat.ltb 1 (List.length sl)) with false
    by (symmetry; apply Nat.ltb_ge; exact L).
  cbn [andb bind switch_list gen added_links].
  rewrite repair_S. unfold repair_pass.
  rewrite (pass_settled ports sl sl (mkPass g [] true)); [reflexivity|].
  intros s Hs. left. apply fully_connected_alone.
  intros a Ha. destruct sl as [|x [|y sl]]; cbn [List.length] in L; [| |lia].
  - destruct Hs.
  - destruct Hs as [<-|[]], Ha as [<-|[]]. reflexivity.
Qed.

(** X16 on one switch. *)
Lemma no_link_below_two_switches_witness :
  build_links (R := lcg) 1 4 ["s1"%string] 7 = Ret (7, []).
Proof. apply (no_link_below_two_switches lcg 0 4 ["s1"%string] 7). simpl. lia. Defined.

(** ** Counting link ends *)

Lemma sum_indicator (a : string) (vs : list string) :
  NoDup vs -> In a vs ->
  fold_right Z.add 0 (map (fun s => if String.eqb s a then 1 else 0) vs) = 1.
Proof.
  induction vs as [|x vs IH]; intros N Hin; [destruct Hin|].
  inversion N as [|? ? Hx N']; subst. cbn [map fold_right].
  destruct (String.eqb_spec x a) as [->|Hne].
  - assert (Zero : fold_right Z.add 0
                  (map (fun s => if String.eqb s a then 1 else 0) vs) = 0).
    { clear IH N N' Hin. induction vs as [|y vs IH]; [reflexivity|].
      cbn [map fold_right].
      destruct (String.eqb_spec y a) as [->|_]; [exfalso; apply Hx; now left|].
      rewrite IH; [reflexivity|]. intros H. apply Hx. now right. }
    rewrite Zero. reflexivity.
  - destruct Hin as [E|Hin]; [contradiction|]. rewrite (IH N' Hin). reflexivity.
Qed.

Lemma sum_add (f g : string -> Z) (vs : list string) :
  fold_right Z.add 0 (map (fun s => f s + g s) vs)
  = fold_right Z.add 0 (map f vs) + fold_right Z.add 0 (map g vs).
Proof.
  induction vs as [|x vs IH]; [reflexivity|]. cbn [map fold_right]. lia.
Qed.

Lemma sum_ext (f g : string -> Z) (vs : list string) :
  (forall s, f s = g s) ->
  fold_right Z.add 0 (map f vs) = fold_right Z.add 0 (map g vs).
Proof.
  intros E. induction vs as [|x vs IH]; [reflexivity|].
  cbn [map fold_right]. now rewrite E, IH.
Qed.

(** Each link is counted at its two ends. *)
Lemma total_degree_twice (vs : list string) (links : list link) :
  NoDup vs -> links_within vs links ->
  total_degree vs links = 2 * Z.of_nat (List.length links).
Proof.
  intros N. unfold total_degree.
  induction links as [|l links IH]; intros Hw.
  - cbn [count_links_with_switch List.length]. clear.
    induction vs as [|x vs IH]; [reflexivity|]. cbn [map fold_right].
    rewrite IH. reflexivity.
  - destruct (Hw l (or_introl eq_refl)) as (H1 & H2 & Hne).
    cbn [count_links_with_switch]. rewrite sum_add, IH.
    2:{ intros x Hx. apply Hw. now right. }
    rewrite (sum_ext _ (fun s => (if String.eqb s (fst l) then 1 else 0)
                                 + (if String.eqb s (snd l) then 1 else 0))).
    2:{ intros s. unfold touches.
        destruct (String.eqb_spec s (fst l)) as [E1|E1],
                 (String.eqb_spec s (snd l)) as [E2|E2]; cbn [orb];
          try reflexivity. congruence. }
    rewrite sum_add, !sum_indicator by assumption.
    cbn [List.length]. lia.
Qed.

Lemma total_degree_bound (ports : Z) (vs : list string) (links : list link) :
  (forall s, count_links_with_switch s links <= ports) ->
  total_degree vs links <= ports * Z.of_nat (List.length vs).
Proof.
  intros H. unfold total_degree. induction vs as [|x vs IH].
  - cbn [map fold_right List.length]. lia.
  - cbn [map fold_right List.length]. specialize (H x). lia.
Qed.

(** X17.  When the two loops have returned, from different switches and
    with a positive ports_per_switch, each link of the working edge list is
    counted by [count_links_with_switch] at exactly two of the switches, so
    that the counts add up to twice the number of links; the number of
    links is therefore at most ports_per_switch times the number of
    switches, halved. *)
Theorem links_counted_twice (R : RandomSource) (fuel : nat) (ports : Z)
  (sl : list string) (g g' : rng R) (links : list link) :
  1 <= ports -> NoDup sl ->
  build_links fuel ports sl g = Ret (g', links) ->
  total_degree sl links = 2 * Z.of_nat (List.length links)
  /\ 2 * Z.of_nat (List.length links) <= ports * Z.of_nat (List.length sl).
Proof.
  intros Hp N H.
  destruct (build_links_post ports _ _ _ _ _ H) as (Hw & _).
  pose proof (total_degree_twice sl links N Hw) as E.
  split; [exact E|]. rewrite <- E. apply total_degree_bound.
  exact (degree_at_most_ports R fuel ports sl g g' links Hp N H).
Qed.

(** X17 on a run over four switches with three ports each. *)
Lemma links_counted_twice_witness :
  exists g' links,
    build_links (R := lcg) 100 3 ["s1"; "s2"; "s3"; "s4"]%string 0
    = Ret (g', links)
    /\ 2 * Z.of_nat (List.length links) <= 3 * 4.
Proof.
  run_as H (build_links (R := lcg) 100 3 ["s1"; "s2"; "s3"; "s4"]%string 0).
  eexists; eexists. split; [exact H|].
  exact (proj2 (links_counted_twice lcg 100 3 _ 0 _ _ ltac:(lia)
                  four_switches_NoDup H)).
Defined.

(** ** Layers *)

Lemma addHosts_records (bw nsw nodes ports hps : Z) (t : Topo) :
  addHosts bw nsw nodes ports hps empty_topo = Ret t ->
  forall r, In r (topo_nodes t) -> built_record nodes r.
Proof.
  unfold addHosts, addHosts_clusters, addHosts_fillers. intros H.
  apply bind_Ret_inv in H as (t1 & H1 & H2).
  apply bind_Ret_inv in H1 as (st & H1 & E). injection E as <-.
  apply bind_Ret_inv in H2 as (start & Hd & H2).
  assert (Hh : hps <> 0).
  { intros ->. unfold py_div in Hd. discriminate. }
  set (P := fun l : list NodeRecord => forall r, In r l -> built_record nodes r).
  assert (I1 : P (topo_nodes (att_topo st))).
  { revert H1. apply (for_each_inv (fun s => P (topo_nodes (att_topo s)))).
    - intros s x s' Hx Hs Hb. apply in_py_range in Hx.
      rewrite attach_host_eq in Hb by assumption. injection Hb as <-.
      destruct (x mod hps =? 0); cbn [att_topo];
        rewrite ?topo_nodes_add_links; cbn [topo_nodes addSwitch addHost];
        intros r Hr;
        repeat (apply in_app_or in Hr as [Hr|[<-|[]]]);
        try (now apply Hs);
        try (left; exists (x + 1); split; [lia|reflexivity]);
        right; eexists; reflexivity.
    - intros r []. }
  rewrite fillers_run in H2. injection H2 as <-. cbn [topo_nodes].
  intros r Hr. apply in_app_or in Hr as [Hr|Hr]; [now apply I1|].
  apply in_map_iff in Hr as (x & <- & _). right. eexists; reflexivity.
Qed.

Lemma find_latest (t : Topo) (n : string) :
  (In n (map node_name (topo_nodes t)) ->
   exists r, find (fun r => String.eqb (node_name r) n) (rev (topo_nodes t))
             = Some r /\ In r (topo_nodes t) /\ node_name r = n)
  /\ (~ In n (map node_name (topo_nodes t)) ->
      find (fun r => String.eqb (node_name r) n) (rev (topo_nodes t)) = None).
Proof.
  destruct (find _ (rev (topo_nodes t))) as [r|] eqn:F.
  - apply find_some in F as [F1 F2]. rewrite <- in_rev in F1.
    apply String.eqb_eq in F2. split.
    + intros _. exists r. auto.
    + intros N. exfalso. apply N. rewrite <- F2. now apply in_map.
  - split; [|reflexivity]. intros Hn. exfalso.
    apply in_map_iff in Hn as (r & E & Hr).
    pose proof (find_none _ _ F r) as K. cbv beta in K.
    rewrite E, String.eqb_refl in K.
    assert (true = false); [|discriminate]. apply K. now rewrite <- in_rev.
Qed.

(** X18.  In a topology that was built the layer of a node and its being a
    switch are read from the same call: every node is at the edge layer if
    it is a switch and at the host layer if not, a name that was not added
    has no layer, and [layer_nodes] at the edge layer holds the switches, at
    the host layer the nodes that are not switches, and at any other layer
    nothing. *)
Theorem layers_follow_node_kind (R : RandomSource) (fuel : nat) (g0 : rng R)
  (seed nsw nodes ports hps bw : Z) (t : Topo) (g' : rng R) :
  JellyfishTopo fuel g0 seed nsw nodes ports hps bw = Ret (t, g') ->
  (forall n, In n (map node_name (topo_nodes t)) ->
             layer t n = Some (if isSwitch t n then LAYER_EDGE else LAYER_HOST))
  /\ (forall n, ~ In n (map node_name (topo_nodes t)) -> layer t n = None)
  /\ (forall n, In n (layer_nodes t LAYER_EDGE) <-> In n (switches t))
  /\ (forall n, In n (layer_nodes t LAYER_HOST)
                <-> In n (map node_name (topo_nodes t))
                    /\ isSwitch t n = false)
  /\ forall l, l <> LAYER_EDGE -> l <> LAYER_HOST -> layer_nodes t l = [].
Proof.
  intros H.
  destruct (JellyfishTopo_parts _ _ _ _ _ _ _ _ _ _ _ H)
    as (t1 & links & Ha & _ & -> & _ & _).
  pose proof (addHosts_records _ _ _ _ _ _ Ha) as Hrec.
  set (t := materialize bw links t1).
  assert (Hn : topo_nodes t = topo_nodes t1) by apply topo_nodes_materialize.
  assert (L1 : forall n, In n (map node_name (topo_nodes t)) ->
                 layer t n
                 = Some (if isSwitch t n then LAYER_EDGE else LAYER_HOST)).
  { intros n Hin. unfold layer, isSwitch.
    destruct (proj1 (find_latest t n) Hin) as (r & -> & Hr & _).
    rewrite Hn in Hr.
    destruct (Hrec r Hr) as [(m & _ & ->)|(j & ->)]; reflexivity. }
  assert (L2 : forall n, ~ In n (map node_name (topo_nodes t)) ->
                 layer t n = None).
  { intros n Hin. unfold layer. now rewrite (proj2 (find_latest t n) Hin). }
  assert (M : forall n, In n (distinct_names [] (topo_nodes t))
                        <-> In n (map node_name (topo_nodes t))).
  { intros n. rewrite distinct_names_In. cbn [In]. tauto. }
  split; [exact L1|]. split; [exact L2|]. split; [|split].
  - intros n. unfold layer_nodes, switches. rewrite !filter_In, M. split.
    + intros [Hin E]. split; [exact Hin|]. rewrite (L1 n Hin) in E.
      destruct (isSwitch t n); [reflexivity|discriminate].
    + intros [Hin E]. split; [exact Hin|]. now rewrite (L1 n Hin), E.
  - intros n. unfold layer_nodes. rewrite filter_In, M. split.
    + intros [Hin E]. split; [exact Hin|]. rewrite (L1 n Hin) in E.
      destruct (isSwitch t n); [discriminate|reflexivity].
    + intros [Hin E]. split; [exact Hin|]. now rewrite (L1 n Hin), E.
  - intros l N1 N2. unfold layer_nodes.
    destruct (filter _ _) as [|n rest] eqn:F; [reflexivity|]. exfalso.
    assert (Hin : In n (n :: rest)) by now left.
    rewrite <- F in Hin. apply filter_In in Hin as [Hin E].
    apply M in Hin. rewrite (L1 n Hin) in E.
    destruct (isSwitch t n); apply Z.eqb_eq in E; congruence.
Qed.

(** X18 on a run: no node is at a layer other than these two. *)
Lemma layers_follow_node_kind_witness :
  exists t g',
    JellyfishTopo (R := lcg) 100 0 0 4 5 4 3 40 = Ret (t, g')
    /\ forall l, l <> LAYER_EDGE -> l <> LAYER_HOST -> layer_nodes t l = [].
Proof.
  eexists; eexists. split; [vm_compute; reflexivity|].
  eapply (layers_follow_node_kind lcg 100 0 0 4 5 4 3 40).
  vm_compute; reflexivity.
Defined.

(** X19.  [isPortUp] holds of the odd port numbers, negative ones too, and
    of every other port in a row. *)
Theorem isPortUp_odd (port : Z) :
  isPortUp port = Z.odd port
  /\ isPortUp (port + 1) = negb (isPortUp port)
  /\ isPortUp (port + 2) = isPortUp port.
Proof.
  assert (E : forall p, isPortUp p = Z.odd p).
  { intros p. unfold isPortUp, PORT_BASE. rewrite Zmod_odd.
    destruct (Z.odd p); reflexivity. }
  rewrite !E. split; [reflexivity|]. split.
  - replace (port + 1) with (Z.succ port) by lia. rewrite Z.odd_succ.
    now rewrite Z.negb_odd.
  - replace (port + 2) with (Z.succ (Z.succ port)) by lia.
    now rewrite Z.odd_succ_succ.
Qed.

(** ** The identifiers of the nodes *)

Lemma some_eq {A : Type} (x y : A) : Some x = Some y -> x = y.
Proof. congruence. Qed.

Lemma switch_dpid (j : Z) : dpid (id_of_indices j 255) = 256 * j + 255.
Proof.
  unfold id_of_indices; cbn [dpid]. rewrite Z.shiftl_mul_pow2 by lia.
  change (2 ^ 8) with 256. lia.
Qed.

Lemma host_addr_bytes (m : Z) :
  0 <= m < 256 -> addr_bytes (id_of_indices m m) = (m, m).
Proof.
  intros Hm. unfold addr_bytes. rewrite byte_mid, byte_lo, host_dpid.
  replace (257 * m) with (m + m * 256) by lia.
  rewrite Z.div_add, Z.mod_add, Z.div_small by lia.
  rewrite !Z.mod_small by lia. reflexivity.
Qed.

(** X20.  In a topology that was built with fewer than 255 hosts, the
    composite id tells the nodes apart: two calls that gave the same id
    were the same call repeated, with the same name, kind and options.  A
    host number m carries the address bytes (m, m), so that the addresses
    tell the hosts apart as well; a switch carries no address. *)
Theorem node_ids_distinct (R : RandomSource) (fuel : nat) (g0 : rng R)
  (seed nsw nodes ports hps bw : Z) (t : Topo) (g' : rng R) :
  nodes < 255 ->
  JellyfishTopo fuel g0 seed nsw nodes ports hps bw = Ret (t, g') ->
  (forall r1 r2, In r1 (topo_nodes t) -> In r2 (topo_nodes t) ->
     opt_dpid (node_opts r1) = opt_dpid (node_opts r2) -> r1 = r2)
  /\ (forall r, In r (topo_nodes t) ->
        if node_isSwitch r then opt_addr (node_opts r) = None
        else exists m, 1 <= m <= nodes /\ node_name r = host_name m
                       /\ opt_addr (node_opts r) = Some (m, m))
  /\ forall r1 r2, In r1 (topo_nodes t) -> In r2 (topo_nodes t) ->
        node_isSwitch r1 = false ->
        opt_addr (node_opts r1) = opt_addr (node_opts r2) -> r1 = r2.
Proof.
  intros Hn H.
  destruct (JellyfishTopo_parts _ _ _ _ _ _ _ _ _ _ _ H)
    as (t1 & links & Ha & _ & -> & _ & _).
  rewrite topo_nodes_materialize.
  pose proof (addHosts_records _ _ _ _ _ _ Ha) as Hrec.
  split; [|split].
  - intros r1 r2 H1 H2 E.
    destruct (Hrec r1 H1) as [(m1 & B1 & ->)|(j1 & ->)],
             (Hrec r2 H2) as [(m2 & B2 & ->)|(j2 & ->)];
      cbn [node_opts opt_dpid host_opts edge_opts] in E;
      apply some_eq in E; rewrite ?host_dpid, ?switch_dpid in E.
    + assert (m1 = m2) by lia. now subst.
    + exfalso. lia.
    + exfalso. lia.
    + assert (j1 = j2) by lia. now subst.
  - intros r Hr. destruct (Hrec r Hr) as [(m & B & ->)|(j & ->)];
      cbn [node_isSwitch node_opts opt_addr host_opts edge_opts node_name].
    + exists m. split; [exact B|]. split; [reflexivity|].
      now rewrite host_addr_bytes by lia.
    + reflexivity.
  - intros r1 r2 H1 H2 S1 E.
    destruct (Hrec r1 H1) as [(m1 & B1 & ->)|(j1 & ->)]; [|discriminate].
    destruct (Hrec r2 H2) as [(m2 & B2 & ->)|(j2 & ->)];
      cbn [node_opts opt_addr host_opts edge_opts] in E; [|discriminate].
    apply some_eq in E. rewrite !host_addr_bytes in E by lia.
    injection E as E _. now subst.
Qed.

(** X20 on a run. *)
Lemma node_ids_distinct_witness :
  exists t g',
    JellyfishTopo (R := lcg) 100 0 0 4 5 4 3 40 = Ret (t, g')
    /\ forall r1 r2, In r1 (topo_nodes t) -> In r2 (topo_nodes t) ->
         opt_dpid (node_opts r1) = opt_dpid (node_opts r2) -> r1 = r2.
Proof.
  eexists; eexists. split; [vm_compute; reflexivity|].
  eapply (node_ids_distinct lcg 100 0 0 4 5 4 3 40);
    [lia|vm_compute; reflexivity].
Defined.
